(** * Pico W remote-control interface: command dispatcher, PWM path,
      distance parser and bounded distance history, pollers and joystick

    A shallow embedding of [interfazpinkaversijala.py].  The Tk widgets are
    reduced to the values the control logic reads and writes; every
    lock-protected block of [CommandSender] is one atomic step, the network
    call between two such blocks is an interval during which other steps may
    run.  The timers of [root.after] are the list of those pending; a
    callback that raises ends where it raised and the event loop goes on.

    Conventions.
    - Clock readings ([time.time()*1000]) are rationals, in milliseconds,
      and their differences are exact.  A float read from a text or from
      an [int], and every operation of the joystick's arithmetic, is
      rounded to binary64.
    - A Python [str] is a [string] whose characters are the code points
      0..255.  The messages shown to the user are copied from the source as
      they stand there; no function looks into them.
    - What a step reads from outside (the clock, the IP entry, the HTTP
      answer, the readings of the joystick, whether a drawing call on the
      canvas returns) is an argument of the step. *)

From Stdlib Require Import ZArith QArith Bool List String Ascii Lia.
From Stdlib Require Import Qabs Qminmax Lqa DecimalString.
Import ListNotations.

Local Open Scope Z_scope.
#[local] Set Warnings "-register-all".

(* ------------------------------------------------------------------ *)
(** ** Configuration constants *)

Definition TIMEOUT : Q := 3 # 2.
Definition RATE_LIMIT_MS : Z := 160.
Definition MAX_FAILS : Z := 4.
Definition ULTRA_POLL_MS : Z := 180.
Definition JOY_POLL_MS : Z := 50.
Definition ACCENT1 : string := "#ff2d55".
Definition ACCENT2 : string := "#9b59b6".
Definition SUBTEXT : string := "#bfc4c8".
Definition V_MAX_KMH : Z := 12.
Definition DIST_HISTORY_LEN : nat := 120.

(* ------------------------------------------------------------------ *)
(** ** Python built-ins used by the program *)

(** [int(x)] on a float: truncation toward zero. *)
Definition py_int (x : Q) : Z := Z.quot (Qnum x) (Zpos (Qden x)).

(** [str(n)] / [f"{n}"] on an int. *)
Definition py_str (n : Z) : string := NilZero.string_of_int (Z.to_int n).

Definition code (c : ascii) : N := N_of_ascii c.

(** [str.isspace] on one code point below 256. *)
Definition is_space (c : ascii) : bool :=
  let n := code c in
  ((9 <=? n) && (n <=? 13) || (28 <=? n) && (n <=? 32)
   || (n =? 133) || (n =? 160))%N.

Fixpoint lstrip (s : string) : string :=
  match s with
  | String c r => if is_space c then lstrip r else s
  | EmptyString => EmptyString
  end.

(** Drops the trailing white space; the one-pass form of [str.rstrip]. *)
Fixpoint rstrip (s : string) : string :=
  match s with
  | String c r =>
      match rstrip r with
      | EmptyString => if is_space c then EmptyString else String c EmptyString
      | r' => String c r'
      end
  | EmptyString => EmptyString
  end.

(** [s.strip()] *)
Definition strip (s : string) : string := rstrip (lstrip s).

(** Truth value of a [str]: [not ip], [if txt]. *)
Definition truthy (s : string) : bool :=
  match s with EmptyString => false | _ => true end.

(* ------------------------------------------------------------------ *)
(** ** CommandSender *)

Record CommandSender := mkSender {
  pending : option string;
  inflight : bool;
  last_ts : Q;
  fail_count : Z;
  shutdown : bool
}.

(** [CommandSender.__init__] *)
Definition new_sender : CommandSender :=
  {| pending := None; inflight := false; last_ts := 0;
     fail_count := 0; shutdown := false |}.

Definition set_pending (p : option string) (s : CommandSender) :=
  {| pending := p; inflight := inflight s; last_ts := last_ts s;
     fail_count := fail_count s; shutdown := shutdown s |}.
Definition set_inflight (b : bool) (s : CommandSender) :=
  {| pending := pending s; inflight := b; last_ts := last_ts s;
     fail_count := fail_count s; shutdown := shutdown s |}.
Definition set_last_ts (t : Q) (s : CommandSender) :=
  {| pending := pending s; inflight := inflight s; last_ts := t;
     fail_count := fail_count s; shutdown := shutdown s |}.
Definition set_fail_count (n : Z) (s : CommandSender) :=
  {| pending := pending s; inflight := inflight s; last_ts := last_ts s;
     fail_count := n; shutdown := shutdown s |}.
Definition set_shutdown (b : bool) (s : CommandSender) :=
  {| pending := pending s; inflight := inflight s; last_ts := last_ts s;
     fail_count := fail_count s; shutdown := b |}.

(** What a method does besides updating the sender's own fields, in the
    order it does it. *)
Inductive effect :=
| EAfter (ms : Z)                 (* self._after(ms, self._pump) *)
| EThread                         (* threading.Thread(target=_send).start() *)
| EGet (url : string)             (* requests.get(url, ...) *)
| ESoftError (m : string)         (* self.on_soft_error(m) *)
| EHardDisconnect (m : string).   (* self.on_hard_disconnect(m) *)

(** The critical section of [queue]; the call of [_pump] that follows is a
    step of its own. *)
Definition queue_store (cmd : string) (s : CommandSender) : CommandSender :=
  set_pending (Some cmd) s.

Definition wait_ms (now : Q) (s : CommandSender) : Z :=
  Z.max 0 (RATE_LIMIT_MS - py_int (now - last_ts s)).

(** [_pump]: it changes no field; it returns, re-arms itself, or starts the
    [_send] thread. *)
Definition _pump (now : Q) (s : CommandSender) : list effect :=
  if inflight s || (match pending s with None => true | Some _ => false end)
     || shutdown s
  then []
  else if 0 <? wait_ms now s then [EAfter (wait_ms now s)]
  else [EThread].

Definition _register_fail (s : CommandSender) : CommandSender * list effect :=
  let s' := set_fail_count (fail_count s + 1) s in
  let fc := fail_count s' in
  if fc <? MAX_FAILS then
    let back_ms := Z.min 2000 (fc * 200) in
    (s', [ESoftError ("Intento fallido (" ++ py_str fc ++ "/"
                        ++ py_str MAX_FAILS ++ ")");
          EAfter back_ms])
  else
    (s', [EHardDisconnect "Múltiples fallos de envío."]).

(** First critical section of [_send]: [Some cmd_local] when the command is
    taken, [None] on the early return. *)
Definition _send_take (s : CommandSender) : CommandSender * option string :=
  match pending s with
  | None => (set_inflight false s, None)
  | Some cmd_local =>
      if shutdown s then (set_inflight false s, None)
      else (set_inflight true (set_pending None s), Some cmd_local)
  end.

(** [ip = self.get_ip().strip()] and the URL; [None] stands for the
    [RuntimeError] raised on an empty address. *)
Definition _send_url (ip_entry cmd_local : string) : option string :=
  let ip := strip ip_entry in
  if negb (truthy ip) then None
  else Some ("http://" ++ ip ++ "/" ++ cmd_local)%string.

(** How [requests.get] ends: a response with its status code, or an
    exception. *)
Inductive outcome := Status (status_code : Z) | Raises.

(** The rest of the [try] block once [requests.get] has ended. *)
Definition _send_result (r : outcome) (now : Q) (s : CommandSender)
  : CommandSender * list effect :=
  match r with
  | Status c =>
      if c =? 200 then (set_last_ts now (set_fail_count 0 s), [])
      else _register_fail s
  | Raises => _register_fail s
  end.

(** The [finally] block and the re-arming that follows it. *)
Definition _send_finally (s : CommandSender) : CommandSender * list effect :=
  (set_inflight false s, [EAfter 0]).

Definition shutdown_sender (s : CommandSender) : CommandSender :=
  set_pending None (set_shutdown true s).

(* ------------------------------------------------------------------ *)
(** ** Module-level state and the callbacks given to [sender] *)

Record Globals := mkGlobals {
  conectado : bool;                      (* estado["conectado"] *)
  _last_vel_ts : Q;
  _last_vel_val : Z;
  lbl_status : string * string;          (* text, fg *)
  lbl_ipinfo : string;
  speed_text : string;
  dialogs : list (string * string)       (* messagebox calls: title, message *)
}.

Definition initial_globals : Globals :=
  {| conectado := false; _last_vel_ts := 0; _last_vel_val := -1;
     lbl_status := ("Desconectado", "#ff6b81")%string; lbl_ipinfo := "";
     speed_text := "0.0 km/h"; dialogs := [] |}.

Definition set_conectado (b : bool) (g : Globals) :=
  {| conectado := b; _last_vel_ts := _last_vel_ts g;
     _last_vel_val := _last_vel_val g; lbl_status := lbl_status g;
     lbl_ipinfo := lbl_ipinfo g; speed_text := speed_text g;
     dialogs := dialogs g |}.
Definition set_lbl_status (text fg : string) (g : Globals) :=
  {| conectado := conectado g; _last_vel_ts := _last_vel_ts g;
     _last_vel_val := _last_vel_val g; lbl_status := (text, fg);
     lbl_ipinfo := lbl_ipinfo g; speed_text := speed_text g;
     dialogs := dialogs g |}.
Definition set_lbl_ipinfo (text : string) (g : Globals) :=
  {| conectado := conectado g; _last_vel_ts := _last_vel_ts g;
     _last_vel_val := _last_vel_val g; lbl_status := lbl_status g;
     lbl_ipinfo := text; speed_text := speed_text g;
     dialogs := dialogs g |}.
Definition show_dialog (title message : string) (g : Globals) :=
  {| conectado := conectado g; _last_vel_ts := _last_vel_ts g;
     _last_vel_val := _last_vel_val g; lbl_status := lbl_status g;
     lbl_ipinfo := lbl_ipinfo g; speed_text := speed_text g;
     dialogs := dialogs g ++ [(title, message)] |}.
Definition set_last_vel (val : Z) (ts : Q) (speed : string) (g : Globals) :=
  {| conectado := conectado g; _last_vel_ts := ts;
     _last_vel_val := val; lbl_status := lbl_status g;
     lbl_ipinfo := lbl_ipinfo g; speed_text := speed;
     dialogs := dialogs g |}.

(** [on_soft_error=lambda m: lbl_status.config(text=m, fg=ACCENT2)] *)
Definition on_soft_error (m : string) (g : Globals) : Globals :=
  set_lbl_status m ACCENT2 g.

(** [on_hard_disconnect=lambda m: (lbl_status.config(text="Desconectado",
    fg="#ff6b81"), messagebox.showerror("Desconexión", m))] *)
Definition on_hard_disconnect (m : string) (g : Globals) : Globals :=
  show_dialog "Desconexión" m (set_lbl_status "Desconectado" "#ff6b81" g).

(** [http_alive]: any status below 500 counts as alive. *)
Definition http_alive (r : outcome) : bool :=
  match r with
  | Status c => c <? 500
  | Raises => false
  end.

(** [verificar_conexion] together with its worker [do], [r] being how the
    GET of [/ping] ends.  The label "Verificando..." shown in between, the
    state of the button and the start of the distance poll are left out. *)
Definition verificar_conexion (ip_entry : string) (r : outcome) (g : Globals)
  : Globals :=
  let ip := strip ip_entry in
  if negb (truthy ip) then
    show_dialog "IP faltante" "Ingresa la dirección IP del Pico W." g
  else if http_alive r then
    set_lbl_ipinfo ("→ " ++ ip)
      (set_lbl_status ("Conectado " ++ ip) "#22c55e" (set_conectado true g))
  else
    set_lbl_ipinfo "" (set_lbl_status "No responde" "#ff6b81"
                         (set_conectado false g)).

(* ------------------------------------------------------------------ *)
(** ** The PWM path *)

(** [int(max(0, min(255, pwm)))] *)
Definition clamp_pwm (pwm : Z) : Z := Z.max 0 (Z.min 255 pwm).

(** Nearest integer, ties to even, of a non-negative rational. *)
Definition round_half_even (x : Q) : Z :=
  let n := Qnum x in
  let d := Zpos (Qden x) in
  let fl := n / d in
  let twice := 2 * (n mod d) in
  if twice <? d then fl
  else if d <? twice then fl + 1
  else if Z.even fl then fl else fl + 1.

(** [f"{x:.2f}"] for [x >= 0]. *)
Definition fmt_2f (x : Q) : string :=
  let h := round_half_even (x * 100) in
  let frac := h mod 100 in
  (py_str (h / 100) ++ "."
   ++ (if (frac <? 10)%Z then "0" else EmptyString) ++ py_str frac)%string.

Definition pwm_url (ip : string) (pwm : Z) : string :=
  ("http://" ++ ip ++ "/velocidad?v=" ++ py_str pwm)%string.

(** [_send_pwm]; the second component is the URL requested, if any.  [r] is
    how [requests.get] ends ([Raises]: a [RequestException]). *)
Definition _send_pwm (pwm : Z) (now : Q) (ip_entry : string) (r : outcome)
  (g : Globals) : Globals * option string :=
  if negb (conectado g) then (g, None)
  else
    let pwm := clamp_pwm pwm in
    if (Z.abs (pwm - _last_vel_val g) <? 6)
       && (if Qlt_le_dec (now - _last_vel_ts g) 250 then true else false)
    then (g, None)
    else
      let ip := strip ip_entry in
      if negb (truthy ip) then (g, None)
      else
        let url := pwm_url ip pwm in
        match r with
        | Status c =>
            if c =? 200 then
              let speed_kmh := (inject_Z pwm / 255 * inject_Z V_MAX_KMH)%Q in
              (set_last_vel pwm now (fmt_2f speed_kmh ++ " km/h") g, Some url)
            else (g, Some url)
        | Raises => (g, Some url)
        end.

(* ------------------------------------------------------------------ *)
(** ** The dispatcher at work: threads and interleavings *)

(** Where a [_send] thread stands. *)
Inductive thread :=
| TStarted                       (* started, first critical section not run *)
| TTaken (cmd_local : string)    (* command taken, [requests.get] not called *)
| TInCall (url : string)         (* inside [requests.get] *)
| TFinally                       (* [try] block left, [finally] not run *)
| TDone.

Record World := mkWorld {
  sender : CommandSender;
  globals : Globals;
  threads : list thread;
  log : list effect
}.

Definition initial_world : World :=
  {| sender := new_sender; globals := initial_globals;
     threads := []; log := [] |}.

Definition with_sender (s : CommandSender) (w : World) : World :=
  {| sender := s; globals := globals w; threads := threads w; log := log w |}.
Definition with_globals (g : Globals) (w : World) : World :=
  {| sender := sender w; globals := g; threads := threads w; log := log w |}.

Fixpoint update_nth {A} (n : nat) (x : A) (l : list A) : list A :=
  match l, n with
  | [], _ => []
  | _ :: r, O => x :: r
  | y :: r, S m => y :: update_nth m x r
  end.

Definition with_thread (tid : nat) (t : thread) (w : World) : World :=
  {| sender := sender w; globals := globals w;
     threads := update_nth tid t (threads w); log := log w |}.

(** The callback an effect runs on the module's state. *)
Definition callback (g : Globals) (e : effect) : Globals :=
  match e with
  | ESoftError m => on_soft_error m g
  | EHardDisconnect m => on_hard_disconnect m g
  | _ => g
  end.

(** The thread an effect starts. *)
Definition started (e : effect) : list thread :=
  match e with
  | EThread => [TStarted]
  | _ => []
  end.

(** One effect takes place: it is logged, its callback runs, the thread it
    starts joins the others. *)
Definition perform1 (w : World) (e : effect) : World :=
  {| sender := sender w;
     globals := callback (globals w) e;
     threads := threads w ++ started e;
     log := log w ++ [e] |}.

Definition perform (es : list effect) (w : World) : World :=
  fold_left perform1 es w.

(** The atomic steps.  A thread step that does not apply to the state of its
    thread leaves the world as it is. *)
Inductive action :=
| AQueueStore (cmd : string)                 (* queue: [self.pending = cmd] *)
| APump (now : Q)                            (* one run of [_pump] *)
| ATake (tid : nat)                          (* _send: first critical section *)
| ARequest (tid : nat) (ip_entry : string)   (* _send: address, then the GET *)
| AResponse (tid : nat) (r : outcome) (now : Q)  (* the GET ends *)
| AFinally (tid : nat)                       (* _send: finally, re-arm *)
| AShutdown                                  (* shutdown_sender *)
| AVerify (ip_entry : string) (r : outcome). (* verificar_conexion *)

Definition step (w : World) (a : action) : World :=
  match a with
  | AQueueStore cmd => with_sender (queue_store cmd (sender w)) w
  | APump now => perform (_pump now (sender w)) w
  | ATake tid =>
      match nth_error (threads w) tid with
      | Some TStarted =>
          let '(s, taken) := _send_take (sender w) in
          with_thread tid
            (match taken with Some c => TTaken c | None => TDone end)
            (with_sender s w)
      | _ => w
      end
  | ARequest tid ip_entry =>
      match nth_error (threads w) tid with
      | Some (TTaken cmd_local) =>
          match _send_url ip_entry cmd_local with
          | Some url => perform [EGet url] (with_thread tid (TInCall url) w)
          | None =>
              let '(s, es) := _register_fail (sender w) in
              perform es (with_thread tid TFinally (with_sender s w))
          end
      | _ => w
      end
  | AResponse tid r now =>
      match nth_error (threads w) tid with
      | Some (TInCall _) =>
          let '(s, es) := _send_result r now (sender w) in
          perform es (with_thread tid TFinally (with_sender s w))
      | _ => w
      end
  | AFinally tid =>
      match nth_error (threads w) tid with
      | Some TFinally =>
          let '(s, es) := _send_finally (sender w) in
          perform es (with_thread tid TDone (with_sender s w))
      | _ => w
      end
  | AShutdown => with_sender (shutdown_sender (sender w)) w
  | AVerify ip_entry r =>
      with_globals (verificar_conexion ip_entry r (globals w)) w
  end.

Definition run (tr : list action) (w : World) : World := fold_left step tr w.

(** [queue(cmd)] with the clock reading of its [_pump]. *)
Definition queue (cmd : string) (now : Q) : list action :=
  [AQueueStore cmd; APump now].

(** The URLs of the GETs in a log, oldest first. *)
Fixpoint gets (l : list effect) : list string :=
  match l with
  | EGet url :: r => url :: gets r
  | _ :: r => gets r
  | [] => []
  end.

Fixpoint hard_disconnects (l : list effect) : list string :=
  match l with
  | EHardDisconnect m :: r => m :: hard_disconnects r
  | _ :: r => hard_disconnects r
  | [] => []
  end.

Fixpoint soft_errors (l : list effect) : list string :=
  match l with
  | ESoftError m :: r => m :: soft_errors r
  | _ :: r => soft_errors r
  | [] => []
  end.

Fixpoint retries (l : list effect) : list Z :=
  match l with
  | EAfter ms :: r => ms :: retries r
  | _ :: r => retries r
  | [] => []
  end.

(** The calls of [requests.get] that have started and not ended. *)
Fixpoint in_flight (ts : list thread) : nat :=
  match ts with
  | TInCall _ :: r => S (in_flight r)
  | _ :: r => in_flight r
  | [] => O
  end.

(* ------------------------------------------------------------------ *)
(** ** Floats and [float(str)]

    A finite float is kept as the rational it denotes: the conversion of a
    literal or of an [int] rounds to the nearest binary64 number, ties to
    even, and overflows to infinity. *)

Inductive pyfloat :=
| FFin (v : Q)
| FInf (negative : bool)
| FNan.

(** An exception of class [Exception] leaves the computation. *)
Inductive raising (A : Type) :=
| Ret (a : A)
| Exc.
Arguments Ret {A} a.
Arguments Exc {A}.

Definition bind {A B} (c : raising A) (k : A -> raising B) : raising B :=
  match c with
  | Ret a => k a
  | Exc => Exc
  end.

(** [try: body / except Exception: handler] *)
Definition try_except {A} (body handler : raising A) : raising A :=
  match body with
  | Ret a => Ret a
  | Exc => handler
  end.

Notation "x <- c ;; k" := (bind c (fun x => k))
  (at level 61, c at next level, right associativity).

(** The least magnitude that rounds to an infinite binary64. *)
Definition float_overflow : Z := 2 ^ 1024 - 2 ^ 970.

(** [floor (log2 (n / d))] *)
Definition floor_log2 (n d : positive) : Z :=
  let k := Z.log2 (Zpos n) - Z.log2 (Zpos d) in
  if Zpos d * 2 ^ Z.max 0 k <=? Zpos n * 2 ^ Z.max 0 (- k) then k
  else k - 1.

(** [m * 2^e] *)
Definition scale2 (m e : Z) : Q :=
  if 0 <=? e then inject_Z (m * 2 ^ e)
  else m # (Z.to_pos (2 ^ (- e))).

(** The binary64 number nearest to [n / d], ties to even: 53 significant
    bits, the exponent of the last one at least -1074 (below, the
    subnormal numbers and zero). *)
Definition binary64_pos (n d : positive) : Q :=
  let e := Z.max (floor_log2 n d - 52) (-1074) in
  let m := round_half_even
             (if 0 <=? e then Zpos n # (d * Z.to_pos (2 ^ e))
              else (Zpos n * 2 ^ (- e)) # d) in
  scale2 m e.

(** Rounding to binary64 of a rational below the overflow threshold: what
    one operation on floats, and the reading of a literal, keep of the
    exact result. *)
Definition binary64 (v : Q) : Q :=
  match Qnum v with
  | Z0 => 0
  | Zpos n => binary64_pos n (Qden v)
  | Zneg n => - binary64_pos n (Qden v)
  end.

Definition float_of_Q (v : Q) : pyfloat :=
  if Qle_bool (inject_Z float_overflow) (Qabs v)
  then FInf (negb (Qle_bool 0 v))
  else FFin (Qred (binary64 v)).

Definition is_digit (c : ascii) : bool :=
  ((48 <=? code c) && (code c <=? 57))%N.

(** The longest prefix of digits, and what follows it. *)
Fixpoint span_digits (s : string) : string * string :=
  match s with
  | String c r =>
      if is_digit c then let '(d, r') := span_digits r in (String c d, r')
      else (EmptyString, s)
  | EmptyString => (EmptyString, EmptyString)
  end.

Fixpoint digits_value (acc : Z) (s : string) : Z :=
  match s with
  | String c r => digits_value (10 * acc + (Z.of_N (code c) - 48)) r
  | EmptyString => acc
  end.

(** [m * 10^e] *)
Definition scale10 (m e : Z) : Q :=
  if 0 <=? e then inject_Z (m * 10 ^ e)
  else m # (Z.to_pos (10 ^ (- e))).

(** An optional sign: its effect and what follows it. *)
Definition scan_sign (s : string) : bool * string :=
  match s with
  | String c r =>
      if (code c =? 45)%N then (true, r)
      else if (code c =? 43)%N then (false, r)
      else (false, s)
  | EmptyString => (false, s)
  end.

Definition to_lower (c : ascii) : ascii :=
  let n := code c in
  if ((65 <=? n) && (n <=? 90)
      || (192 <=? n) && (n <=? 222) && negb (n =? 215))%N
  then ascii_of_N (n + 32) else c.

(** [s.lower()] on code points below 256. *)
Fixpoint lower (s : string) : string :=
  match s with
  | String c r => String (to_lower c) (lower r)
  | EmptyString => EmptyString
  end.

(** [s] without the prefix [p], compared without regard to case ([p] being
    in lower case). *)
Fixpoint after_prefix_nocase (p s : string) : option string :=
  match p, s with
  | EmptyString, _ => Some s
  | String a p', String c r =>
      if Ascii.eqb a (to_lower c) then after_prefix_nocase p' r else None
  | String _ _, EmptyString => None
  end.

(** The decimal grammar of [float]: digits with an optional point, at least
    one digit in all, then an exponent if it has a digit.  The result is the
    magnitude and the unread rest. *)
Definition scan_decimal (s : string) : option (Q * string) :=
  let '(ip, r1) := span_digits s in
  let '(fp, r2) :=
    match r1 with
    | String c r => if (code c =? 46)%N then span_digits r else (EmptyString, r1)
    | EmptyString => (EmptyString, r1)
    end in
  if negb (truthy ip) && negb (truthy fp) then None
  else
    let m := digits_value 0 (ip ++ fp) in
    let '(e, r3) :=
      match r2 with
      | String c r =>
          if ((code c =? 101) || (code c =? 69))%N then
            let '(neg, r') := scan_sign r in
            let '(ep, r'') := span_digits r' in
            if truthy ep
            then (if neg then - digits_value 0 ep else digits_value 0 ep, r'')
            else (0, r2)
          else (0, r2)
      | EmptyString => (0, r2)
      end in
    Some (scale10 m (e - Z.of_nat (String.length fp)), r3).

(** [inf], [infinity] or [nan], in any case. *)
Definition scan_inf_nan (neg : bool) (s : string) : option (pyfloat * string) :=
  match after_prefix_nocase "inf" s with
  | Some r =>
      match after_prefix_nocase "inity" r with
      | Some r' => Some (FInf neg, r')
      | None => Some (FInf neg, r)
      end
  | None =>
      match after_prefix_nocase "nan" s with
      | Some r => Some (FNan, r)
      | None => None
      end
  end.

(** A float literal that must fill the whole of [s]. *)
Definition float_literal (s : string) : raising pyfloat :=
  let '(neg, r) := scan_sign s in
  match scan_decimal r with
  | Some (v, EmptyString) => Ret (float_of_Q (if neg then - v else v)%Q)
  | Some (_, String _ _) => Exc
  | None =>
      match scan_inf_nan neg r with
      | Some (x, EmptyString) => Ret x
      | _ => Exc
      end
  end.

(** Underscores may stand between two digits only; [prev] is the character
    before [s] (NUL at the start).  The result is [s] without them. *)
Fixpoint drop_underscores (prev : ascii) (s : string) : option string :=
  match s with
  | String c r =>
      if (code c =? 95)%N then
        if is_digit prev then drop_underscores c r else None
      else if (code prev =? 95)%N && negb (is_digit c) then None
      else match drop_underscores c r with
           | Some r' => Some (String c r')
           | None => None
           end
  | EmptyString => if (code prev =? 95)%N then None else Some EmptyString
  end.

(** White space for [float]: what is white space above 126 becomes a blank,
    anything else there a question mark. *)
Definition to_ascii_space (c : ascii) : ascii :=
  if (code c <? 127)%N then c
  else if is_space c then " "%char else "?"%char.

Fixpoint map_string (f : ascii -> ascii) (s : string) : string :=
  match s with
  | String c r => String (f c) (map_string f r)
  | EmptyString => EmptyString
  end.

Definition is_c_space (c : ascii) : bool :=
  ((9 <=? code c) && (code c <=? 13) || (code c =? 32))%N.

Fixpoint c_lstrip (s : string) : string :=
  match s with
  | String c r => if is_c_space c then c_lstrip r else s
  | EmptyString => EmptyString
  end.

Fixpoint c_rstrip (s : string) : string :=
  match s with
  | String c r =>
      match c_rstrip r with
      | EmptyString => if is_c_space c then EmptyString else String c EmptyString
      | r' => String c r'
      end
  | EmptyString => EmptyString
  end.

(** [float(s)] for a [str]; [Exc] is its [ValueError]. *)
Definition float_of_str (s : string) : raising pyfloat :=
  match drop_underscores "000"%char (map_string to_ascii_space s) with
  | Some s' => float_literal (c_rstrip (c_lstrip s'))
  | None => Exc
  end.

(** [s.replace(old, new)] for one-character [old] and [new]. *)
Definition replace (old new : ascii) (s : string) : string :=
  map_string (fun c => if Ascii.eqb c old then new else c) s.

(* ------------------------------------------------------------------ *)
(** ** [r.json()]: the values and the decoder of the [json] module

    A decoded string is a list of code points, since an escape may denote
    any of them.  A [dict] keeps its items in the order of the text; a
    lookup reads the last item of a key, as later items overwrite earlier
    ones.  The recursion limit of the interpreter is met at a depth that
    depends on the calls under way: the room left is an argument. *)

Inductive pyval :=
| VNone
| VBool (b : bool)
| VInt (n : Z)
| VFloat (x : pyfloat)
| VStr (s : list N)
| VList (l : list pyval)
| VDict (items : list (list N * pyval)).

(** The code points of a literal. *)
Fixpoint codes (s : string) : list N :=
  match s with
  | String c r => code c :: codes r
  | EmptyString => []
  end.

Fixpoint codes_eqb (a b : list N) : bool :=
  match a, b with
  | [], [] => true
  | x :: a', y :: b' => (x =? y)%N && codes_eqb a' b'
  | _, _ => false
  end.

(** [d[key]] when [key in d]. *)
Fixpoint dict_get (key : list N) (items : list (list N * pyval))
  : option pyval :=
  match items with
  | (k, v) :: rest =>
      match dict_get key rest with
      | Some v' => Some v'
      | None => if codes_eqb k key then Some v else None
      end
  | [] => None
  end.

Definition hex_val (c : ascii) : option N :=
  let n := code c in
  if ((48 <=? n) && (n <=? 57))%N then Some (n - 48)%N
  else if ((97 <=? n) && (n <=? 102))%N then Some (n - 87)%N
  else if ((65 <=? n) && (n <=? 70))%N then Some (n - 55)%N
  else None.

Definition hex4 (a b c d : ascii) : option N :=
  match hex_val a, hex_val b, hex_val c, hex_val d with
  | Some x, Some y, Some z, Some t => Some (((x * 16 + y) * 16 + z) * 16 + t)%N
  | _, _, _, _ => None
  end.

(** The one-letter escapes. *)
Definition unescape (c : ascii) : option N :=
  let n := code c in
  if ((n =? 34) || (n =? 92) || (n =? 47))%N then Some n
  else if (n =? 98)%N then Some 8%N
  else if (n =? 102)%N then Some 12%N
  else if (n =? 110)%N then Some 10%N
  else if (n =? 114)%N then Some 13%N
  else if (n =? 116)%N then Some 9%N
  else None.

Definition is_high_surrogate (u : N) : bool :=
  ((55296 <=? u) && (u <=? 56319))%N.
Definition is_low_surrogate (u : N) : bool :=
  ((56320 <=? u) && (u <=? 57343))%N.
Definition join_surrogates (u u2 : N) : N :=
  (65536 + ((u - 55296) * 1024 + (u2 - 56320)))%N.

(** The body of a string, from after its opening quote to its closing one
    (strict mode: no raw control character). *)
Fixpoint scan_string (s : string) (acc : list N) : option (list N * string) :=
  match s with
  | EmptyString => None
  | String c r =>
      if (code c =? 34)%N then Some (rev acc, r)
      else if (code c =? 92)%N then
        match r with
        | String e r1 =>
            if (code e =? 117)%N then
              match r1 with
              | String h1 (String h2 (String h3 (String h4 r2))) =>
                  match hex4 h1 h2 h3 h4 with
                  | Some u =>
                      if is_high_surrogate u then
                        match r2 with
                        | String b (String e2 (String g1 (String g2
                            (String g3 (String g4 r3))))) =>
                            if ((code b =? 92) && (code e2 =? 117))%N then
                              match hex4 g1 g2 g3 g4 with
                              | Some u2 =>
                                  if is_low_surrogate u2
                                  then scan_string r3 (join_surrogates u u2 :: acc)
                                  else scan_string r2 (u :: acc)
                              | None => None
                              end
                            else scan_string r2 (u :: acc)
                        | _ => scan_string r2 (u :: acc)
                        end
                      else scan_string r2 (u :: acc)
                  | None => None
                  end
              | _ => None
              end
            else
              match unescape e with
              | Some n => scan_string r1 (n :: acc)
              | None => None
              end
        | EmptyString => None
        end
      else if (code c <? 32)%N then None
      else scan_string r (code c :: acc)
  end.

Definition is_json_space (c : ascii) : bool :=
  ((code c =? 32) || (code c =? 9) || (code c =? 10) || (code c =? 13))%N.

Fixpoint skip_ws (s : string) : string :=
  match s with
  | String c r => if is_json_space c then skip_ws r else s
  | EmptyString => EmptyString
  end.

Fixpoint after_prefix (p s : string) : option string :=
  match p, s with
  | EmptyString, _ => Some s
  | String a p', String c r =>
      if Ascii.eqb a c then after_prefix p' r else None
  | String _ _, EmptyString => None
  end.

(** [sys.get_int_max_str_digits()]: the digits [int] reads of a string. *)
Definition INT_MAX_STR_DIGITS : nat := 4300.

(** A number: an optional minus, then a zero or a digit from 1 to 9 with the
    digits after it; a fraction if a digit follows the point; an exponent if
    it has a digit.  An [int] without fraction and exponent, else a [float].
    [None] is no number here, and also the [ValueError] of an [int] of more
    than 4300 digits: both end [json.loads] with an exception. *)
Definition scan_number (s : string) : option (pyval * string) :=
  let '(neg, r0) :=
    match s with
    | String c r => if (code c =? 45)%N then (true, r) else (false, s)
    | EmptyString => (false, s)
    end in
  match r0 with
  | String c r =>
      let int_part :=
        if ((49 <=? code c) && (code c <=? 57))%N then
          let '(d, r') := span_digits r in Some (String c d, r')
        else if (code c =? 48)%N then Some (String c EmptyString, r)
        else None in
      match int_part with
      | None => None
      | Some (ip, r1) =>
          let '(fp, r2) :=
            match r1 with
            | String dot r' =>
                if (code dot =? 46)%N then
                  let '(d, r'') := span_digits r' in
                  if truthy d then (d, r'') else (EmptyString, r1)
                else (EmptyString, r1)
            | EmptyString => (EmptyString, r1)
            end in
          let '(ep, r3) :=
            match r2 with
            | String e r' =>
                if ((code e =? 101) || (code e =? 69))%N then
                  let '(eneg, r'') := scan_sign r' in
                  let '(d, r''') := span_digits r'' in
                  if truthy d
                  then (Some (if eneg then - digits_value 0 d
                              else digits_value 0 d), r''')
                  else (None, r2)
                else (None, r2)
            | EmptyString => (None, r2)
            end in
          let sign := if neg then -1 else 1 in
          match truthy fp, ep with
          | false, None =>
              if (INT_MAX_STR_DIGITS <? String.length ip)%nat then None
              else Some (VInt (sign * digits_value 0 ip), r3)
          | _, _ =>
              let e := match ep with Some e => e | None => 0 end in
              let m := sign * digits_value 0 (ip ++ fp) in
              Some (VFloat (float_of_Q
                              (scale10 m (e - Z.of_nat (String.length fp)))),
                    r3)
          end
      end
  | EmptyString => None
  end.

(** A value that is neither a string, an object nor an array. *)
Definition scan_atom (s : string) : option (pyval * string) :=
  match after_prefix "null" s with
  | Some r => Some (VNone, r)
  | None =>
  match after_prefix "true" s with
  | Some r => Some (VBool true, r)
  | None =>
  match after_prefix "false" s with
  | Some r => Some (VBool false, r)
  | None =>
  match after_prefix "NaN" s with
  | Some r => Some (VFloat FNan, r)
  | None =>
  match after_prefix "Infinity" s with
  | Some r => Some (VFloat (FInf false), r)
  | None =>
  match after_prefix "-Infinity" s with
  | Some r => Some (VFloat (FInf true), r)
  | None => scan_number s
  end end end end end end.

(** What a scan of a value gives: the value and the unread rest; an error
    of syntax or of value; the [RecursionError] of a nesting deeper than the
    interpreter has room for; or not enough fuel for the recursion of this
    definition ([scan_once_never_starves] shows that the last one does not
    occur in [json_loads]). *)
Inductive scanned :=
| Found (v : pyval) (rest : string)
| Invalid
| TooDeep
| Starved.

(** [room] is the number of nested objects and arrays that the recursion
    limit of the interpreter leaves: the scanner enters a recursive call
    for each object and each array, empty or not, and for nothing else. *)
Fixpoint scan_once (fuel room : nat) (s : string) : scanned :=
  match fuel with
  | O => Starved
  | S fuel' =>
      match s with
      | EmptyString => Invalid
      | String c r =>
          if (code c =? 34)%N then
            match scan_string r [] with
            | Some (str, r') => Found (VStr str) r'
            | None => Invalid
            end
          else if (code c =? 123)%N then
            match room with
            | O => TooDeep
            | S room' =>
                match skip_ws r with
                | String c' r' =>
                    if (code c' =? 125)%N then Found (VDict []) r'
                    else parse_object fuel' room' (skip_ws r) []
                | EmptyString => parse_object fuel' room' EmptyString []
                end
            end
          else if (code c =? 91)%N then
            match room with
            | O => TooDeep
            | S room' =>
                match skip_ws r with
                | String c' r' =>
                    if (code c' =? 93)%N then Found (VList []) r'
                    else parse_array fuel' room' (skip_ws r) []
                | EmptyString => parse_array fuel' room' EmptyString []
                end
            end
          else
            match scan_atom s with
            | Some (v, r') => Found v r'
            | None => Invalid
            end
      end
  end

(** The items of an object from a key on; [acc] holds those read, last
    first. *)
with parse_object (fuel room : nat) (s : string)
  (acc : list (list N * pyval)) : scanned :=
  match fuel with
  | O => Starved
  | S fuel' =>
      match s with
      | String q r =>
          if (code q =? 34)%N then
            match scan_string r [] with
            | Some (key, r1) =>
                match skip_ws r1 with
                | String colon r2 =>
                    if (code colon =? 58)%N then
                      match scan_once fuel' room (skip_ws r2) with
                      | Found val r3 =>
                          match skip_ws r3 with
                          | String d r4 =>
                              if (code d =? 125)%N
                              then Found (VDict (rev ((key, val) :: acc))) r4
                              else if (code d =? 44)%N
                              then parse_object fuel' room (skip_ws r4)
                                     ((key, val) :: acc)
                              else Invalid
                          | EmptyString => Invalid
                          end
                      | Invalid => Invalid
                      | TooDeep => TooDeep
                      | Starved => Starved
                      end
                    else Invalid
                | EmptyString => Invalid
                end
            | None => Invalid
            end
          else Invalid
      | EmptyString => Invalid
      end
  end

(** The elements of an array from a value on. *)
with parse_array (fuel room : nat) (s : string) (acc : list pyval)
  : scanned :=
  match fuel with
  | O => Starved
  | S fuel' =>
      match scan_once fuel' room s with
      | Found val r1 =>
          match skip_ws r1 with
          | String d r2 =>
              if (code d =? 93)%N then Found (VList (rev (val :: acc))) r2
              else if (code d =? 44)%N
              then parse_array fuel' room (skip_ws r2) (val :: acc)
              else Invalid
          | EmptyString => Invalid
          end
      | Invalid => Invalid
      | TooDeep => TooDeep
      | Starved => Starved
      end
  end.

Definition loads_fuel (s : string) : nat := 2 * String.length s + 2.

(** [json.loads(s)] with room for [room] nested objects and arrays; [Exc]
    is its [JSONDecodeError], the [ValueError] of an [int] too long, or the
    [RecursionError]. *)
Definition json_loads (room : nat) (s : string) : raising pyval :=
  match scan_once (loads_fuel s) room (skip_ws s) with
  | Found v r =>
      match skip_ws r with
      | EmptyString => Ret v
      | String _ _ => Exc
      end
  | Invalid => Exc
  | TooDeep => Exc
  | Starved => Exc
  end.

(** [str.isspace] on a code point above 127 (Unicode 14.0). *)
Definition is_unicode_space (n : N) : bool :=
  ((n =? 133) || (n =? 160) || (n =? 5760)
   || (8192 <=? n) && (n <=? 8202)
   || (n =? 8232) || (n =? 8233) || (n =? 8239) || (n =? 8287)
   || (n =? 12288))%N.

(** The digit zero of each decimal number system above 127 (category Nd,
    Unicode 14.0); the digits one to nine follow each. *)
Definition decimal_zeros : list N :=
  [1632; 1776; 1984; 2406; 2534; 2662; 2790; 2918; 3046; 3174; 3302; 3430;
   3558; 3664; 3792; 3872; 4160; 4240; 6112; 6160; 6470; 6608; 6784; 6800;
   6992; 7088; 7232; 7248; 42528; 43216; 43264; 43472; 43504; 43600; 44016;
   65296; 66720; 68912; 69734; 69872; 69942; 70096; 70384; 70736; 70864;
   71248; 71360; 71472; 71904; 72016; 72784; 73040; 73120; 92768; 92864;
   93008; 120782; 120792; 120802; 120812; 120822; 123200; 123632; 125264;
   130032]%N.

(** [unicodedata.decimal] of a code point above 127. *)
Definition unicode_decimal (n : N) : option N :=
  match find (fun z => (z <=? n) && (n <? z + 10))%N decimal_zeros with
  | Some z => Some (n - z)%N
  | None => None
  end.

(** What [float] reads of a code point of a [str]: itself up to 127, a
    blank for white space, the ASCII digit for a decimal digit, a question
    mark for anything else. *)
Definition float_char (n : N) : ascii :=
  if (n <? 128)%N then ascii_of_N n
  else if is_unicode_space n then " "%char
  else match unicode_decimal n with
       | Some d => ascii_of_N (48 + d)
       | None => "?"%char
       end.

Fixpoint float_chars (l : list N) : string :=
  match l with
  | n :: r => String (float_char n) (float_chars r)
  | [] => EmptyString
  end.

(** [float(s)] for a decoded string, of any code points. *)
Definition float_of_codes (l : list N) : raising pyfloat :=
  match drop_underscores "000"%char (float_chars l) with
  | Some s' => float_literal (c_rstrip (c_lstrip s'))
  | None => Exc
  end.

(** [float(x)] for a decoded value; [Exc] is its [TypeError], [ValueError]
    or [OverflowError]. *)
Definition py_float (x : pyval) : raising pyfloat :=
  match x with
  | VFloat f => Ret f
  | VInt n =>
      if Z.abs n <? float_overflow then Ret (float_of_Q (inject_Z n))
      else Exc
  | VBool b => Ret (FFin (if b then 1 else 0))
  | VStr s => float_of_codes s
  | VNone | VList _ | VDict _ => Exc
  end.

(* ------------------------------------------------------------------ *)
(** ** The distance parser *)

(** What the parser reads of a [requests.Response]. *)
Record Response := mkResponse {
  json : raising pyval;       (* r.json() *)
  text : string               (* r.text *)
}.

(** The response object of a body, decoded with room for [room] nested
    objects and arrays. *)
Definition response_within (room : nat) (body : string) : Response :=
  {| json := json_loads room body; text := body |}.

(** The response object of a body when the recursion limit is out of
    reach: the nesting of a body is less than its length. *)
Definition response_of (body : string) : Response :=
  response_within (S (String.length body)) body.

(** [_parse_distance_response]: [Ret None] is the returned [None]. *)
Definition _parse_distance_response (r : Response) : raising (option pyfloat) :=
  try_except
    (j <- json r ;;
     match j with
     | VDict items =>
         match dict_get (codes "cm") items with
         | Some v => x <- py_float v ;; Ret (Some x)
         | None => Ret None
         end
     | _ => Ret None
     end)
    (let txt := strip (text r) in
     if truthy txt && negb (String.eqb (lower txt) "null") then
       let txt := replace ","%char "."%char txt in
       try_except (x <- float_of_str txt ;; Ret (Some x)) (Ret None)
     else Ret None).

(* ------------------------------------------------------------------ *)
(** ** The distance history *)

(** [collections.deque(maxlen=...).append(x)] *)
Definition deque_append {A} (maxlen : nat) (d : list A) (x : A) : list A :=
  let d' := (d ++ [x])%list in
  if (maxlen <? List.length d')%nat then tl d' else d'.

(** [d[-1] if len(d) > 0 else None] *)
Definition deque_last {A} (d : list (option A)) : option A := last d None.

(** [append_dist], on the history it updates. *)
Definition append_dist (dist_history : list (option pyfloat))
  (d : option pyfloat) : list (option pyfloat) :=
  deque_append DIST_HISTORY_LEN dist_history d.

(** The history after the calls [append_dist(d)] for the [d] of [ds], in
    order. *)
Definition append_dists (dist_history : list (option pyfloat))
  (ds : list (option pyfloat)) : list (option pyfloat) :=
  fold_left append_dist ds dist_history.

(* ------------------------------------------------------------------ *)
(** ** Schedules and observations used in the statements *)

Definition command_url (ip cmd : string) : string :=
  ("http://" ++ ip ++ "/" ++ cmd)%string.

(** One send run without interleaving: [queue(cmd)] at [t], the thread
    [tid] it starts, the address [ip_entry] it reads, the end [r] of its GET
    at [t']. *)
Definition send_round (tid : nat) (cmd : string) (t : Q) (ip_entry : string)
  (r : outcome) (t' : Q) : list action :=
  (queue cmd t
   ++ [ATake tid; ARequest tid ip_entry; AResponse tid r t'; AFinally tid])%list.

Record round := mkRound {
  r_cmd : string; r_at : Q; r_ip : string; r_end : outcome; r_end_at : Q
}.

Definition do_round (w : World) (x : round) : World :=
  run (send_round (List.length (threads w)) (r_cmd x) (r_at x) (r_ip x)
         (r_end x) (r_end_at x)) w.

Definition do_rounds (rs : list round) (w : World) : World :=
  fold_left do_round rs w.

(** A send that fails on the network: the rate limit has passed, the
    address is not blank, the answer is not a 200. *)
Definition failing (since : Q) (x : round) : Prop :=
  (inject_Z RATE_LIMIT_MS <= r_at x - since)%Q
  /\ truthy (strip (r_ip x)) = true
  /\ r_end x <> Status 200.

(** The commands held by threads that have taken one and not yet called
    [requests.get]. *)
Fixpoint taken_cmds (ts : list thread) : list string :=
  match ts with
  | TTaken c :: r => c :: taken_cmds r
  | _ :: r => taken_cmds r
  | [] => []
  end.

(** A thread that has left its [try] block: no send of its own is ahead. *)
Definition settled (t : thread) : Prop :=
  match t with
  | TFinally | TDone => True
  | _ => False
  end.

(** A step inside the rate-limit window that began at [since]: any step but
    a run of [_pump] after the window has passed, and but a shutdown. *)
Definition in_window (since : Q) (a : action) : Prop :=
  match a with
  | APump now => (now - since < inject_Z RATE_LIMIT_MS)%Q
  | AShutdown => False
  | _ => True
  end.

Definition no_submit (a : action) : Prop :=
  match a with
  | AQueueStore _ => False
  | _ => True
  end.

Definition not_verify (a : action) : Prop :=
  match a with
  | AVerify _ _ => False
  | _ => True
  end.

(** The pending command after the submissions of [tr], [p] being the one
    before. *)
Fixpoint last_submitted (tr : list action) (p : option string)
  : option string :=
  match tr with
  | AQueueStore c :: r => last_submitted r (Some c)
  | _ :: r => last_submitted r p
  | [] => p
  end.

(** What one step other than a submission does to the pending command, to
    the commands taken and to the GETs made: nothing (but for a pending
    command dropped), the pending command taken by a thread, or a taken
    command sent or given up by its thread. *)
Inductive transition (w w' : World) : Prop :=
| T_silent :
    taken_cmds (threads w') = taken_cmds (threads w) ->
    gets (log w') = gets (log w) ->
    pending (sender w') = pending (sender w)
    \/ pending (sender w') = None ->
    transition w w'
| T_take (c : string) (l1 l2 : list string) :
    shutdown (sender w) = false ->
    pending (sender w) = Some c ->
    pending (sender w') = None ->
    taken_cmds (threads w) = (l1 ++ l2)%list ->
    taken_cmds (threads w') = (l1 ++ c :: l2)%list ->
    gets (log w') = gets (log w) ->
    transition w w'
| T_request (c : string) (l1 l2 : list string) :
    taken_cmds (threads w) = (l1 ++ c :: l2)%list ->
    taken_cmds (threads w') = (l1 ++ l2)%list ->
    pending (sender w') = pending (sender w) ->
    gets (log w') = gets (log w)
    \/ (exists ip, truthy ip = true
                   /\ gets (log w') = (gets (log w) ++ [command_url ip c])%list) ->
    transition w w'.

(** The submissions of a window have merged into [p0], [g0] being the GETs
    made before: [p0] is pending, or a thread has taken it, or it has been
    sent or dropped. *)
Definition coalesced (p0 : option string) (g0 : list string) (w : World)
  : Prop :=
  (pending (sender w) = p0 /\ taken_cmds (threads w) = []
   /\ gets (log w) = g0)
  \/ (exists c, p0 = Some c /\ pending (sender w) = None
                /\ taken_cmds (threads w) = [c] /\ gets (log w) = g0)
  \/ (pending (sender w) = None /\ taken_cmds (threads w) = []
      /\ (gets (log w) = g0
          \/ exists c ip, p0 = Some c /\ truthy ip = true
                          /\ gets (log w) = (g0 ++ [command_url ip c])%list)).

(** [n] sends in a row that all time out, one second apart. *)
Definition timed_out_sends (n : nat) : list round :=
  map (fun i => mkRound "adelante" (inject_Z (1000 * Z.of_nat i))
                  "192.168.0.101" Raises
                  (inject_Z (1000 * Z.of_nat i + 1500)))
      (seq 1 n).

(** The scenario of the specification: the last send ended at 1040; two
    submissions follow 0 and 10 ms later; their two timers fire when the
    window has passed.  One GET is made for the lot, with the second
    command. *)
Definition window_start : World :=
  run (send_round 0 "adelante" 1000 "192.168.0.101" (Status 200) 1040)
    initial_world.

Definition two_submissions : list action :=
  (queue "adelante" 1040 ++ queue "detener" 1050)%list.

Definition timers_fire : list action :=
  [APump 1200; APump 1210; ATake 1%nat; ATake 2%nat;
   ARequest 1%nat "192.168.0.101"; AResponse 1%nat (Status 200) 1230;
   AFinally 1%nat; APump 1230; APump 1390].

(** Two submissions before the thread started for the first has run, and a
    third during the GET of that thread: a second thread has been started,
    and both send. *)
Definition racing_sends : list action :=
  (queue "adelante" 1000 ++ queue "atras" 1001
   ++ [ATake 0%nat; ARequest 0%nat "192.168.0.101"]
   ++ queue "detener" 1002
   ++ [ATake 1%nat; ARequest 1%nat "192.168.0.101"])%list.

(** Two timers of one window fire before the thread of the first has run:
    the second thread finds nothing pending and clears [inflight] while the
    GET of the first is under way. *)
Definition racing_timers : list action :=
  (two_submissions
   ++ [APump 1200; APump 1210; ATake 1%nat;
       ARequest 1%nat "192.168.0.101"; ATake 2%nat])%list.

(** Three submissions before the thread started for the first has run:
    three threads are started.  The first takes the command and sends it,
    the answer comes at 1040; the two others have not run yet. *)
Definition stale_threads : list action :=
  (queue "adelante" 1000 ++ queue "adelante" 1001 ++ queue "adelante" 1002
   ++ [ATake 0%nat; ARequest 0%nat "192.168.0.101";
       AResponse 0%nat (Status 200) 1040; AFinally 0%nat])%list.

(** Two submissions inside the window that follows, 10 and 20 ms after the
    answer; each is taken by one of the threads left over, which sends it
    at once. *)
Definition window_race : list action :=
  (queue "girar_derecha" 1050
   ++ [ATake 1%nat; ARequest 1%nat "192.168.0.101"]
   ++ queue "detener" 1060
   ++ [ATake 2%nat; ARequest 2%nat "192.168.0.101"])%list.



(** The body of an object with a numeric [cm] field. *)
Definition cm_body : string :=
  let q := String "034"%char EmptyString in
  ("{" ++ q ++ "cm" ++ q ++ ": 12.5}")%string.

(* ------------------------------------------------------------------ *)
(** ** More schedules of the dispatcher *)

(** A send that the endpoint acknowledges: the rate limit has passed, the
    address is not blank, the answer is a 200. *)
Definition succeeding (since : Q) (x : round) : Prop :=
  (inject_Z RATE_LIMIT_MS <= r_at x - since)%Q
  /\ truthy (strip (r_ip x)) = true
  /\ r_end x = Status 200.

(** A run of [_pump] whose thread, if it starts one, reaches its first
    critical section before anything else happens. *)
Definition prompt_pump (now : Q) (w : World) : World :=
  step (step w (APump now)) (ATake (List.length (threads w))).

(** The steps with every run of [_pump] a prompt one. *)
Definition step_prompt (w : World) (a : action) : World :=
  match a with
  | APump now => prompt_pump now w
  | _ => step w a
  end.

Definition run_prompt (tr : list action) (w : World) : World :=
  fold_left step_prompt tr w.

(** The threads between the taking of a command and the end of their
    [finally] block. *)
Fixpoint busy (ts : list thread) : nat :=
  match ts with
  | (TTaken _ | TInCall _ | TFinally) :: r => S (busy r)
  | _ :: r => busy r
  | [] => O
  end.

(** The threads started that have not run yet. *)
Fixpoint waiting (ts : list thread) : nat :=
  match ts with
  | TStarted :: r => S (waiting r)
  | _ :: r => waiting r
  | [] => O
  end.

(** No thread waits to run, at most one is between taking a command and the
    end of its [finally] block, and [inflight] is set while one is. *)
Definition one_at_a_time (w : World) : Prop :=
  waiting (threads w) = 0%nat
  /\ (busy (threads w) <= 1)%nat
  /\ (busy (threads w) = 1%nat -> inflight (sender w) = true).

(* ------------------------------------------------------------------ *)
(** ** The joystick

    A pin is [None] when it is not set up; the reading of a pin is [None]
    or a float. *)

(** The default of [dead]. *)
Definition DEAD : Q := 2 # 25.



(** What a joystick step calls, in order. *)
Inductive joy_call :=
| JQueue (cmd : string)       (* sender.queue(cmd) *)
| JSetPwm (pwm : Z)           (* pwm_var.set(pwm) *)
| JSendPwm (pwm : Z).         (* _send_pwm(pwm) *)

(** [_norm01_to_sym] as the interpreter computes it: the reading, the
    literals and the result of every subtraction, addition, product and
    quotient are binary64 numbers; [max], [min], [abs] and the comparisons
    are exact on them. *)
Definition _norm01_to_sym64 (v : option Q) (dead : Q) : Q :=
  match v with
  | None => 0
  | Some v =>
      let dead := binary64 dead in
      let v := Qmax 0 (Qmin 1 (binary64 v)) in
      let c := binary64 (binary64 (v - binary64 (1 # 2)) * 2) in
      if Qlt_le_dec (Qabs c) dead then 0
      else
        let c := if Qlt_le_dec 0 c
                 then binary64 (binary64 (c - dead) / binary64 (1 - dead))
                 else binary64 (binary64 (c + dead) / binary64 (1 - dead)) in
        Qmax (-1) (Qmin 1 c)
  end.

(** [_joy_arcade_step], [x] and [y] being what [x1_pin.read()] and
    [y1_pin.read()] return; the arithmetic is that of binary64. *)
Definition _joy_arcade_step (x1_pin y1_pin : option (option Q))
  : list joy_call :=
  match x1_pin, y1_pin with
  | Some x, Some y =>
      let nx := _norm01_to_sym64 x DEAD in
      let ny := _norm01_to_sym64 y DEAD in
      let mag := Qmax (Qabs nx) (Qabs ny) in
      if Qlt_le_dec mag (binary64 (1 # 20)) then []
      else
        let cmd :=
          (match Qlt_le_dec (Qabs ny) (Qabs nx) with
           | right _ =>            (* abs(ny) >= abs(nx) *)
               if Qlt_le_dec 0 ny then "adelante" else "atras"
           | left _ =>
               if Qlt_le_dec 0 nx then "girar_derecha" else "girar_izquierda"
           end)%string in
        let pwm :=
          py_int (binary64 (120 + binary64 (inject_Z (255 - 120) * mag))) in
        ((if truthy cmd then [JQueue cmd] else [])
         ++ [JSetPwm pwm; JSendPwm pwm])%list
  | _, _ => []
  end.

(* ------------------------------------------------------------------ *)
(** ** Timers of the event loop and the two pollers *)

Inductive job_fn := JobPollUltra | JobJoyPoll.

Definition job_fn_eqb (a b : job_fn) : bool :=
  match a, b with
  | JobPollUltra, JobPollUltra | JobJoyPoll, JobJoyPoll => true
  | _, _ => false
  end.

Record job := mkJob { job_id : nat; job_ms : Z; job_run : job_fn }.

(** The timers that [root.after] has set and that have neither fired nor
    been cancelled, and the number of the next one. *)
Record Tk := mkTk { jobs : list job; next_job : nat }.

(** [root.after(ms, fn)]: the new state and the identifier returned. *)
Definition root_after (ms : Z) (fn : job_fn) (tk : Tk) : Tk * nat :=
  ({| jobs := jobs tk ++ [mkJob (next_job tk) ms fn];
      next_job := S (next_job tk) |},
   next_job tk).

(** [root.after_cancel(id)]; also what firing does to the timer. *)
Definition after_cancel (id : nat) (tk : Tk) : Tk :=
  {| jobs := filter (fun j => negb (job_id j =? id)%nat) (jobs tk);
     next_job := next_job tk |}.

Record Polling := mkPolling {
  tk : Tk;
  ultra_job : option nat;
  joy_job : option nat;
  dist_history : list (option pyfloat);
  last_dist : option pyfloat;
  objeto_presente : bool;
  polled : list string;            (* GETs of [_poll_ultrasonico] *)
  joy_calls : list joy_call        (* calls of the joystick steps *)
}.

Definition initial_polling : Polling :=
  {| tk := mkTk [] 0; ultra_job := None; joy_job := None;
     dist_history := []; last_dist := None; objeto_presente := false;
     polled := []; joy_calls := [] |}.

Definition set_tk (t : Tk) (p : Polling) : Polling :=
  {| tk := t; ultra_job := ultra_job p; joy_job := joy_job p;
     dist_history := dist_history p; last_dist := last_dist p;
     objeto_presente := objeto_presente p; polled := polled p;
     joy_calls := joy_calls p |}.
Definition set_ultra_job (j : option nat) (p : Polling) : Polling :=
  {| tk := tk p; ultra_job := j; joy_job := joy_job p;
     dist_history := dist_history p; last_dist := last_dist p;
     objeto_presente := objeto_presente p; polled := polled p;
     joy_calls := joy_calls p |}.
Definition set_joy_job (j : option nat) (p : Polling) : Polling :=
  {| tk := tk p; ultra_job := ultra_job p; joy_job := j;
     dist_history := dist_history p; last_dist := last_dist p;
     objeto_presente := objeto_presente p; polled := polled p;
     joy_calls := joy_calls p |}.
Definition set_dist_history (h : list (option pyfloat)) (p : Polling)
  : Polling :=
  {| tk := tk p; ultra_job := ultra_job p; joy_job := joy_job p;
     dist_history := h; last_dist := last_dist p;
     objeto_presente := objeto_presente p; polled := polled p;
     joy_calls := joy_calls p |}.
Definition set_last_dist (d : option pyfloat) (p : Polling) : Polling :=
  {| tk := tk p; ultra_job := ultra_job p; joy_job := joy_job p;
     dist_history := dist_history p; last_dist := d;
     objeto_presente := objeto_presente p; polled := polled p;
     joy_calls := joy_calls p |}.
Definition set_objeto_presente (b : bool) (p : Polling) : Polling :=
  {| tk := tk p; ultra_job := ultra_job p; joy_job := joy_job p;
     dist_history := dist_history p; last_dist := last_dist p;
     objeto_presente := b; polled := polled p;
     joy_calls := joy_calls p |}.
Definition add_polled (url : string) (p : Polling) : Polling :=
  {| tk := tk p; ultra_job := ultra_job p; joy_job := joy_job p;
     dist_history := dist_history p; last_dist := last_dist p;
     objeto_presente := objeto_presente p; polled := polled p ++ [url];
     joy_calls := joy_calls p |}.
Definition add_joy_calls (cs : list joy_call) (p : Polling) : Polling :=
  {| tk := tk p; ultra_job := ultra_job p; joy_job := joy_job p;
     dist_history := dist_history p; last_dist := last_dist p;
     objeto_presente := objeto_presente p; polled := polled p;
     joy_calls := joy_calls p ++ cs |}.

(** [d <= n] for a float [d] and an int [n]: an exact comparison of the
    binary64 number that [d] is with [n]. *)
Definition float_le_int (d : pyfloat) (n : Z) : bool :=
  match d with
  | FFin v => Qle_bool v (inject_Z n)
  | FInf negative => negative
  | FNan => false
  end.

(** How a callback of the event loop ends.  Tk reports the exception of a
    callback that raises and goes on with the next event. *)
Inductive ended := Returned | Raised.

Definition and_then (r : Polling * ended) (k : Polling -> Polling * ended)
  : Polling * ended :=
  match r with
  | (p, Returned) => k p
  | (p, Raised) => (p, Raised)
  end.

(** [ultra_job = root.after(ms, _poll_ultrasonico)] *)
Definition rearm_ultra (ms : Z) (p : Polling) : Polling :=
  let '(t, id) := root_after ms JobPollUltra (tk p) in
  set_ultra_job (Some id) (set_tk t p).

(** [joy_job = root.after(ms, _joy_poll)] *)
Definition rearm_joy (ms : Z) (p : Polling) : Polling :=
  let '(t, id) := root_after ms JobJoyPoll (tk p) in
  set_joy_job (Some id) (set_tk t p).

(** [append_dist(d)] with its drawing: the sample joins the history, then
    [draw_graph()] and [draw_radar(...)] run.  [draws k] tells how the
    [k]-th drawing call of the callback ends ([true]: it returns, [false]:
    it raises an error of Tk or of the arithmetic, which no [except] of
    the pollers names); the canvas itself is left out. *)
Definition poll_append (draws : nat -> bool) (k : nat) (d : option pyfloat)
  (p : Polling) : Polling * ended :=
  let p := set_dist_history (append_dist (dist_history p) d) p in
  if draws k && draws (S k) then (p, Returned) else (p, Raised).

(** [_poll_ultrasonico]: [g] holds the connectivity flag it reads,
    [ip_entry] the IP entry, [resp] how [requests.get] ends ([Exc]: a
    [RequestException], the only exception the function catches). *)
Definition _poll_ultrasonico (g : Globals) (ip_entry : string)
  (resp : raising Response) (draws : nat -> bool) (p : Polling)
  : Polling * ended :=
  if negb (conectado g) then
    if draws O then                                  (* draw_radar(None) *)
      and_then (poll_append draws 1 None p) (fun p =>
      (rearm_ultra ULTRA_POLL_MS p, Returned))
    else (p, Raised)
  else
    let ip := strip ip_entry in
    let p := add_polled ("http://" ++ ip ++ "/distancia")%string p in
    and_then
      match resp with
      | Ret r =>
          match _parse_distance_response r with
          | Ret (Some d) =>
              let p := set_last_dist (Some d) p in
              and_then (poll_append draws 0 (Some d) p) (fun p =>
              let threshold := 25 in
              let detect := float_le_int d threshold in
              (set_objeto_presente (if detect then true else false) p,
               Returned))
          | Ret None => poll_append draws 0 None p
          | Exc => (p, Raised)
          end
      | Exc => poll_append draws 0 None p
      end
      (fun p => (rearm_ultra ULTRA_POLL_MS p, Returned)).

Definition _start_ultra_poll (p : Polling) : Polling :=
  match ultra_job p with
  | None => rearm_ultra 40 p
  | Some _ => p
  end.

Definition _stop_ultra_poll (p : Polling) : Polling :=
  match ultra_job p with
  | Some id => set_ultra_job None (set_tk (after_cancel id (tk p)) p)
  | None => p
  end.

(** [_joy_poll]: [js_board] tells whether the board is connected; what the
    step raises is caught, so the timer is set again in any case. *)
Definition _joy_poll (js_board : bool) (x1_pin y1_pin : option (option Q))
  (p : Polling) : Polling :=
  rearm_joy JOY_POLL_MS
    (if js_board then add_joy_calls (_joy_arcade_step x1_pin y1_pin) p
     else p).

Definition start_joy_poll (p : Polling) : Polling :=
  match joy_job p with
  | None => rearm_joy 200 p
  | Some _ => p
  end.

Definition stop_joy_poll (p : Polling) : Polling :=
  match joy_job p with
  | Some id => set_joy_job None (set_tk (after_cancel id (tk p)) p)
  | None => p
  end.

(** What a timer finds when it fires. *)
Record tick_env := mkEnv {
  env_globals : Globals;
  env_ip : string;
  env_resp : raising Response;
  env_draws : nat -> bool;
  env_board : bool;
  env_x : option (option Q);
  env_y : option (option Q)
}.

(** The event loop runs the timer [id], if it is set. *)
Definition fire (id : nat) (e : tick_env) (p : Polling) : Polling :=
  match find (fun j => (job_id j =? id)%nat) (jobs (tk p)) with
  | Some j =>
      let p := set_tk (after_cancel id (tk p)) p in
      match job_run j with
      | JobPollUltra =>
          fst (_poll_ultrasonico (env_globals e) (env_ip e) (env_resp e)
                 (env_draws e) p)
      | JobJoyPoll => _joy_poll (env_board e) (env_x e) (env_y e) p
      end
  | None => p
  end.

Inductive ui_event :=
| UStartUltra               (* _start_ultra_poll *)
| UStopUltra                (* _stop_ultra_poll *)
| UStartJoy                 (* start_joy_poll *)
| UStopJoy                  (* stop_joy_poll *)
| UFire (id : nat) (e : tick_env).

Definition ui_step (p : Polling) (ev : ui_event) : Polling :=
  match ev with
  | UStartUltra => _start_ultra_poll p
  | UStopUltra => _stop_ultra_poll p
  | UStartJoy => start_joy_poll p
  | UStopJoy => stop_joy_poll p
  | UFire id e => fire id e p
  end.

Definition ui_run (evs : list ui_event) (p : Polling) : Polling :=
  fold_left ui_step evs p.

(** The identifiers of the pending timers that run [fn]. *)
Definition ids_of (fn : job_fn) (t : Tk) : list nat :=
  map job_id (filter (fun j => job_fn_eqb (job_run j) fn) (jobs t)).

(** A pending timer of a poller is the one its variable names; identifiers
    are fresh and not used twice. *)
Definition timers_ok (t : Tk) (u j : option nat) : Prop :=
  (forall id, In id (ids_of JobPollUltra t) -> u = Some id)
  /\ (forall id, In id (ids_of JobJoyPoll t) -> j = Some id)
  /\ Forall (fun jb => (job_id jb < next_job t)%nat) (jobs t)
  /\ NoDup (map job_id (jobs t)).

Definition poll_ok (p : Polling) : Prop :=
  timers_ok (tk p) (ultra_job p) (joy_job p).

(** The distance poll is under way: the timer [ultra_job] names is set. *)
Definition armed (p : Polling) : Prop :=
  exists id, ultra_job p = Some id /\ In id (ids_of JobPollUltra (tk p)).

(** The distance poll has stopped with [ultra_job] still set. *)
Definition stalled (p : Polling) : Prop :=
  ultra_job p <> None /\ ids_of JobPollUltra (tk p) = [].

(** Every drawing call of the callback returns. *)
Definition draws_return (e : tick_env) : Prop :=
  forall k, env_draws e k = true.

(** The sample a run of the distance poll appends. *)
Definition sample_of (e : tick_env) : option pyfloat :=
  if negb (conectado (env_globals e)) then None
  else match env_resp e with
       | Ret r => match _parse_distance_response r with
                  | Ret d => d
                  | Exc => None
                  end
       | Exc => None
       end.

(** The timer of the distance poll fires, if [ultra_job] names one. *)
Definition tick (p : Polling) (e : tick_env) : Polling :=
  match ultra_job p with
  | Some id => fire id e p
  | None => p
  end.

Definition ticks (es : list tick_env) (p : Polling) : Polling :=
  fold_left tick es p.

(** The last sample that is present, [d] if none is. *)
Fixpoint last_present (l : list (option pyfloat)) (d : option pyfloat)
  : option pyfloat :=
  match l with
  | [] => d
  | Some x :: r => last_present r (Some x)
  | None :: r => last_present r d
  end.

Definition no_start_ultra (ev : ui_event) : Prop :=
  match ev with
  | UStartUltra => False
  | _ => True
  end.

Definition no_stop_ultra (ev : ui_event) : Prop :=
  match ev with
  | UStopUltra => False
  | _ => True
  end.

(** A poll under way: the module's state after a health check that
    succeeded, a timer that finds the body [body] in the answer of the
    endpoint, with drawing calls that return ([env_ok]) or raise
    ([env_bad]), and the poller after [_start_ultra_poll]. *)
Definition g_on : Globals := set_conectado true initial_globals.

Definition env_ok (body : string) : tick_env :=
  mkEnv g_on " 192.168.0.101 " (Ret (response_of body)) (fun _ => true)
    false None None.

Definition env_bad (body : string) : tick_env :=
  mkEnv g_on " 192.168.0.101 " (Ret (response_of body)) (fun _ => false)
    false None None.

Definition p_started : Polling := _start_ultra_poll initial_polling.

(* ------------------------------------------------------------------ *)
(** ** Literals in the body of a distance response *)

Fixpoint all_digits (s : string) : bool :=
  match s with
  | String c r => is_digit c && all_digits r
  | EmptyString => true
  end.

(** An unsigned integer literal: digits, no leading zero but for 0
    itself. *)
Definition int_literal (s : string) : bool :=
  match s with
  | String c r =>
      all_digits s && (negb (code c =? 48)%N || negb (truthy r))
  | EmptyString => false
  end.

(** A character of an unsigned decimal literal: a digit, a point or a
    comma. *)
Definition plain (c : ascii) : bool :=
  is_digit c || (code c =? 46)%N || (code c =? 44)%N.

Fixpoint all_plain (s : string) : bool :=
  match s with
  | String c r => plain c && all_plain r
  | EmptyString => true
  end.

(** A string that does not begin with a digit. *)
Definition no_digit_ahead (s : string) : Prop :=
  match s with
  | String c _ => is_digit c = false
  | EmptyString => True
  end.

(** The value of the literal with the digits [a] before the mark and [b]
    after it. *)
Definition literal_value (a b : string) : pyfloat :=
  float_of_Q (scale10 (digits_value 0 (a ++ b))
                (0 - Z.of_nat (String.length b))).

(** The body of an object whose [cm] field is written [v], and a string
    literal of JSON. *)
Definition cm_field_body (v : string) : string :=
  let q := String "034"%char EmptyString in
  ("{" ++ q ++ "cm" ++ q ++ ": " ++ v ++ "}")%string.

Definition quoted (s : string) : string :=
  let q := String "034"%char EmptyString in (q ++ s ++ q)%string.

(* ================================================================== *)
(** * Properties *)

(** ** Logs, threads and effects *)

Section Observations.

Lemma gets_app : forall l1 l2, gets (l1 ++ l2) = (gets l1 ++ gets l2)%list.
Proof.
  induction l1 as [|e l1 IH]; intros l2; [reflexivity|].
  destruct e; simpl; rewrite IH; reflexivity.
Qed.

Lemma hard_disconnects_app : forall l1 l2,
  hard_disconnects (l1 ++ l2) = (hard_disconnects l1 ++ hard_disconnects l2)%list.
Proof.
  induction l1 as [|e l1 IH]; intros l2; [reflexivity|].
  destruct e; simpl; rewrite IH; reflexivity.
Qed.

Lemma soft_errors_app : forall l1 l2,
  soft_errors (l1 ++ l2) = (soft_errors l1 ++ soft_errors l2)%list.
Proof.
  induction l1 as [|e l1 IH]; intros l2; [reflexivity|].
  destruct e; simpl; rewrite IH; reflexivity.
Qed.

Lemma retries_app : forall l1 l2,
  retries (l1 ++ l2) = (retries l1 ++ retries l2)%list.
Proof.
  induction l1 as [|e l1 IH]; intros l2; [reflexivity|].
  destruct e; simpl; rewrite IH; reflexivity.
Qed.

Lemma taken_cmds_app : forall l1 l2,
  taken_cmds (l1 ++ l2) = (taken_cmds l1 ++ taken_cmds l2)%list.
Proof.
  induction l1 as [|t l1 IH]; intros l2; [reflexivity|].
  destruct t; simpl; rewrite IH; reflexivity.
Qed.

Lemma in_flight_app : forall l1 l2,
  in_flight (l1 ++ l2) = (in_flight l1 + in_flight l2)%nat.
Proof.
  induction l1 as [|t l1 IH]; intros l2; [reflexivity|].
  destruct t; simpl; rewrite IH; reflexivity.
Qed.

Lemma nth_error_snoc : forall {A} (l : list A) (x : A),
  nth_error (l ++ [x]) (List.length l) = Some x.
Proof.
  intros A l x. induction l as [|y l IH]; [reflexivity | exact IH].
Qed.

Lemma update_nth_snoc : forall {A} (l : list A) (x y : A),
  update_nth (List.length l) y (l ++ [x]) = (l ++ [y])%list.
Proof.
  intros A l x y. induction l as [|z l IH]; [reflexivity|].
  simpl. rewrite IH. reflexivity.
Qed.

(** A thread's slot, taken apart. *)
Lemma update_nth_split : forall {A} (l : list A) (n : nat) (a x : A),
  nth_error l n = Some a ->
  exists l1 l2, l = (l1 ++ a :: l2)%list
                /\ update_nth n x l = (l1 ++ x :: l2)%list.
Proof.
  intros A l. induction l as [|y l IH]; intros n a x H.
  - destruct n; discriminate.
  - destruct n as [|n]; simpl in H.
    + injection H as ->. exists [], l. split; reflexivity.
    + destruct (IH n a x H) as (l1 & l2 & -> & E).
      exists (y :: l1), l2. simpl. rewrite E. split; reflexivity.
Qed.

Lemma perform_sender : forall es w, sender (perform es w) = sender w.
Proof.
  unfold perform. induction es as [|e es IH]; intros w; [reflexivity|].
  simpl. rewrite IH. reflexivity.
Qed.

Lemma perform_log : forall es w, log (perform es w) = (log w ++ es)%list.
Proof.
  unfold perform. induction es as [|e es IH]; intros w; simpl.
  - symmetry. apply app_nil_r.
  - rewrite IH. simpl. rewrite <- app_assoc. reflexivity.
Qed.

Lemma perform_conectado : forall es w,
  conectado (globals (perform es w)) = conectado (globals w).
Proof.
  unfold perform. induction es as [|e es IH]; intros w; [reflexivity|].
  simpl. rewrite IH. destruct e; reflexivity.
Qed.

Lemma perform_eq : forall es s g ths lg,
  perform es (mkWorld s g ths lg)
  = mkWorld s (fold_left callback es g) (ths ++ flat_map started es)
      (lg ++ es).
Proof.
  unfold perform. induction es as [|e es IH]; intros s g ths lg; simpl.
  - rewrite !app_nil_r. reflexivity.
  - unfold perform1 at 2. simpl. rewrite IH, <- !app_assoc. reflexivity.
Qed.

(** Only a started thread changes the list of threads. *)
Lemma perform_threads : forall es w,
  ~ In EThread es -> threads (perform es w) = threads w.
Proof.
  unfold perform. induction es as [|e es IH]; intros w H; [reflexivity|].
  simpl. rewrite IH by (intros F; apply H; right; exact F).
  destruct e; simpl; try apply app_nil_r. exfalso. apply H. left. reflexivity.
Qed.

Lemma perform_threads_taken : forall es w,
  taken_cmds (threads (perform es w)) = taken_cmds (threads w).
Proof.
  unfold perform. induction es as [|e es IH]; intros w; [reflexivity|].
  simpl. rewrite IH. unfold perform1. simpl threads.
  rewrite taken_cmds_app. destruct e; apply app_nil_r.
Qed.

Lemma no_thread_started : forall es,
  ~ In EThread es -> flat_map started es = [].
Proof.
  induction es as [|e es IH]; intros N; [reflexivity|]. simpl.
  rewrite IH by (intros F; apply N; right; exact F).
  destruct e; try reflexivity. exfalso. apply N. left. reflexivity.
Qed.

Lemma register_fail_no_thread : forall s, ~ In EThread (snd (_register_fail s)).
Proof.
  intros s. unfold _register_fail.
  destruct (_ <? MAX_FAILS); simpl; intuition discriminate.
Qed.

Lemma register_fail_gets : forall s, gets (snd (_register_fail s)) = [].
Proof.
  intros s. unfold _register_fail. destruct (_ <? MAX_FAILS); reflexivity.
Qed.

End Observations.

(* ------------------------------------------------------------------ *)
(** ** Failure handling below the threshold *)

Section Backoff.

Lemma register_fail_below : forall s,
  fail_count s + 1 < MAX_FAILS ->
  _register_fail s =
    (set_fail_count (fail_count s + 1) s,
     [ESoftError ("Intento fallido (" ++ py_str (fail_count s + 1) ++ "/4)");
      EAfter (Z.min 2000 ((fail_count s + 1) * 200))]).
Proof.
  intros s H. unfold _register_fail. simpl fail_count.
  apply Z.ltb_lt in H. rewrite H. reflexivity.
Qed.

Lemma register_fail_at_or_above : forall s,
  MAX_FAILS <= fail_count s + 1 ->
  _register_fail s =
    (set_fail_count (fail_count s + 1) s,
     [EHardDisconnect "Múltiples fallos de envío."]).
Proof.
  intros s H. unfold _register_fail. simpl fail_count.
  apply Z.ltb_ge in H. rewrite H. reflexivity.
Qed.

Lemma send_result_failure : forall r now s,
  r <> Status 200 -> _send_result r now s = _register_fail s.
Proof.
  intros [c|] now s H; [|reflexivity]. simpl.
  destruct (Z.eqb_spec c 200) as [->|_]; [contradiction H|]; reflexivity.
Qed.

End Backoff.

(* ------------------------------------------------------------------ *)
(** ** The distance history *)

Section History.

Context {A : Type}.

Lemma deque_append_skipn : forall (n : nat) (d : list A) (x : A),
  (List.length d <= n)%nat ->
  deque_append n d x = skipn (List.length (d ++ [x]) - n) (d ++ [x]).
Proof.
  intros n d x H. unfold deque_append.
  rewrite length_app. simpl List.length.
  destruct (Nat.ltb_spec n (List.length d + 1)) as [L|L].
  - replace (List.length d + 1 - n)%nat with 1%nat by lia.
    destruct (d ++ [x])%list; reflexivity.
  - replace (List.length d + 1 - n)%nat with 0%nat by lia. reflexivity.
Qed.

Lemma deque_append_length : forall (n : nat) (d : list A) (x : A),
  (List.length d <= n)%nat -> (List.length (deque_append n d x) <= n)%nat.
Proof.
  intros n d x H. rewrite deque_append_skipn by exact H.
  rewrite length_skipn. lia.
Qed.

(** After any appends the deque holds the last [n] items of all that was
    ever in it. *)
Lemma fold_deque_append : forall (n : nat) (xs d : list A),
  (List.length d <= n)%nat ->
  fold_left (deque_append n) xs d
  = skipn (List.length (d ++ xs) - n) (d ++ xs).
Proof.
  intros n xs. induction xs as [|x xs IH]; intros d H; simpl fold_left.
  - rewrite app_nil_r.
    replace (List.length d - n)%nat with 0%nat by lia. reflexivity.
  - rewrite IH by (apply deque_append_length; exact H).
    rewrite deque_append_skipn by exact H.
    set (k := (List.length (d ++ [x]) - n)%nat).
    assert (Hk : (k <= List.length (d ++ [x]))%nat) by (unfold k; lia).
    replace (skipn k (d ++ [x]) ++ xs)%list with (skipn k ((d ++ [x]) ++ xs)).
    2:{ rewrite skipn_app.
        replace (k - List.length (d ++ [x]))%nat with 0%nat by lia.
        reflexivity. }
    rewrite skipn_skipn. rewrite <- app_assoc. simpl app.
    f_equal. rewrite length_skipn.
    assert (E : List.length (d ++ x :: xs)
                = (List.length (d ++ [x]) + List.length xs)%nat).
    { rewrite !length_app. simpl. lia. }
    rewrite E. unfold k. rewrite length_app in *. simpl List.length in *. lia.
Qed.

End History.

(* ------------------------------------------------------------------ *)
(** ** The rate limit *)

Section RateLimit.

Lemma py_int_below : forall x : Q,
  (x < inject_Z RATE_LIMIT_MS)%Q -> py_int x < RATE_LIMIT_MS.
Proof.
  intros [n d] H. unfold Qlt in H. simpl in H. unfold py_int. simpl.
  unfold RATE_LIMIT_MS in *.
  destruct (Z_lt_le_dec n 0) as [L|L].
  - assert (Z.quot n (Z.pos d) <= 0) by (apply Z.quot_le_upper_bound; lia).
    lia.
  - rewrite Z.quot_div_nonneg by lia. apply Z.div_lt_upper_bound; lia.
Qed.

Lemma py_int_from : forall x : Q,
  (inject_Z RATE_LIMIT_MS <= x)%Q -> RATE_LIMIT_MS <= py_int x.
Proof.
  intros [n d] H. unfold Qle in H. simpl in H. unfold py_int. simpl.
  unfold RATE_LIMIT_MS in *.
  rewrite Z.quot_div_nonneg by lia. apply Z.div_le_lower_bound; lia.
Qed.

Lemma wait_ms_passed : forall now s,
  (inject_Z RATE_LIMIT_MS <= now - last_ts s)%Q -> wait_ms now s = 0.
Proof.
  intros now s H. unfold wait_ms. apply py_int_from in H. lia.
Qed.

Lemma wait_ms_window : forall now s,
  (now - last_ts s < inject_Z RATE_LIMIT_MS)%Q -> 0 < wait_ms now s.
Proof.
  intros now s H. unfold wait_ms. apply py_int_below in H. lia.
Qed.

(** Inside the window [_pump] starts no thread. *)
Lemma pump_window : forall now s,
  (now - last_ts s < inject_Z RATE_LIMIT_MS)%Q ->
  _pump now s = [] \/ _pump now s = [EAfter (wait_ms now s)].
Proof.
  intros now s H. unfold _pump.
  destruct (inflight s || _ || shutdown s); [left; reflexivity|].
  apply wait_ms_window, Z.ltb_lt in H. rewrite H. right. reflexivity.
Qed.

(** Once the window has passed an idle sender with a pending command starts
    its thread. *)
Lemma pump_passed : forall now s cmd,
  inflight s = false -> shutdown s = false -> pending s = Some cmd ->
  (inject_Z RATE_LIMIT_MS <= now - last_ts s)%Q ->
  _pump now s = [EThread].
Proof.
  intros now s cmd Hi Hs Hp H. unfold _pump. rewrite Hi, Hs, Hp.
  rewrite (wait_ms_passed _ _ H). reflexivity.
Qed.

Lemma pump_no_get : forall now s, gets (_pump now s) = [].
Proof.
  intros now s. unfold _pump.
  destruct (inflight s || _ || shutdown s); [reflexivity|].
  destruct (0 <? wait_ms now s); reflexivity.
Qed.

Lemma pump_shutdown : forall now s, shutdown s = true -> _pump now s = [].
Proof.
  intros now s H. unfold _pump. rewrite H, !orb_true_r. reflexivity.
Qed.

End RateLimit.

(* ------------------------------------------------------------------ *)
(** ** One send, step by step *)

Section Rounds.

Variables (s : CommandSender) (g : Globals) (ths : list thread)
  (lg : list effect).

Lemma step_pump_thread : forall now,
  _pump now s = [EThread] ->
  step (mkWorld s g ths lg) (APump now)
  = mkWorld s g (ths ++ [TStarted]) (lg ++ [EThread]).
Proof. intros now H. simpl. rewrite H. reflexivity. Qed.

Lemma step_take_new : forall cmd,
  pending s = Some cmd -> shutdown s = false ->
  step (mkWorld s g (ths ++ [TStarted]) lg) (ATake (List.length ths))
  = mkWorld (set_inflight true (set_pending None s)) g
      (ths ++ [TTaken cmd]) lg.
Proof.
  intros cmd Hp Hs. simpl. rewrite nth_error_snoc. unfold _send_take.
  rewrite Hp, Hs. unfold with_thread. simpl. rewrite update_nth_snoc.
  reflexivity.
Qed.

Lemma step_request_new : forall cmd ip_entry,
  truthy (strip ip_entry) = true ->
  step (mkWorld s g (ths ++ [TTaken cmd]) lg)
    (ARequest (List.length ths) ip_entry)
  = mkWorld s g (ths ++ [TInCall (command_url (strip ip_entry) cmd)])
      (lg ++ [EGet (command_url (strip ip_entry) cmd)]).
Proof.
  intros cmd ip_entry H. simpl. rewrite nth_error_snoc. unfold _send_url.
  rewrite H. simpl. unfold perform1, with_thread. simpl.
  rewrite update_nth_snoc, app_nil_r. reflexivity.
Qed.

Lemma step_request_blank : forall cmd ip_entry,
  truthy (strip ip_entry) = false ->
  step (mkWorld s g (ths ++ [TTaken cmd]) lg)
    (ARequest (List.length ths) ip_entry)
  = mkWorld (fst (_register_fail s))
      (fold_left callback (snd (_register_fail s)) g)
      (ths ++ [TFinally]) (lg ++ snd (_register_fail s)).
Proof.
  intros cmd ip_entry H. simpl. rewrite nth_error_snoc. unfold _send_url.
  rewrite H. simpl. destruct (_register_fail s) as [s' es] eqn:E.
  unfold with_thread, with_sender. simpl. rewrite update_nth_snoc, perform_eq.
  simpl fst. simpl snd. f_equal.
  rewrite no_thread_started, app_nil_r; [reflexivity|].
  pose proof (register_fail_no_thread s) as R. rewrite E in R. exact R.
Qed.

Lemma step_response_failure : forall url r now,
  r <> Status 200 ->
  step (mkWorld s g (ths ++ [TInCall url]) lg)
    (AResponse (List.length ths) r now)
  = mkWorld (fst (_register_fail s))
      (fold_left callback (snd (_register_fail s)) g)
      (ths ++ [TFinally]) (lg ++ snd (_register_fail s)).
Proof.
  intros url r now H. simpl. rewrite nth_error_snoc.
  rewrite send_result_failure by exact H.
  destruct (_register_fail s) as [s' es] eqn:E.
  unfold with_thread, with_sender. simpl. rewrite update_nth_snoc, perform_eq.
  f_equal.
  rewrite no_thread_started, app_nil_r; [reflexivity|].
  pose proof (register_fail_no_thread s) as R. rewrite E in R. exact R.
Qed.

Lemma step_response_ok : forall url now,
  step (mkWorld s g (ths ++ [TInCall url]) lg)
    (AResponse (List.length ths) (Status 200) now)
  = mkWorld (set_last_ts now (set_fail_count 0 s)) g (ths ++ [TFinally]) lg.
Proof.
  intros url now. simpl. rewrite nth_error_snoc. simpl.
  unfold with_thread. simpl. rewrite update_nth_snoc, ?app_nil_r.
  reflexivity.
Qed.

Lemma step_finally_new :
  step (mkWorld s g (ths ++ [TFinally]) lg) (AFinally (List.length ths))
  = mkWorld (set_inflight false s) g (ths ++ [TDone]) (lg ++ [EAfter 0]).
Proof.
  simpl. rewrite nth_error_snoc. simpl. unfold perform1, with_thread. simpl.
  rewrite update_nth_snoc, app_nil_r. reflexivity.
Qed.

End Rounds.

Section FailedRounds.

(** The effects of the failure that brings the count to [n]. *)
Lemma register_fail_effects : forall s,
  snd (_register_fail s)
  = if fail_count s + 1 <? MAX_FAILS
    then [ESoftError
            ("Intento fallido (" ++ py_str (fail_count s + 1) ++ "/4)");
          EAfter (Z.min 2000 ((fail_count s + 1) * 200))]
    else [EHardDisconnect "Múltiples fallos de envío."].
Proof.
  intros s. unfold _register_fail. simpl fail_count.
  destruct (_ <? MAX_FAILS); reflexivity.
Qed.

Lemma register_fail_sender : forall s,
  fst (_register_fail s) = set_fail_count (fail_count s + 1) s.
Proof.
  intros s. unfold _register_fail. simpl fail_count.
  destruct (_ <? MAX_FAILS); reflexivity.
Qed.

(** A send that fails on the network, from an idle sender. *)
Lemma do_round_failing : forall w x,
  inflight (sender w) = false -> shutdown (sender w) = false ->
  failing (last_ts (sender w)) x ->
  do_round w x =
    mkWorld
      {| pending := None; inflight := false; last_ts := last_ts (sender w);
         fail_count := fail_count (sender w) + 1; shutdown := false |}
      (fold_left callback (snd (_register_fail (sender w))) (globals w))
      (threads w ++ [TDone])
      (log w
       ++ [EThread; EGet (command_url (strip (r_ip x)) (r_cmd x))]
       ++ snd (_register_fail (sender w)) ++ [EAfter 0]).
Proof.
  intros [[p i l f sh] g ths lg] [cmd t ip r t'] Hi Hs (Ht & Hip & Hr).
  simpl in Hi, Hs, Ht, Hip, Hr. subst i sh.
  unfold do_round, send_round, queue, run. simpl threads.
  cbn [r_cmd r_at r_ip r_end r_end_at app fold_left].
  replace (step _ (AQueueStore cmd))
    with (mkWorld (mkSender (Some cmd) false l f false) g ths lg)
    by reflexivity.
  rewrite step_pump_thread
    by (apply pump_passed with (cmd := cmd); auto).
  rewrite step_take_new with (cmd := cmd) by reflexivity.
  rewrite step_request_new by exact Hip.
  rewrite step_response_failure by exact Hr.
  rewrite step_finally_new.
  rewrite !register_fail_effects, !register_fail_sender. simpl.
  rewrite <- !app_assoc. reflexivity.
Qed.

End FailedRounds.

(* ------------------------------------------------------------------ *)
(** ** Consecutive failures *)

Section ConsecutiveFailures.

Lemma do_rounds_failing : forall rs w k,
  0 <= k ->
  inflight (sender w) = false -> shutdown (sender w) = false ->
  fail_count (sender w) = k ->
  Forall (failing (last_ts (sender w))) rs ->
  hard_disconnects (log (do_rounds rs w))
  = (hard_disconnects (log w)
     ++ repeat "Múltiples fallos de envío."%string
          (List.length rs - Z.to_nat (3 - k)))%list
  /\ gets (log (do_rounds rs w))
     = (gets (log w)
        ++ map (fun x => command_url (strip (r_ip x)) (r_cmd x)) rs)%list
  /\ fail_count (sender (do_rounds rs w)) = k + Z.of_nat (List.length rs)
  /\ conectado (globals (do_rounds rs w)) = conectado (globals w).
Proof.
  induction rs as [|x rs IH]; intros w k Hk Hi Hs Hf Hall.
  - simpl. rewrite !app_nil_r. repeat split; lia.
  - inversion Hall as [|? ? Hx Hrest]; subst.
    unfold do_rounds. simpl fold_left. fold (do_rounds rs (do_round w x)).
    rewrite (do_round_failing w x Hi Hs Hx).
    set (w1 := mkWorld _ _ _ _).
    destruct (IH w1 (fail_count (sender w) + 1)) as (H1 & H2 & H3 & H4);
      try reflexivity; try lia; try exact Hrest.
    rewrite H1, H2, H3, H4. unfold w1. simpl log. simpl globals.
    rewrite !hard_disconnects_app, !gets_app, register_fail_effects.
    repeat split.
    + destruct (Z.ltb_spec (fail_count (sender w) + 1) MAX_FAILS) as [L|L];
        unfold MAX_FAILS in L; cbn [hard_disconnects app List.length];
        rewrite ?app_nil_r, <- ?app_assoc; f_equal.
      * f_equal. lia.
      * replace (Z.to_nat (3 - (fail_count (sender w) + 1))) with 0%nat by lia.
        replace (Z.to_nat (3 - fail_count (sender w))) with 0%nat by lia.
        rewrite !Nat.sub_0_r. reflexivity.
    + destruct (_ <? MAX_FAILS); cbn [gets app map];
        rewrite <- !app_assoc; reflexivity.
    + cbn [List.length]. lia.
    + destruct (_ <? MAX_FAILS); reflexivity.
Qed.

End ConsecutiveFailures.

(* ------------------------------------------------------------------ *)
(** ** The dispatcher's failure handling: claims *)

Section FailureClaims.

(** C6.  A failure that brings the count to [n < MAX_FAILS] reports the soft
    error "Intento fallido (n/4)" and re-arms the pump after
    [min(2000, n * 200)] ms; three failed sends in a row from a count of 0
    report 1/4, 2/4, 3/4 and re-arm after 200, 400 and 600 ms (each send
    also re-arms the pump at once, after 0 ms, when it ends). *)
Theorem soft_error_linear_backoff : forall s n,
  n = fail_count s + 1 -> n < MAX_FAILS ->
  _register_fail s
  = (set_fail_count n s,
     [ESoftError ("Intento fallido (" ++ py_str n ++ "/"
                    ++ py_str MAX_FAILS ++ ")");
      EAfter (Z.min 2000 (n * 200))])
  /\ (forall w x1 x2 x3,
        inflight (sender w) = false -> shutdown (sender w) = false ->
        fail_count (sender w) = 0 ->
        Forall (failing (last_ts (sender w))) [x1; x2; x3] ->
        soft_errors (log (do_rounds [x1; x2; x3] w))
        = (soft_errors (log w)
           ++ ["Intento fallido (1/4)"; "Intento fallido (2/4)";
               "Intento fallido (3/4)"]%string)%list
        /\ retries (log (do_rounds [x1; x2; x3] w))
           = (retries (log w) ++ [200; 0; 400; 0; 600; 0])%list
        /\ hard_disconnects (log (do_rounds [x1; x2; x3] w))
           = hard_disconnects (log w)).
Proof.
  intros s n -> Hn. split.
  - rewrite register_fail_below by exact Hn. reflexivity.
  - intros w x1 x2 x3 Hi Hs Hf Hall.
    inversion Hall as [|? ? H1 Hall2]; subst.
    inversion Hall2 as [|? ? H2 Hall3]; subst.
    inversion Hall3 as [|? ? H3 _]; subst.
    unfold do_rounds. cbn [fold_left].
    rewrite (do_round_failing w x1 Hi Hs H1).
    set (w1 := mkWorld _ _ _ _).
    rewrite (do_round_failing w1 x2 eq_refl eq_refl H2).
    set (w2 := mkWorld _ _ _ _).
    rewrite (do_round_failing w2 x3 eq_refl eq_refl H3).
    unfold w2, w1. cbn [sender globals threads log fail_count].
    rewrite !register_fail_effects. cbn [fail_count]. rewrite Hf.
    rewrite !soft_errors_app, !retries_app, !hard_disconnects_app.
    cbn. rewrite <- !app_assoc, ?app_nil_r. auto.
Qed.

Lemma soft_error_linear_backoff_witness :
  1 = fail_count new_sender + 1 /\ 1 < MAX_FAILS
  /\ _register_fail new_sender
     = (set_fail_count 1 new_sender,
        [ESoftError "Intento fallido (1/4)"; EAfter 200]).
Proof.
  assert (H1 : 1 = fail_count new_sender + 1) by reflexivity.
  assert (H2 : 1 < MAX_FAILS) by reflexivity.
  split; [exact H1 | split; [exact H2 |]].
  exact (proj1 (soft_error_linear_backoff new_sender 1 H1 H2)).
Defined.

(** C1, as stated, fails: after four sends in a row have timed out and the
    hard-disconnect event has fired, a fifth [queue] is sent all the same,
    and its failure fires the event a second time. *)
Lemma hard_disconnect_fires_again :
  hard_disconnects (log (do_rounds (timed_out_sends 4) initial_world))
  = ["Múltiples fallos de envío."%string]
  /\ hard_disconnects (log (do_rounds (timed_out_sends 5) initial_world))
     = ["Múltiples fallos de envío."; "Múltiples fallos de envío."]%string
  /\ List.length (gets (log (do_rounds (timed_out_sends 5) initial_world)))
     = 5%nat.
Proof. vm_compute. auto. Qed.

(** C1 (amended).  A failure that brings the count to [MAX_FAILS] or beyond
    fires one hard-disconnect event and schedules no retry.  The sender
    keeps no latch: from an idle sender with a count of 0, every failed
    send is followed by the next one as soon as a command is queued, and of
    [n] failed sends in a row each one from the fourth on fires one
    hard-disconnect event: [n - 3] events in all, one of them at the
    threshold, and [n] GETs. *)
Theorem hard_disconnect_at_each_failure_from_threshold : forall rs w,
  inflight (sender w) = false -> shutdown (sender w) = false ->
  fail_count (sender w) = 0 ->
  Forall (failing (last_ts (sender w))) rs ->
  hard_disconnects (log (do_rounds rs w))
  = (hard_disconnects (log w)
     ++ repeat "Múltiples fallos de envío."%string (List.length rs - 3))%list
  /\ gets (log (do_rounds rs w))
     = (gets (log w)
        ++ map (fun x => command_url (strip (r_ip x)) (r_cmd x)) rs)%list
  /\ fail_count (sender (do_rounds rs w)) = Z.of_nat (List.length rs)
  /\ (forall s, MAX_FAILS <= fail_count s + 1 ->
        snd (_register_fail s)
        = [EHardDisconnect "Múltiples fallos de envío."]).
Proof.
  intros rs w Hi Hs Hf Hall.
  destruct (do_rounds_failing rs w 0) as (H1 & H2 & H3 & _); auto; try lia.
  repeat split; auto.
  intros s H. rewrite register_fail_at_or_above by exact H. reflexivity.
Qed.

Lemma hard_disconnect_at_each_failure_from_threshold_witness :
  Forall (failing (last_ts (sender initial_world))) (timed_out_sends 5)
  /\ hard_disconnects (log (do_rounds (timed_out_sends 5) initial_world))
     = (hard_disconnects (log initial_world)
        ++ repeat "Múltiples fallos de envío."%string
             (List.length (timed_out_sends 5) - 3))%list.
Proof.
  assert (H : Forall (failing (last_ts (sender initial_world)))
                (timed_out_sends 5)).
  { repeat constructor; try discriminate. }
  split; [exact H |].
  exact (proj1 (hard_disconnect_at_each_failure_from_threshold
                  (timed_out_sends 5) initial_world
                  eq_refl eq_refl eq_refl H)).
Defined.

(** C4, as stated, fails: with a blank address in the IP entry the send
    makes no GET, and the failure count goes from 0 to 1. *)
Lemma blank_address_counts_as_failure :
  let w := run (queue "adelante" 1000 ++ [ATake 0%nat]) initial_world in
  let w' := step w (ARequest 0%nat "   ") in
  fail_count (sender w) = 0 /\ fail_count (sender w') = 1
  /\ gets (log w') = [].
Proof. vm_compute. auto. Qed.

(** C4 (amended).  A send that finds the address blank makes no GET and is
    handled as a failed send: [_register_fail] runs, so the failure count
    goes up by one and the soft error or the hard disconnect is reported. *)
Theorem blank_address_registers_failure : forall w tid cmd ip_entry,
  nth_error (threads w) tid = Some (TTaken cmd) ->
  truthy (strip ip_entry) = false ->
  gets (log (step w (ARequest tid ip_entry))) = gets (log w)
  /\ fail_count (sender (step w (ARequest tid ip_entry)))
     = fail_count (sender w) + 1
  /\ log (step w (ARequest tid ip_entry))
     = (log w ++ snd (_register_fail (sender w)))%list.
Proof.
  intros w tid cmd ip Ht Hip. cbn [step]. rewrite Ht. unfold _send_url.
  rewrite Hip. cbn [negb].
  pose proof (register_fail_sender (sender w)) as Es.
  pose proof (register_fail_gets (sender w)) as Eg.
  destruct (_register_fail (sender w)) as [s' es]. simpl in Es, Eg. subst s'.
  rewrite perform_log, perform_sender, gets_app, Eg, app_nil_r.
  repeat split.
Qed.

Lemma blank_address_registers_failure_witness :
  let w := run (queue "adelante" 1000 ++ [ATake 0%nat]) initial_world in
  nth_error (threads w) 0 = Some (TTaken "adelante")
  /\ truthy (strip "   ") = false
  /\ fail_count (sender (step w (ARequest 0%nat "   ")))
     = fail_count (sender w) + 1.
Proof.
  assert (H1 : nth_error
                 (threads (run (queue "adelante" 1000 ++ [ATake 0%nat])
                             initial_world)) 0
               = Some (TTaken "adelante")) by reflexivity.
  assert (H2 : truthy (strip "   ") = false) by reflexivity.
  split; [exact H1 | split; [exact H2 |]].
  exact (proj1 (proj2 (blank_address_registers_failure _ 0%nat "adelante"
                         "   " H1 H2))).
Defined.

(** C7, as stated, fails: the address has been verified, so the flag is
    true; four sends in a row time out and the hard-disconnect event fires;
    the flag is still true. *)
Lemma hard_disconnect_leaves_conectado :
  let w := step initial_world (AVerify "192.168.0.101" (Status 200)) in
  let w' := do_rounds (timed_out_sends 4) w in
  conectado (globals w) = true
  /\ hard_disconnects (log w') = ["Múltiples fallos de envío."%string]
  /\ conectado (globals w') = true.
Proof. vm_compute. auto. Qed.

(** C7 (amended).  No step of the dispatcher writes the connectivity flag:
    it changes only in [verificar_conexion].  The hard-disconnect callback
    sets the status label to "Desconectado" and shows an error dialog, and
    leaves the flag as it is. *)
Theorem conectado_written_by_verify_only : forall w a,
  not_verify a ->
  conectado (globals (step w a)) = conectado (globals w)
  /\ (forall m g,
        conectado (on_hard_disconnect m g) = conectado g
        /\ lbl_status (on_hard_disconnect m g)
           = ("Desconectado", "#ff6b81")%string
        /\ dialogs (on_hard_disconnect m g)
           = (dialogs g ++ [("Desconexión"%string, m)])%list).
Proof.
  intros w a Ha. split; [| intros m g; repeat split].
  destruct a; cbn [step]; try reflexivity; try contradiction.
  - apply perform_conectado.
  - destruct (nth_error (threads w) tid) as [[| | | |]|]; try reflexivity.
    destruct (_send_take (sender w)) as [s' taken]. reflexivity.
  - destruct (nth_error (threads w) tid) as [[| | | |]|]; try reflexivity.
    destruct (_send_url ip_entry cmd_local).
    + rewrite perform_conectado. reflexivity.
    + destruct (_register_fail (sender w)) as [s' es].
      rewrite perform_conectado. reflexivity.
  - destruct (nth_error (threads w) tid) as [[| | | |]|]; try reflexivity.
    destruct (_send_result r now (sender w)) as [s' es].
    rewrite perform_conectado. reflexivity.
  - destruct (nth_error (threads w) tid) as [[| | | |]|]; reflexivity.
Qed.

Lemma conectado_written_by_verify_only_witness :
  let w := run (queue "adelante" 4000
                ++ [ATake 3%nat; ARequest 3%nat "192.168.0.101"])
             (do_rounds (timed_out_sends 3)
                (step initial_world (AVerify "192.168.0.101" (Status 200)))) in
  let a := AResponse 3%nat Raises 5500 in
  not_verify a
  /\ hard_disconnects (log (step w a)) = ["Múltiples fallos de envío."%string]
  /\ conectado (globals (step w a)) = conectado (globals w).
Proof.
  assert (H : not_verify (AResponse 3%nat Raises 5500)) by exact I.
  split; [exact H | split; [reflexivity |]].
  exact (proj1 (conectado_written_by_verify_only _ _ H)).
Defined.

End FailureClaims.

(* ------------------------------------------------------------------ *)
(** ** The distance history: claim *)

Section HistoryClaim.

Lemma last_skipn : forall {A} (l : list A) (k : nat) (d : A),
  (k < List.length l)%nat -> last (skipn k l) d = last l d.
Proof.
  intros A l. induction l as [|x l IH]; intros k d H; simpl in H; [lia|].
  destruct k as [|k]; [reflexivity|]. simpl skipn.
  rewrite IH by lia. destruct l; [simpl in H; lia | reflexivity].
Qed.

Lemma append_dists_skipn : forall ds,
  append_dists [] ds = skipn (List.length ds - DIST_HISTORY_LEN) ds.
Proof.
  intros ds. unfold append_dists.
  change append_dist with (@deque_append (option pyfloat) DIST_HISTORY_LEN).
  rewrite fold_deque_append by (simpl; lia). reflexivity.
Qed.

(** C9.  The history never holds more than [DIST_HISTORY_LEN] = 120
    samples; after [120 + K] appends to the empty history, [K > 0], it holds
    the appended samples without the [K] oldest, in the order of their
    arrival, and its last element is the sample appended last. *)
Theorem history_bounded_fifo : forall ds K,
  (0 < K)%nat -> List.length ds = (DIST_HISTORY_LEN + K)%nat ->
  (forall ds', (List.length (append_dists [] ds') <= DIST_HISTORY_LEN)%nat)
  /\ append_dists [] ds = skipn K ds
  /\ List.length (append_dists [] ds) = DIST_HISTORY_LEN
  /\ deque_last (append_dists [] ds) = last ds None.
Proof.
  intros ds K HK Hlen. split; [| split; [| split]].
  - intros ds'. rewrite append_dists_skipn, length_skipn. lia.
  - rewrite append_dists_skipn. f_equal. lia.
  - rewrite append_dists_skipn, length_skipn. lia.
  - unfold deque_last. rewrite append_dists_skipn. apply last_skipn.
    unfold DIST_HISTORY_LEN in *. lia.
Qed.

Lemma history_bounded_fifo_witness :
  let ds := (repeat None 120
             ++ [Some (FFin 30); Some (FFin (25 # 2))])%list in
  (0 < 2)%nat /\ List.length ds = (DIST_HISTORY_LEN + 2)%nat
  /\ append_dists [] ds = skipn 2 ds
  /\ deque_last (append_dists [] ds) = last ds None.
Proof.
  assert (H1 : (0 < 2)%nat) by (repeat constructor).
  assert (H2 : List.length (repeat (@None pyfloat) 120
                            ++ [Some (FFin 30); Some (FFin (25 # 2))])
               = (DIST_HISTORY_LEN + 2)%nat) by reflexivity.
  split; [exact H1 | split; [exact H2 |]].
  pose (T := history_bounded_fifo _ 2%nat H1 H2).
  split; [exact (proj1 (proj2 T)) | exact (proj2 (proj2 (proj2 T)))].
Defined.

End HistoryClaim.

(* ------------------------------------------------------------------ *)
(** ** The PWM path: claim *)

Section PwmClaim.

Lemma clamp_pwm_range : forall pwm, 0 <= clamp_pwm pwm <= 255.
Proof. intros pwm. unfold clamp_pwm. lia. Qed.

(** C10.  [_send_pwm] works on the duty value clamped to 0..255: any GET it
    makes carries the clamped value, and the stored last value only ever
    becomes the clamped value.  It makes no GET and changes nothing when
    the connectivity flag is false, and when the clamped value is less than
    6 away from the last acknowledged one while less than 250 ms have
    passed since that acknowledgement. *)
Theorem send_pwm_clamps_and_drops : forall pwm now ip_entry r g,
  0 <= clamp_pwm pwm <= 255
  /\ (forall url, snd (_send_pwm pwm now ip_entry r g) = Some url ->
        url = pwm_url (strip ip_entry) (clamp_pwm pwm))
  /\ (_last_vel_val (fst (_send_pwm pwm now ip_entry r g)) = _last_vel_val g
      \/ _last_vel_val (fst (_send_pwm pwm now ip_entry r g)) = clamp_pwm pwm)
  /\ (conectado g = false -> _send_pwm pwm now ip_entry r g = (g, None))
  /\ (Z.abs (clamp_pwm pwm - _last_vel_val g) < 6 ->
      (now - _last_vel_ts g < 250)%Q ->
      _send_pwm pwm now ip_entry r g = (g, None)).
Proof.
  intros pwm now ip r g. split; [apply clamp_pwm_range|].
  unfold _send_pwm. repeat split.
  - intros url. destruct (conectado g); cbn [negb]; [|discriminate].
    destruct (_ && _); [discriminate|].
    destruct (truthy (strip ip)); cbn [negb]; [|discriminate].
    destruct r as [c|]; [destruct (c =? 200)|]; cbn [snd];
      intros H; injection H as <-; reflexivity.
  - destruct (conectado g); cbn [negb]; [|left; reflexivity].
    destruct (_ && _); [left; reflexivity|].
    destruct (truthy (strip ip)); cbn [negb]; [|left; reflexivity].
    destruct r as [c|]; [destruct (c =? 200)|]; cbn [fst];
      [right | left | left]; reflexivity.
  - intros ->. reflexivity.
  - intros Hv Ht. destruct (conectado g); cbn [negb]; [|reflexivity].
    apply Z.ltb_lt in Hv. rewrite Hv.
    destruct (Qlt_le_dec (now - _last_vel_ts g) 250) as [_|L];
      [reflexivity|].
    exfalso. exact (Qlt_not_le _ _ Ht L).
Qed.

Lemma send_pwm_clamps_and_drops_witness :
  let g := set_last_vel 200 1000 "9.41 km/h"
             (set_conectado true initial_globals) in
  conectado initial_globals = false
  /\ _send_pwm 300 1100 "192.168.0.101" (Status 200) initial_globals
     = (initial_globals, None)
  /\ Z.abs (clamp_pwm 203 - _last_vel_val g) < 6
  /\ (1100 - _last_vel_ts g < 250)%Q
  /\ _send_pwm 203 1100 "192.168.0.101" (Status 200) g = (g, None).
Proof.
  pose (g := set_last_vel 200 1000 "9.41 km/h"
               (set_conectado true initial_globals)).
  assert (H1 : conectado initial_globals = false) by reflexivity.
  assert (H2 : Z.abs (clamp_pwm 203 - _last_vel_val g) < 6) by reflexivity.
  assert (H3 : (1100 - _last_vel_ts g < 250)%Q) by reflexivity.
  split; [exact H1 | split; [| split; [exact H2 | split; [exact H3 |]]]].
  - exact (proj1 (proj2 (proj2 (proj2
             (send_pwm_clamps_and_drops 300 1100 "192.168.0.101" (Status 200)
                initial_globals)))) H1).
  - exact (proj2 (proj2 (proj2 (proj2
             (send_pwm_clamps_and_drops 203 1100 "192.168.0.101" (Status 200)
                g)))) H2 H3).
Defined.

End PwmClaim.

(* ------------------------------------------------------------------ *)
(** ** Steps under any interleaving *)

Section Interleavings.

Lemma taken_cmds_update : forall ths tid t0 t,
  nth_error ths tid = Some t0 ->
  exists l1 l2,
    taken_cmds ths = (l1 ++ taken_cmds [t0] ++ l2)%list
    /\ taken_cmds (update_nth tid t ths) = (l1 ++ taken_cmds [t] ++ l2)%list.
Proof.
  intros ths tid t0 t H.
  destruct (update_nth_split ths tid t0 t H) as (a & b & -> & ->).
  exists (taken_cmds a), (taken_cmds b).
  rewrite !taken_cmds_app.
  change (t0 :: b) with ([t0] ++ b)%list. change (t :: b) with ([t] ++ b)%list.
  rewrite !taken_cmds_app. split; reflexivity.
Qed.

Lemma send_result_gets : forall r now s, gets (snd (_send_result r now s)) = [].
Proof.
  intros [c|] now s; simpl; [destruct (c =? 200); [reflexivity|] |];
    apply register_fail_gets.
Qed.

Lemma send_result_pending : forall r now s,
  pending (fst (_send_result r now s)) = pending s.
Proof.
  intros [c|] now s; simpl; [destruct (c =? 200); [reflexivity|] |];
    rewrite register_fail_sender; reflexivity.
Qed.

Lemma send_result_shutdown : forall r now s,
  shutdown (fst (_send_result r now s)) = shutdown s.
Proof.
  intros [c|] now s; simpl; [destruct (c =? 200); [reflexivity|] |];
    rewrite register_fail_sender; reflexivity.
Qed.

(** Every step other than a submission is one of the three transitions. *)
Lemma step_transition : forall w a, no_submit a -> transition w (step w a).
Proof.
  intros w a Ha. destruct a; try contradiction; cbn [step].
  - (* _pump *)
    apply T_silent.
    + apply perform_threads_taken.
    + rewrite perform_log, gets_app, pump_no_get. apply app_nil_r.
    + left. rewrite perform_sender. reflexivity.
  - (* first critical section of _send *)
    destruct (nth_error (threads w) tid) as [t0|] eqn:Ht;
      [| apply T_silent; auto].
    destruct t0; try (apply T_silent; auto; fail).
    unfold _send_take.
    destruct (pending (sender w)) as [c|] eqn:Hp.
    + destruct (shutdown (sender w)) eqn:Hs.
      * destruct (taken_cmds_update _ _ _ TDone Ht) as (l1 & l2 & E1 & E2).
        apply T_silent; cbn; [| reflexivity | left; reflexivity].
        rewrite E1, E2. reflexivity.
      * destruct (taken_cmds_update _ _ _ (TTaken c) Ht)
          as (l1 & l2 & E1 & E2).
        apply (T_take _ _ c l1 l2); cbn; auto.
    + destruct (taken_cmds_update _ _ _ TDone Ht) as (l1 & l2 & E1 & E2).
      apply T_silent; cbn; [| reflexivity | left; reflexivity].
      rewrite E1, E2. reflexivity.
  - (* the address and the GET *)
    destruct (nth_error (threads w) tid) as [t0|] eqn:Ht;
      [| apply T_silent; auto].
    destruct t0; try (apply T_silent; auto; fail).
    unfold _send_url. destruct (truthy (strip ip_entry)) eqn:Hip; cbn [negb].
    + destruct (taken_cmds_update _ _ _
                  (TInCall ("http://" ++ strip ip_entry ++ "/" ++ cmd_local))
                  Ht) as (l1 & l2 & E1 & E2).
      apply (T_request _ _ cmd_local l1 l2); cbn; auto.
      * rewrite app_nil_r. exact E2.
      * right. exists (strip ip_entry). split; [exact Hip|].
        rewrite gets_app. reflexivity.
    + destruct (taken_cmds_update _ _ _ TFinally Ht) as (l1 & l2 & E1 & E2).
      pose proof (register_fail_sender (sender w)) as Es.
      pose proof (register_fail_gets (sender w)) as Eg.
      destruct (_register_fail (sender w)) as [s' es]. cbn in Es, Eg. subst s'.
      apply (T_request _ _ cmd_local l1 l2).
      * exact E1.
      * rewrite perform_threads_taken. exact E2.
      * rewrite perform_sender. reflexivity.
      * left. rewrite perform_log, gets_app, Eg. apply app_nil_r.
  - (* the GET ends *)
    destruct (nth_error (threads w) tid) as [t0|] eqn:Ht;
      [| apply T_silent; auto].
    destruct t0; try (apply T_silent; auto; fail).
    destruct (taken_cmds_update _ _ _ TFinally Ht) as (l1 & l2 & E1 & E2).
    pose proof (send_result_gets r now (sender w)) as Eg.
    pose proof (send_result_pending r now (sender w)) as Ep.
    destruct (_send_result r now (sender w)) as [s' es]. cbn in Eg, Ep.
    apply T_silent.
    + rewrite perform_threads_taken. cbn. rewrite E1, E2. reflexivity.
    + rewrite perform_log, gets_app, Eg. apply app_nil_r.
    + left. rewrite perform_sender. exact Ep.
  - (* finally *)
    destruct (nth_error (threads w) tid) as [t0|] eqn:Ht;
      [| apply T_silent; auto].
    destruct t0; try (apply T_silent; auto; fail).
    destruct (taken_cmds_update _ _ _ TDone Ht) as (l1 & l2 & E1 & E2).
    apply T_silent; cbn.
    + rewrite app_nil_r, E1, E2. reflexivity.
    + rewrite gets_app. apply app_nil_r.
    + left. reflexivity.
  - (* shutdown_sender *)
    apply T_silent; cbn; auto.
  - (* verificar_conexion *)
    apply T_silent; cbn; auto.
Qed.

Lemma step_shutdown_stable : forall w a,
  shutdown (sender w) = true -> shutdown (sender (step w a)) = true.
Proof.
  intros w a H. destruct a; cbn [step]; try exact H; try reflexivity.
  - rewrite perform_sender. exact H.
  - destruct (nth_error (threads w) tid) as [[| | | |]|]; try exact H.
    unfold _send_take. destruct (pending (sender w)); rewrite ?H; exact H.
  - destruct (nth_error (threads w) tid) as [[| | | |]|]; try exact H.
    destruct (_send_url ip_entry cmd_local); [exact H|].
    pose proof (register_fail_sender (sender w)) as Es.
    destruct (_register_fail (sender w)) as [s' es]. cbn in Es. subst s'.
    rewrite perform_sender. exact H.
  - destruct (nth_error (threads w) tid) as [[| | | |]|]; try exact H.
    pose proof (send_result_shutdown r now (sender w)) as Es.
    destruct (_send_result r now (sender w)) as [s' es]. cbn in Es.
    rewrite perform_sender. cbn. rewrite Es. exact H.
  - destruct (nth_error (threads w) tid) as [[| | | |]|]; exact H.
Qed.

End Interleavings.

(* ------------------------------------------------------------------ *)
(** ** Shutdown: claim *)

Section Shutdown.

Lemma run_app : forall tr1 tr2 w, run (tr1 ++ tr2) w = run tr2 (run tr1 w).
Proof. intros tr1 tr2 w. unfold run. apply fold_left_app. Qed.

Lemma run_shutdown_stable : forall tr w,
  shutdown (sender w) = true -> shutdown (sender (run tr w)) = true.
Proof.
  induction tr as [|a tr IH]; intros w H; [exact H|].
  apply IH, step_shutdown_stable, H.
Qed.

(** Once shut down, the sender takes no command any more: the GETs still
    made are those of the commands taken before, one each at most. *)
Lemma run_after_shutdown : forall tr w,
  shutdown (sender w) = true ->
  exists l,
    gets (log (run tr w)) = (gets (log w) ++ l)%list
    /\ (List.length l <= List.length (taken_cmds (threads w)))%nat
    /\ Forall (fun url => exists ip c,
                 In c (taken_cmds (threads w)) /\ url = command_url ip c) l.
Proof.
  induction tr as [|a tr IH]; intros w Hs.
  - exists []. rewrite app_nil_r. repeat split; [simpl; lia | constructor].
  - change (run (a :: tr) w) with (run tr (step w a)).
    destruct (IH (step w a) (step_shutdown_stable w a Hs))
      as (l & G & L & F).
    assert (Ha : no_submit a \/ exists c, a = AQueueStore c)
      by (destruct a; simpl; eauto).
    destruct Ha as [Ha | [c ->]]; [| exists l; auto].
    destruct (step_transition w a Ha)
      as [E1 E2 _ | c l1 l2 C | c l1 l2 E1 E2 _ E3].
    + exists l. rewrite G, E2. rewrite E1 in L, F. auto.
    + rewrite Hs in C. discriminate C.
    + rewrite E2 in L, F. rewrite E1.
      assert (F' : Forall (fun url => exists ip c0,
                             In c0 (l1 ++ c :: l2) /\ url = command_url ip c0) l).
      { eapply Forall_impl; [| exact F]. intros url (ip & c0 & Hin & ->).
        exists ip, c0. split; [| reflexivity].
        apply in_app_or in Hin. apply in_or_app.
        destruct Hin; [left | right; right]; assumption. }
      rewrite length_app in *. simpl List.length.
      destruct E3 as [E3 | (ip & _ & E3)]; rewrite G, E3.
      * exists l. repeat split; [lia | exact F'].
      * exists (command_url ip c :: l). rewrite <- app_assoc.
        repeat split; [simpl; lia |]. constructor; [| exact F'].
        exists ip, c. split; [| reflexivity].
        apply in_or_app. right. left. reflexivity.
Qed.

(** What does hold after [shutdown_sender]: no command that is queued is
    ever sent, however the steps of pumps and threads interleave; the only
    GETs still made are those of threads that had taken their command
    before the shutdown and not yet called [requests.get], one each at
    most; with no such thread no GET is made at all.  Calling
    [shutdown_sender] again changes nothing, and the shutdown flag, once
    true, stays true. *)
Lemma no_send_after_shutdown : forall w tr,
  (exists l,
     gets (log (run tr (step w AShutdown))) = (gets (log w) ++ l)%list
     /\ (List.length l <= List.length (taken_cmds (threads w)))%nat
     /\ Forall (fun url => exists ip c,
                  In c (taken_cmds (threads w)) /\ url = command_url ip c) l)
  /\ (taken_cmds (threads w) = [] ->
      gets (log (run tr (step w AShutdown))) = gets (log w))
  /\ shutdown (sender (run tr (step w AShutdown))) = true
  /\ step (step w AShutdown) AShutdown = step w AShutdown
  /\ shutdown_sender (shutdown_sender (sender w)) = shutdown_sender (sender w)
  /\ (forall w0 tr0, shutdown (sender w0) = true ->
        shutdown (sender (run tr0 w0)) = true).
Proof.
  intros w tr.
  destruct (run_after_shutdown tr (step w AShutdown) eq_refl) as (l & G & L & F).
  change (log (step w AShutdown)) with (log w) in G.
  change (threads (step w AShutdown)) with (threads w) in L, F.
  split; [exists l; auto | split]; [| repeat split].
  - intros Ht. rewrite Ht in L. destruct l; [| simpl in L; lia].
    rewrite G. apply app_nil_r.
  - apply run_shutdown_stable. reflexivity.
  - intros w0 tr0. apply run_shutdown_stable.
Qed.

Lemma no_send_after_shutdown_witness :
  let w := run (queue "adelante" 1000
                ++ [ATake 0%nat; ARequest 0%nat "192.168.0.101"]
                ++ queue "atras" 1010) initial_world in
  let tr := (queue "detener" 1020
             ++ [AResponse 0%nat (Status 200) 1040; AFinally 0%nat;
                 APump 1040] ++ queue "detener" 1300
             ++ [ATake 1%nat; ARequest 1%nat "192.168.0.101"])%list in
  taken_cmds (threads w) = []
  /\ gets (log (run tr (step w AShutdown))) = gets (log w)
  /\ gets (log (run tr w))
     = (gets (log w) ++ ["http://192.168.0.101/detener"%string])%list.
Proof.
  assert (H : taken_cmds
                (threads (run (queue "adelante" 1000
                               ++ [ATake 0%nat; ARequest 0%nat "192.168.0.101"]
                               ++ queue "atras" 1010) initial_world))
              = []) by reflexivity.
  split; [exact H | split; [| vm_compute; reflexivity]].
  exact (proj1 (proj2 (no_send_after_shutdown _
                  (queue "detener" 1020
                   ++ [AResponse 0%nat (Status 200) 1040; AFinally 0%nat;
                       APump 1040] ++ queue "detener" 1300
                   ++ [ATake 1%nat; ARequest 1%nat "192.168.0.101"])%list)) H).
Defined.


End Shutdown.

(* ------------------------------------------------------------------ *)
(** ** Coalescing within the rate-limit window: claim *)

Section Coalescing.

Lemma update_nth_length : forall {A} (l : list A) (n : nat) (x : A),
  List.length (update_nth n x l) = List.length l.
Proof.
  intros A l. induction l as [|y l IH]; intros n x; destruct n; simpl;
    try reflexivity. rewrite IH. reflexivity.
Qed.

Lemma update_nth_Forall : forall {A} (P : A -> Prop) (l : list A) n x,
  Forall P l -> P x -> Forall P (update_nth n x l).
Proof.
  intros A P l. induction l as [|y l IH]; intros n x Hl Hx;
    [destruct n; constructor|].
  inversion Hl; subst. destruct n; simpl; constructor; auto.
Qed.

Lemma settled_not_taken : forall ths,
  Forall settled ths -> taken_cmds ths = [].
Proof.
  induction 1 as [|t ths Ht _ IH]; [reflexivity|].
  destruct t; try contradiction; exact IH.
Qed.

(** With no send in progress, a step inside the window starts none: it
    makes no GET and leaves the clock of the rate limit alone; submissions
    only overwrite the pending command. *)
Lemma step_in_window : forall w a,
  Forall settled (threads w) -> in_window (last_ts (sender w)) a ->
  Forall settled (threads (step w a))
  /\ List.length (threads (step w a)) = List.length (threads w)
  /\ gets (log (step w a)) = gets (log w)
  /\ pending (sender (step w a))
     = last_submitted [a] (pending (sender w))
  /\ last_ts (sender (step w a)) = last_ts (sender w)
  /\ shutdown (sender (step w a)) = shutdown (sender w)
  /\ (inflight (sender w) = false -> inflight (sender (step w a)) = false).
Proof.
  intros w a Hs Ha.
  assert (idle : forall tid t,
            nth_error (threads w) tid = Some t -> settled t).
  { intros tid t H. apply nth_error_In in H.
    rewrite Forall_forall in Hs. apply Hs, H. }
  destruct a; try contradiction; cbn [step last_submitted].
  - repeat split; auto.
  - assert (N : ~ In EThread (_pump now (sender w))).
    { destruct (pump_window now (sender w) Ha) as [E|E]; rewrite E; simpl;
        intuition discriminate. }
    rewrite perform_sender, perform_log, perform_threads by exact N.
    rewrite gets_app, pump_no_get, app_nil_r. repeat split; auto.
  - destruct (nth_error (threads w) tid) as [t|] eqn:E;
      [apply idle in E; destruct t; try contradiction |];
      repeat split; auto.
  - destruct (nth_error (threads w) tid) as [t|] eqn:E;
      [apply idle in E; destruct t; try contradiction |];
      repeat split; auto.
  - destruct (nth_error (threads w) tid) as [t|] eqn:E;
      [apply idle in E; destruct t; try contradiction |];
      repeat split; auto.
  - destruct (nth_error (threads w) tid) as [t|] eqn:E;
      [destruct t |]; try (repeat split; auto; fail).
    unfold _send_finally, perform, with_thread, with_sender.
    cbn [fold_left perform1 threads sender log globals started
         set_inflight inflight last_ts pending shutdown].
    rewrite app_nil_r, update_nth_length, gets_app, app_nil_r.
    repeat split; auto. apply update_nth_Forall; [exact Hs | exact I].
  - repeat split; auto.
Qed.

Lemma last_submitted_cons : forall a tr p,
  last_submitted (a :: tr) p = last_submitted tr (last_submitted [a] p).
Proof. intros a tr p. destruct a; reflexivity. Qed.

Lemma run_in_window : forall tr w,
  Forall settled (threads w) ->
  Forall (in_window (last_ts (sender w))) tr ->
  Forall settled (threads (run tr w))
  /\ List.length (threads (run tr w)) = List.length (threads w)
  /\ gets (log (run tr w)) = gets (log w)
  /\ pending (sender (run tr w)) = last_submitted tr (pending (sender w))
  /\ last_ts (sender (run tr w)) = last_ts (sender w)
  /\ shutdown (sender (run tr w)) = shutdown (sender w)
  /\ (inflight (sender w) = false -> inflight (sender (run tr w)) = false).
Proof.
  induction tr as [|a tr IH]; intros w Hs H; [repeat split; auto|].
  inversion H as [|? ? Ha Htr]; subst.
  change (run (a :: tr) w) with (run tr (step w a)).
  destruct (step_in_window w a Hs Ha)
    as (S1 & S2 & S3 & S4 & S5 & S6 & S7).
  destruct (IH (step w a) S1) as (E1 & E2 & E3 & E4 & E5 & E6 & E7).
  { rewrite S5. exact Htr. }
  rewrite E2, E3, E4, E5, E6, S2, S3, S4, S5, S6.
  rewrite (last_submitted_cons a tr).
  split; [exact E1 | repeat split].
  intros Hi. apply E7, S7, Hi.
Qed.

Lemma coalesced_step : forall p0 g0 w a,
  no_submit a -> coalesced p0 g0 w -> coalesced p0 g0 (step w a).
Proof.
  intros p0 g0 w a Ha Hc.
  destruct (step_transition w a Ha)
    as [E1 E2 E3 | c l1 l2 _ P P' T T' G | c l1 l2 T T' P G].
  - (* nothing sent, nothing taken *)
    destruct Hc as [(Hp & Ht & Hg) | [(c & Hp0 & Hp & Ht & Hg) | (Hp & Ht & Hg)]].
    + destruct E3 as [E3|E3].
      * left. rewrite E1, E2, E3. auto.
      * right; right. rewrite E1, E2, E3, Hg. auto.
    + right; left. exists c. rewrite E1, E2.
      destruct E3 as [E3|E3]; rewrite E3; auto.
    + right; right. rewrite E1, E2.
      destruct E3 as [E3|E3]; rewrite E3; auto.
  - (* the pending command is taken *)
    destruct Hc as [(Hp & Ht & Hg) | [(c' & _ & Hp & _) | (Hp & _)]];
      try (rewrite Hp in P; discriminate P).
    right; left. exists c. rewrite Ht in T.
    destruct l1; [| discriminate T]. destruct l2; [| discriminate T].
    rewrite T', G, <- Hp, P. auto.
  - (* the taken command is sent, or given up *)
    destruct Hc as [(_ & Ht & _) | [(c' & Hp0 & Hp & Ht & Hg) | (_ & Ht & _)]];
      try (rewrite Ht in T; destruct l1; discriminate T).
    rewrite Ht in T. destruct l1 as [|x l1].
    + injection T as Ec El. subst c' l2. right; right. rewrite T', P, Hp.
      repeat split. destruct G as [G | (ip & Hip & G)]; rewrite G, Hg.
      * left. reflexivity.
      * right. exists c, ip. auto.
    + destruct l1; discriminate T.
Qed.

Lemma coalesced_run : forall tr p0 g0 w,
  Forall no_submit tr -> coalesced p0 g0 w -> coalesced p0 g0 (run tr w).
Proof.
  induction tr as [|a tr IH]; intros p0 g0 w H Hc; [exact Hc|].
  inversion H as [|? ? Ha Htr]; subst.
  apply IH; [exact Htr | apply coalesced_step; assumption].
Qed.

(** What does hold of a window: let no thread be left ahead of its send,
    and let submissions arrive, pumps run and the other steps happen within
    160 ms of [last_ts].  Inside the window no GET is made.  Whatever
    follows without a further submission makes at most one GET, and it
    carries the command submitted last.  With the sender idle, the first
    pump after the window, the thread it starts and the GET of that thread
    send that very command. *)
Lemma window_submissions_coalesce : forall w tr1 tr2,
  Forall settled (threads w) ->
  Forall (in_window (last_ts (sender w))) tr1 ->
  Forall no_submit tr2 ->
  gets (log (run tr1 w)) = gets (log w)
  /\ (gets (log (run (tr1 ++ tr2) w)) = gets (log w)
      \/ exists ip cmd,
           last_submitted tr1 (pending (sender w)) = Some cmd
           /\ truthy ip = true
           /\ gets (log (run (tr1 ++ tr2) w))
              = (gets (log w) ++ [command_url ip cmd])%list)
  /\ (forall cmd now ip_entry,
        inflight (sender w) = false -> shutdown (sender w) = false ->
        last_submitted tr1 (pending (sender w)) = Some cmd ->
        (inject_Z RATE_LIMIT_MS <= now - last_ts (sender w))%Q ->
        truthy (strip ip_entry) = true ->
        gets (log (run (tr1 ++ [APump now; ATake (List.length (threads w));
                                ARequest (List.length (threads w)) ip_entry])
                     w))
        = (gets (log w) ++ [command_url (strip ip_entry) cmd])%list).
Proof.
  intros w tr1 tr2 Ht H1 H2.
  destruct (run_in_window tr1 w Ht H1) as (E0 & E1 & E2 & E3 & E4 & E6 & E5).
  split; [exact E2 | split].
  - rewrite run_app.
    assert (C : coalesced (last_submitted tr1 (pending (sender w)))
                  (gets (log w)) (run tr1 w)).
    { left. rewrite E2, E3. auto using settled_not_taken. }
    apply (coalesced_run tr2) in C; [| exact H2].
    destruct C as [(_ & _ & G) | [(c & _ & _ & _ & G) | (_ & _ & [G | G])]];
      auto.
    destruct G as (c & ip & Hc & Hip & G). right. exists ip, c. auto.
  - intros cmd now ip Hi Hs Hc Hnow Hip. rewrite run_app.
    rewrite <- E1. rewrite <- E4 in Hnow. apply E5 in Hi.
    rewrite <- E6 in Hs. rewrite <- E3 in Hc. rewrite <- E2.
    destruct (run tr1 w) as [s g ths lg]. cbn [sender threads log] in *.
    change (run [APump now; ATake (List.length ths);
                 ARequest (List.length ths) ip] (mkWorld s g ths lg))
      with (step (step (step (mkWorld s g ths lg) (APump now))
                    (ATake (List.length ths)))
              (ARequest (List.length ths) ip)).
    rewrite step_pump_thread by (apply pump_passed with (cmd := cmd); auto).
    rewrite step_take_new with (cmd := cmd) by assumption.
    rewrite step_request_new by exact Hip.
    cbn [log]. rewrite !gets_app. cbn [gets]. rewrite app_nil_r. reflexivity.
Qed.

Lemma window_submissions_coalesce_witness :
  Forall settled (threads window_start)
  /\ Forall (in_window (last_ts (sender window_start))) two_submissions
  /\ Forall no_submit timers_fire
  /\ gets (log (run two_submissions window_start)) = gets (log window_start)
  /\ gets (log (run (two_submissions ++ timers_fire) window_start))
     = (gets (log window_start) ++ ["http://192.168.0.101/detener"%string])%list.
Proof.
  assert (H0 : Forall settled (threads window_start)) by (repeat constructor).
  assert (H1 : Forall (in_window (last_ts (sender window_start)))
                 two_submissions) by (repeat constructor).
  assert (H2 : Forall no_submit timers_fire) by (repeat constructor).
  split; [exact H0 | split; [exact H1 | split; [exact H2 |]]].
  split; [| vm_compute; reflexivity].
  exact (proj1 (window_submissions_coalesce window_start two_submissions
                  timers_fire H0 H1 H2)).
Defined.

(** C2 does not hold of the code.  [_pump] tests [inflight], which only
    the thread it starts sets: submissions that come before that thread has
    run start further threads.  A thread left over takes whatever is
    pending when it runs and sends it without a look at the clock: here two
    GETs are made 10 and 20 ms after the last send, inside one window, for
    the two commands submitted there, and they overlap. *)
Theorem window_sends_twice :
  let w := run stale_threads initial_world in
  last_ts (sender w) = 1040%Q
  /\ threads w = [TDone; TStarted; TStarted]
  /\ gets (log w) = ["http://192.168.0.101/adelante"%string]
  /\ Forall (in_window (last_ts (sender w))) window_race
  /\ gets (log (run window_race w))
     = ["http://192.168.0.101/adelante";
        "http://192.168.0.101/girar_derecha";
        "http://192.168.0.101/detener"]%string
  /\ in_flight (threads (run window_race w)) = 2%nat.
Proof.
  cbv zeta.
  split; [vm_compute; reflexivity|]. split; [vm_compute; reflexivity|].
  split; [vm_compute; reflexivity|].
  split; [|split; vm_compute; reflexivity].
  replace (last_ts (sender (run stale_threads initial_world))) with 1040%Q
    by (vm_compute; reflexivity).
  unfold window_race, queue. cbn [app].
  repeat constructor.
Qed.

End Coalescing.

(* ------------------------------------------------------------------ *)
(** ** One call at a time: where the sender falls short *)

Section Overlap.

(** C8 does not hold of the code.  [_pump] tests [inflight], yet the flag is
    set only by the thread it starts: a second [queue] before that thread
    runs starts a second thread, and the two GETs overlap.  And a thread
    that finds nothing pending clears the flag although the GET of another
    thread is under way. *)
Theorem two_sends_overlap :
  in_flight (threads (run racing_sends initial_world)) = 2%nat
  /\ gets (log (run racing_sends initial_world))
     = ["http://192.168.0.101/atras"; "http://192.168.0.101/detener"]%string
  /\ in_flight (threads (run racing_timers window_start)) = 1%nat
  /\ inflight (sender (run racing_timers window_start)) = false.
Proof. vm_compute. auto. Qed.

End Overlap.

(* ------------------------------------------------------------------ *)
(** ** The decoder's recursion budget *)

Section Decoder.

Local Open Scope nat_scope.

Ltac break_goal :=
  match goal with
  | |- context [match ?x with _ => _ end] =>
      lazymatch x with
      | context [match _ with _ => _ end] => fail
      | _ => destruct x eqn:?
      end
  end.

Lemma skip_ws_length : forall s, String.length (skip_ws s) <= String.length s.
Proof.
  induction s as [|c r IH]; simpl; [lia|].
  destruct (is_json_space c); simpl; lia.
Qed.

Lemma span_digits_length : forall s d r,
  span_digits s = (d, r) -> String.length r <= String.length s.
Proof.
  induction s as [|c s IH]; simpl; intros d r H.
  - injection H as <- <-. simpl. lia.
  - destruct (is_digit c).
    + destruct (span_digits s) as [d' r'] eqn:E. injection H as <- <-.
      specialize (IH _ _ eq_refl). lia.
    + injection H as <- <-. simpl. lia.
Qed.

Lemma scan_sign_length : forall s b r,
  scan_sign s = (b, r) -> String.length r <= String.length s.
Proof.
  intros s b r. unfold scan_sign. repeat break_goal; intros H;
    injection H as <- <-; simpl; lia.
Qed.

Lemma after_prefix_length : forall p s r,
  after_prefix p s = Some r ->
  String.length s = String.length p + String.length r.
Proof.
  induction p as [|a p IH]; intros s r H; simpl in H.
  - injection H as <-. reflexivity.
  - destruct s as [|c s]; [discriminate|].
    destruct (Ascii.eqb a c); [|discriminate].
    apply IH in H. simpl. lia.
Qed.

Lemma scan_string_length : forall n s acc k r,
  String.length s <= n ->
  scan_string s acc = Some (k, r) -> String.length r < String.length s.
Proof.
  induction n as [|n IH]; intros s acc k r Hn.
  - destruct s; [discriminate | simpl in Hn; lia].
  - destruct s as [|c s]; [discriminate|]. cbn [scan_string].
    repeat break_goal; intros H; try discriminate;
      try (injection H as <- <-; simpl; lia);
      apply IH in H; simpl in *; lia.
Qed.

Ltac length_facts :=
  repeat match goal with
  | E : span_digits _ = (_, _) |- _ => apply span_digits_length in E
  | E : scan_sign _ = (_, _) |- _ => apply scan_sign_length in E
  | E : after_prefix _ _ = Some _ |- _ => apply after_prefix_length in E
  | E : (_, _) = (_, _) |- _ => injection E as <- <-
  | E : Some _ = Some _ |- _ => injection E as <-
  end.

Lemma scan_number_length : forall s v r,
  scan_number s = Some (v, r) -> String.length r < String.length s.
Proof.
  intros s v r. unfold scan_number.
  repeat break_goal; intros H; try discriminate;
    injection H as <- <-; length_facts; simpl in *; lia.
Qed.

Lemma scan_atom_length : forall s v r,
  scan_atom s = Some (v, r) -> String.length r < String.length s.
Proof.
  intros s v r. unfold scan_atom.
  repeat break_goal; intros H;
    try (apply scan_number_length in H; exact H);
    injection H as <- <-; length_facts; simpl in *; lia.
Qed.

Ltac ws_facts :=
  repeat match goal with
  | E : skip_ws ?x = ?y |- _ =>
      let L := fresh "L" in
      pose proof (skip_ws_length x) as L; rewrite E in L; clear E
  end;
  repeat match goal with
  | H : context [String.length (skip_ws ?x)] |- _ =>
      lazymatch goal with
      | _ : String.length (skip_ws x) <= String.length x |- _ => fail
      | _ => pose proof (skip_ws_length x)
      end
  | |- context [String.length (skip_ws ?x)] =>
      lazymatch goal with
      | _ : String.length (skip_ws x) <= String.length x |- _ => fail
      | _ => pose proof (skip_ws_length x)
      end
  end.

Lemma scan_shorter : forall f,
  (forall room s v r, scan_once f room s = Found v r ->
     String.length r < String.length s)
  /\ (forall room s acc v r, parse_object f room s acc = Found v r ->
        String.length r < String.length s)
  /\ (forall room s acc v r, parse_array f room s acc = Found v r ->
        String.length r < String.length s).
Proof.
  induction f as [|f (IH1 & IH2 & IH3)];
    [repeat split; intros; discriminate|].
  repeat split.
  - intros room s v r. cbn [scan_once].
    repeat break_goal; intros H; try discriminate;
      try (injection H as <- <-);
      repeat match goal with
      | E : scan_string _ _ = Some _ |- _ =>
          apply (scan_string_length _ _ _ _ _ (Nat.le_refl _)) in E
      | E : scan_atom _ = Some _ |- _ => apply scan_atom_length in E
      | E : parse_object _ _ _ _ = Found _ _ |- _ => apply IH2 in E
      | E : parse_array _ _ _ _ = Found _ _ |- _ => apply IH3 in E
      end; ws_facts; simpl in *; lia.
  - intros room s acc v r. cbn [parse_object].
    repeat break_goal; intros H; try discriminate;
      try (injection H as <- <-);
      repeat match goal with
      | E : scan_string _ _ = Some _ |- _ =>
          apply (scan_string_length _ _ _ _ _ (Nat.le_refl _)) in E
      | E : scan_once _ _ _ = Found _ _ |- _ => apply IH1 in E
      | E : parse_object _ _ _ _ = Found _ _ |- _ => apply IH2 in E
      end; ws_facts; simpl in *; lia.
  - intros room s acc v r. cbn [parse_array].
    repeat break_goal; intros H; try discriminate;
      try (injection H as <- <-);
      repeat match goal with
      | E : scan_once _ _ _ = Found _ _ |- _ => apply IH1 in E
      | E : parse_array _ _ _ _ = Found _ _ |- _ => apply IH3 in E
      end; ws_facts; simpl in *; lia.
Qed.

Ltac scanned_facts :=
  repeat match goal with
  | E : scan_string _ _ = Some _ |- _ =>
      apply (scan_string_length _ _ _ _ _ (Nat.le_refl _)) in E
  | E : scan_once _ _ _ = Found _ _ |- _ =>
      apply (proj1 (scan_shorter _)) in E
  end.

Lemma scan_fed : forall f,
  (forall room s, 2 * String.length s + 1 <= f ->
     scan_once f room s <> Starved)
  /\ (forall room s acc, 2 * String.length s + 2 <= f ->
        parse_object f room s acc <> Starved)
  /\ (forall room s acc, 2 * String.length s + 2 <= f ->
        parse_array f room s acc <> Starved).
Proof.
  induction f as [|f (IH1 & IH2 & IH3)]; [repeat split; intros; lia|].
  repeat split.
  - intros room s Hf. cbn [scan_once].
    repeat break_goal; try discriminate; ws_facts;
      first [apply IH2 | apply IH3]; simpl in *; lia.
  - intros room s acc Hf. cbn [parse_object].
    repeat break_goal; try discriminate;
      try match goal with
      | E : scan_once _ _ _ = Starved |- _ => exfalso; revert E; apply IH1
      end;
      try apply IH2; scanned_facts; ws_facts; simpl in *; lia.
  - intros room s acc Hf. cbn [parse_array].
    repeat break_goal; try discriminate;
      try match goal with
      | E : scan_once _ _ _ = Starved |- _ => exfalso; revert E; apply IH1
      end;
      try apply IH3; scanned_facts; ws_facts; simpl in *; lia.
Qed.

Theorem scan_once_never_starves : forall room s,
  scan_once (loads_fuel s) room (skip_ws s) <> Starved.
Proof.
  intros room s. apply (proj1 (scan_fed _)). unfold loads_fuel.
  pose proof (skip_ws_length s). lia.
Qed.

End Decoder.

(* ------------------------------------------------------------------ *)
(** ** The distance parser: what holds and where it falls short *)

Section Parser.

(** No response makes the parser raise. *)
Lemma parse_never_raises : forall r,
  exists v, _parse_distance_response r = Ret v.
Proof.
  intros r. unfold _parse_distance_response.
  assert (H : exists v,
            (let txt := strip (text r) in
             if truthy txt && negb (String.eqb (lower txt) "null")
             then let txt0 := replace ","%char "."%char txt in
                  try_except (x <- float_of_str txt0;; Ret (Some x)) (Ret None)
             else Ret None) = Ret v).
  { cbv zeta. destruct (_ && _); [| eauto].
    destruct (float_of_str _); simpl; eauto. }
  destruct H as [v0 H0]. cbv zeta in H0 |- *.
  destruct (json r) as [j|]; simpl; [| eauto].
  destruct j; simpl; eauto.
  destruct (dict_get _ items) as [v|]; simpl; [| eauto].
  destruct (py_float v); simpl; eauto.
Qed.

(** An object with a numeric [cm] field yields that number. *)
Lemma parse_cm_field : forall r items v x,
  json r = Ret (VDict items) -> dict_get (codes "cm") items = Some v ->
  py_float v = Ret x ->
  _parse_distance_response r = Ret (Some x).
Proof.
  intros r items v x Hj Hd Hf. unfold _parse_distance_response.
  rewrite Hj. cbn [bind try_except]. rewrite Hd, Hf. reflexivity.
Qed.

(** A body that is valid JSON and no object yields [None], whatever its
    text: the fall-back on the text is in the [except] branch only. *)
Lemma parse_json_scalar_absent : forall r j,
  json r = Ret j -> (forall items, j <> VDict items) ->
  _parse_distance_response r = Ret None.
Proof.
  intros r j Hj Hn. unfold _parse_distance_response. rewrite Hj. simpl.
  destruct j; try reflexivity. contradiction (Hn items). reflexivity.
Qed.

(** A body that is not valid JSON is read as a float literal, commas taken
    for points; [None] if it is blank, "null" or no such literal. *)
Lemma parse_text_fallback : forall r,
  json r = Exc ->
  _parse_distance_response r
  = let txt := strip (text r) in
    if truthy txt && negb (String.eqb (lower txt) "null")
    then match float_of_str (replace ","%char "."%char txt) with
         | Ret x => Ret (Some x)
         | Exc => Ret None
         end
    else Ret None.
Proof.
  intros r Hj. unfold _parse_distance_response. rewrite Hj. simpl.
  destruct (_ && _); [| reflexivity].
  destruct (float_of_str _); reflexivity.
Qed.

Lemma parse_examples :
  _parse_distance_response (response_of "12,5") = Ret (Some (FFin (25 # 2)))
  /\ _parse_distance_response (response_of "null") = Ret None
  /\ _parse_distance_response (response_of "abc") = Ret None
  /\ _parse_distance_response (response_of cm_body)
     = Ret (Some (FFin (25 # 2))).
Proof. vm_compute. auto. Qed.

(** C3 does not hold of the code for a bare literal with a point: the body
    [12.5] is valid JSON, so [r.json()] returns the float 12.5, which is no
    [dict]; the [except] branch with the fall-back on the text is not
    entered and the parser returns [None].  The same body with a comma is
    no JSON and yields 12.5. *)
Theorem bare_point_literal_is_absent :
  json (response_of "12.5") = Ret (VFloat (FFin (25 # 2)))
  /\ _parse_distance_response (response_of "12.5") = Ret None
  /\ _parse_distance_response (response_of "7") = Ret None
  /\ _parse_distance_response (response_of "12,5")
     = Ret (Some (FFin (25 # 2))).
Proof. vm_compute. auto. Qed.

End Parser.

(* ------------------------------------------------------------------ *)
(** ** The dispatcher after a send: success, failure, the next run of the pump *)

Section MoreRounds.

Lemma do_round_succeeding : forall w x,
  inflight (sender w) = false -> shutdown (sender w) = false ->
  succeeding (last_ts (sender w)) x ->
  do_round w x =
    mkWorld
      {| pending := None; inflight := false; last_ts := r_end_at x;
         fail_count := 0; shutdown := false |}
      (globals w) (threads w ++ [TDone])
      (log w
       ++ [EThread; EGet (command_url (strip (r_ip x)) (r_cmd x)); EAfter 0]).
Proof.
  intros [[p i l f sh] g ths lg] [cmd t ip r t'] Hi Hs (Ht & Hip & Hr).
  simpl in Hi, Hs, Ht, Hip, Hr. subst i sh r.
  unfold do_round, send_round, queue, run. simpl threads.
  cbn [r_cmd r_at r_ip r_end r_end_at app fold_left].
  replace (step _ (AQueueStore cmd))
    with (mkWorld (mkSender (Some cmd) false l f false) g ths lg)
    by reflexivity.
  rewrite step_pump_thread
    by (apply pump_passed with (cmd := cmd); auto).
  rewrite step_take_new with (cmd := cmd) by reflexivity.
  rewrite step_request_new by exact Hip.
  rewrite step_response_ok.
  rewrite step_finally_new.
  cbn. rewrite <- !app_assoc. reflexivity.
Qed.

(** X1.  A send that the endpoint acknowledges with a 200 sets the failure
    count back to 0 and [last_ts] to the time of the answer, whatever the
    count was, and runs no callback: the log gains the thread, the GET and
    the re-arming of the pump.  A failure that follows counts as the first
    one: it reports "Intento fallido (1/4)", re-arms after 200 ms and
    escalates nothing. *)
Theorem success_resets_fail_count : forall w x y,
  inflight (sender w) = false -> shutdown (sender w) = false ->
  succeeding (last_ts (sender w)) x ->
  failing (r_end_at x) y ->
  fail_count (sender (do_round w x)) = 0
  /\ last_ts (sender (do_round w x)) = r_end_at x
  /\ globals (do_round w x) = globals w
  /\ log (do_round w x)
     = (log w ++ [EThread; EGet (command_url (strip (r_ip x)) (r_cmd x));
                  EAfter 0])%list
  /\ soft_errors (log (do_rounds [x; y] w))
     = (soft_errors (log w) ++ ["Intento fallido (1/4)"%string])%list
  /\ hard_disconnects (log (do_rounds [x; y] w)) = hard_disconnects (log w)
  /\ retries (log (do_rounds [x; y] w))
     = (retries (log w) ++ [0; 200; 0])%list.
Proof.
  intros w x y Hi Hs Hx Hy.
  unfold do_rounds. cbn [fold_left].
  rewrite (do_round_succeeding w x Hi Hs Hx).
  set (w1 := mkWorld _ _ _ _).
  rewrite (do_round_failing w1 y eq_refl eq_refl Hy).
  unfold w1. cbn [sender globals log fail_count].
  rewrite !soft_errors_app, !hard_disconnects_app, !retries_app.
  rewrite register_fail_effects. cbn [fail_count].
  repeat split; cbn; rewrite ?app_nil_r, <- ?app_assoc; reflexivity.
Qed.

Lemma success_resets_fail_count_witness :
  let w := do_rounds (timed_out_sends 3) initial_world in
  let x := mkRound "adelante" 4000 "192.168.0.101" (Status 200) 4040 in
  let y := mkRound "atras" 5000 "192.168.0.101" Raises 6500 in
  fail_count (sender w) = 3
  /\ succeeding (last_ts (sender w)) x /\ failing (r_end_at x) y
  /\ fail_count (sender (do_round w x)) = 0
  /\ hard_disconnects (log (do_rounds [x; y] w)) = [].
Proof.
  intros w x y.
  assert (Hx : succeeding (last_ts (sender w)) x).
  { split; [vm_compute; discriminate|]. split; reflexivity. }
  assert (Hy : failing (r_end_at x) y).
  { split; [vm_compute; discriminate|]. split; [reflexivity|discriminate]. }
  destruct (success_resets_fail_count w x y eq_refl eq_refl Hx Hy)
    as (A & _ & _ & _ & _ & B & _).
  split; [reflexivity|]. split; [exact Hx|]. split; [exact Hy|].
  split; [exact A|]. rewrite B. reflexivity.
Defined.

End MoreRounds.

Section Quiet.

Lemma run_no_submission : forall tr w,
  pending (sender w) = None -> taken_cmds (threads w) = [] ->
  Forall no_submit tr ->
  gets (log (run tr w)) = gets (log w).
Proof.
  intros tr w Hp Ht Htr.
  assert (C : coalesced None (gets (log w)) w) by (left; auto).
  apply (coalesced_run tr) in C; [|exact Htr].
  destruct C as [(_ & _ & G)|[(c & E & _)|(_ & _ & [G|(c & ip & E & _)])]];
    try discriminate; exact G.
Qed.

End Quiet.

Section RearmedPump.

Lemma py_int_floor : forall x : Q,
  (0 <= x)%Q -> (inject_Z (py_int x) <= x)%Q.
Proof.
  intros [n d] H. unfold Qle in *. simpl in *. unfold py_int. simpl.
  rewrite Z.quot_div_nonneg by lia.
  pose proof (Z.mul_div_le n (Zpos d) eq_refl). lia.
Qed.

End RearmedPump.

Section FailCount.

Lemma register_fail_count : forall s,
  fail_count (fst (_register_fail s)) = fail_count s + 1.
Proof. intros s. rewrite register_fail_sender. reflexivity. Qed.

Lemma step_fail_count : forall w a,
  0 <= fail_count (sender w) -> 0 <= fail_count (sender (step w a)).
Proof.
  intros w a H. destruct a as [c|now|tid|tid ip|tid r now|tid| |ip r];
    cbn [step].
  - exact H.
  - rewrite perform_sender. exact H.
  - destruct (nth_error (threads w) tid) as [[]|]; try exact H.
    unfold _send_take.
    destruct (pending (sender w)); [destruct (shutdown (sender w))|];
      exact H.
  - destruct (nth_error (threads w) tid) as [[]|]; try exact H.
    destruct (_send_url ip cmd_local).
    + rewrite perform_sender. exact H.
    + destruct (_register_fail (sender w)) as [s es] eqn:E.
      rewrite perform_sender. cbn [with_thread with_sender sender].
      change s with (fst (s, es)). rewrite <- E, register_fail_count. lia.
  - destruct (nth_error (threads w) tid) as [[]|]; try exact H.
    destruct (_send_result r now (sender w)) as [s es] eqn:E.
    rewrite perform_sender. cbn [with_thread with_sender sender].
    change s with (fst (s, es)). rewrite <- E.
    unfold _send_result.
    destruct r as [c|]; [destruct (c =? 200)|];
      rewrite ?register_fail_count; cbn; lia.
  - destruct (nth_error (threads w) tid) as [[]|]; exact H.
  - exact H.
  - exact H.
Qed.

Lemma run_fail_count : forall tr w,
  0 <= fail_count (sender w) -> 0 <= fail_count (sender (run tr w)).
Proof.
  induction tr as [|a tr IH]; intros w H; [exact H|].
  apply IH, step_fail_count, H.
Qed.

End FailCount.

Section DispatcherExtras.

(** X2.  A command whose send fails is dropped, not sent again: the failed
    send has left nothing pending, so the run of [_pump] that the backoff
    schedules, and any other step short of a new [queue], makes no further
    GET.  The "retry" of a soft error resends nothing by itself. *)
Theorem failed_command_is_dropped : forall w x tr,
  inflight (sender w) = false -> shutdown (sender w) = false ->
  taken_cmds (threads w) = [] ->
  failing (last_ts (sender w)) x ->
  Forall no_submit tr ->
  pending (sender (do_round w x)) = None
  /\ gets (log (run tr (do_round w x)))
     = (gets (log w) ++ [command_url (strip (r_ip x)) (r_cmd x)])%list.
Proof.
  intros w x tr Hi Hs Ht Hx Htr.
  rewrite run_no_submission; try exact Htr;
    rewrite (do_round_failing w x Hi Hs Hx); cbn [sender pending threads log].
  - split; [reflexivity|].
    rewrite !gets_app, register_fail_gets. cbn [gets app].
    reflexivity.
  - reflexivity.
  - rewrite taken_cmds_app, Ht. reflexivity.
Qed.

Lemma failed_command_is_dropped_witness :
  let x := mkRound "adelante" 1000 "192.168.0.101" Raises 2500 in
  let tr := [APump 2700; APump 2860; ATake 1%nat;
             ARequest 1%nat "192.168.0.101"; APump 5000] in
  failing (last_ts (sender initial_world)) x
  /\ Forall no_submit tr
  /\ retries (log (do_round initial_world x)) = [200; 0]
  /\ gets (log (run tr (do_round initial_world x)))
     = ["http://192.168.0.101/adelante"%string].
Proof.
  intros x tr.
  assert (Hx : failing (last_ts (sender initial_world)) x).
  { split; [unfold Qle; simpl; lia|]. split; [reflexivity|discriminate]. }
  assert (Htr : Forall no_submit tr) by (repeat constructor).
  split; [exact Hx|]. split; [exact Htr|]. split; [reflexivity|].
  exact (proj2 (failed_command_is_dropped initial_world x tr
                  eq_refl eq_refl eq_refl Hx Htr)).
Defined.

(** X3.  A run of [_pump] inside the rate-limit window, with a command
    pending and no send under way, sets one timer, of a delay between 1 and
    160 ms; when that timer fires (no earlier than its delay) the window has
    passed and [_pump] starts the send.  The clock is monotonic: [last_ts]
    is not after [now]. *)
Theorem rearmed_pump_sends : forall now s cmd later,
  inflight s = false -> shutdown s = false -> pending s = Some cmd ->
  (last_ts s <= now)%Q ->
  (now - last_ts s < inject_Z RATE_LIMIT_MS)%Q ->
  (now + inject_Z (wait_ms now s) <= later)%Q ->
  _pump now s = [EAfter (wait_ms now s)]
  /\ 0 < wait_ms now s <= RATE_LIMIT_MS
  /\ _pump later s = [EThread].
Proof.
  intros now s cmd later Hi Hs Hp Hle Hw Hl.
  pose proof (wait_ms_window _ _ Hw) as Hpos.
  assert (H0 : (0 <= now - last_ts s)%Q) by lra.
  pose proof (py_int_floor _ H0) as Hfl.
  assert (Hnn : 0 <= py_int (now - last_ts s)%Q).
  { unfold py_int. apply Z.quot_pos; [|lia].
    destruct (now - last_ts s)%Q as [n d]. unfold Qle in H0. simpl in H0.
    simpl. lia. }
  split; [|split; [split; [exact Hpos|]|]].
  - unfold _pump. rewrite Hi, Hs, Hp. cbn [orb].
    apply Z.ltb_lt in Hpos. rewrite Hpos. reflexivity.
  - unfold wait_ms, RATE_LIMIT_MS in *. lia.
  - apply pump_passed with (cmd := cmd); auto.
    assert (E : wait_ms now s = RATE_LIMIT_MS - py_int (now - last_ts s)%Q)
      by (unfold wait_ms in *; lia).
    rewrite E in Hl. unfold Z.sub in Hl.
    rewrite inject_Z_plus, inject_Z_opp in Hl. lra.
Qed.

Lemma rearmed_pump_sends_witness :
  let s := set_pending (Some "adelante"%string) (set_last_ts 1040 new_sender) in
  _pump (2101 # 2) s = [EAfter 150] /\ _pump (2401 # 2) s = [EThread].
Proof.
  intros s.
  assert (H : ((2101 # 2) + inject_Z (wait_ms (2101 # 2) s) <= 2401 # 2)%Q)
    by (vm_compute; discriminate).
  destruct (rearmed_pump_sends (2101 # 2) s "adelante" (2401 # 2)
              eq_refl eq_refl eq_refl) as (H1 & _ & H3);
    try exact H; try (vm_compute; congruence).
  split; [exact H1|exact H3].
Defined.

(** X4.  In every state the dispatcher reaches from its initial one, under
    any interleaving, the failure count is not negative, and a backoff that
    [_register_fail] schedules is of 200, 400 or 600 ms: 200 times the new
    count.  The cap of 2000 ms in [min(2000, fc * 200)] is never the
    smaller one. *)
Theorem backoff_cap_never_reached : forall tr ms,
  let s := sender (run tr initial_world) in
  0 <= fail_count s
  /\ (In (EAfter ms) (snd (_register_fail s)) ->
      ms = 200 * (fail_count s + 1) /\ 200 <= ms <= 600).
Proof.
  intros tr ms s.
  assert (H : 0 <= fail_count s)
    by (apply run_fail_count; cbn; lia).
  split; [exact H|].
  rewrite register_fail_effects.
  destruct (Z.ltb_spec (fail_count s + 1) MAX_FAILS) as [L|L];
    unfold MAX_FAILS in L; cbn [In].
  - intros [E|[E|[]]]; [discriminate|]. injection E as <-. lia.
  - intros [E|[]]. discriminate.
Qed.

End DispatcherExtras.

(* ------------------------------------------------------------------ *)
(** ** One send at a time when threads run promptly *)

Section SingleFlight.

Lemma busy_app : forall l1 l2, busy (l1 ++ l2) = (busy l1 + busy l2)%nat.
Proof.
  induction l1 as [|[] l1 IH]; intros l2; simpl; rewrite ?IH; reflexivity.
Qed.

Lemma waiting_app : forall l1 l2,
  waiting (l1 ++ l2) = (waiting l1 + waiting l2)%nat.
Proof.
  induction l1 as [|[] l1 IH]; intros l2; simpl; rewrite ?IH; reflexivity.
Qed.

Lemma in_flight_busy : forall ths, (in_flight ths <= busy ths)%nat.
Proof.
  induction ths as [|[] ths IH]; simpl; lia.
Qed.

Lemma pump_thread_inv : forall now s,
  _pump now s = [EThread] ->
  inflight s = false /\ shutdown s = false /\ exists c, pending s = Some c.
Proof.
  intros now s. unfold _pump.
  destruct (inflight s); [discriminate|].
  destruct (pending s) as [c|]; [|discriminate].
  destruct (shutdown s); [discriminate|]. eauto.
Qed.

Lemma pump_effects : forall now s,
  _pump now s = [EThread] \/ ~ In EThread (_pump now s).
Proof.
  intros now s. unfold _pump.
  destruct (inflight s || _ || shutdown s); [right; intros []|].
  destruct (0 <? wait_ms now s); [right|left; reflexivity].
  intros [E|[]]; discriminate.
Qed.

Lemma nth_error_started : forall ths tid,
  nth_error ths tid = Some TStarted -> (0 < waiting ths)%nat.
Proof.
  intros ths tid H. apply nth_error_split in H as (l1 & l2 & -> & _).
  rewrite waiting_app. simpl. lia.
Qed.

Lemma update_nth_counts : forall ths tid t0 t,
  nth_error ths tid = Some t0 ->
  (busy (update_nth tid t ths) + busy [t0] = busy ths + busy [t])%nat
  /\ (waiting (update_nth tid t ths) + waiting [t0]
      = waiting ths + waiting [t])%nat.
Proof.
  intros ths tid t0 t H.
  destruct (update_nth_split ths tid t0 t H) as (l1 & l2 & -> & ->).
  rewrite !busy_app, !waiting_app.
  change (t :: l2) with ([t] ++ l2)%list.
  change (t0 :: l2) with ([t0] ++ l2)%list.
  rewrite !busy_app, !waiting_app. lia.
Qed.

Lemma prompt_pump_one_at_a_time : forall now w,
  one_at_a_time w -> one_at_a_time (prompt_pump now w).
Proof.
  intros now [s g ths lg] (Hw & Hb & Hi). cbn [threads sender] in *.
  unfold prompt_pump. cbn [threads].
  destruct (pump_effects now s) as [E|E].
  - destruct (pump_thread_inv _ _ E) as (Ei & Es & c & Ep).
    rewrite (step_pump_thread _ _ _ _ _ E).
    rewrite (step_take_new _ _ _ _ _ Ep Es).
    assert (B : busy ths = 0%nat).
    { destruct (busy ths) as [|[|n]]; [reflexivity| |lia].
      rewrite Hi in Ei by reflexivity. discriminate. }
    unfold one_at_a_time. cbn [threads sender inflight set_inflight].
    rewrite waiting_app, busy_app, Hw, B. simpl. auto.
  - assert (T : threads (step (mkWorld s g ths lg) (APump now)) = ths)
      by (cbn [step]; rewrite perform_threads; [reflexivity|exact E]).
    assert (S : sender (step (mkWorld s g ths lg) (APump now)) = s)
      by (cbn [step]; rewrite perform_sender; reflexivity).
    destruct (step _ (APump now)) as [s' g' ths' lg'].
    cbn [threads sender] in T, S. subst s' ths'.
    cbn [step threads].
    replace (nth_error ths (List.length ths)) with (@None thread)
      by (symmetry; apply nth_error_None; lia).
    unfold one_at_a_time. cbn [threads sender]. auto.
Qed.

Lemma step_prompt_one_at_a_time : forall w a,
  one_at_a_time w -> one_at_a_time (step_prompt w a).
Proof.
  intros w a H.
  destruct a as [c|now|tid|tid ip|tid r now|tid| |ip r];
    try (apply prompt_pump_one_at_a_time; exact H);
    destruct H as (Hw & Hb & Hi); cbn [step_prompt step].
  - split; [|split]; assumption.
  - destruct (nth_error (threads w) tid) as [t|] eqn:E;
      [|split; [|split]; assumption].
    destruct t; try (split; [|split]; assumption).
    apply nth_error_started in E. lia.
  - destruct (nth_error (threads w) tid) as [t|] eqn:E;
      [|split; [|split]; assumption].
    destruct t; try (split; [|split]; assumption).
    destruct (_send_url ip cmd_local) as [url|].
    + unfold one_at_a_time.
      rewrite perform_sender, perform_threads
        by (intros [X|[]]; discriminate).
      cbn [with_thread threads sender].
      destruct (update_nth_counts _ _ _ (TInCall url) E) as (B & W).
      simpl in B, W. split; [lia|]. split; [lia|]. intros; apply Hi; lia.
    + destruct (_register_fail (sender w)) as [s es] eqn:R.
      assert (Es : s = fst (_register_fail (sender w))) by (rewrite R; auto).
      assert (Ee : es = snd (_register_fail (sender w))) by (rewrite R; auto).
      unfold one_at_a_time.
      rewrite perform_sender, perform_threads
        by (rewrite Ee; apply register_fail_no_thread).
      cbn [with_thread with_sender threads sender].
      destruct (update_nth_counts _ _ _ TFinally E) as (B & W).
      simpl in B, W. split; [lia|]. split; [lia|].
      rewrite Es, register_fail_sender. cbn [set_fail_count inflight].
      intros; apply Hi; lia.
  - destruct (nth_error (threads w) tid) as [t|] eqn:E;
      [|split; [|split]; assumption].
    destruct t; try (split; [|split]; assumption).
    destruct (_send_result r now (sender w)) as [s es] eqn:R.
    assert (Es : inflight s = inflight (sender w)).
    { replace s with (fst (_send_result r now (sender w))) by (rewrite R; auto).
      unfold _send_result.
      destruct r as [c|]; [destruct (c =? 200)|];
        rewrite ?register_fail_sender; reflexivity. }
    assert (Ee : ~ In EThread es).
    { replace es with (snd (_send_result r now (sender w)))
        by (rewrite R; auto).
      unfold _send_result.
      destruct r as [c|]; [destruct (c =? 200)|];
        try apply register_fail_no_thread. intros []. }
    unfold one_at_a_time.
    rewrite perform_sender, perform_threads by exact Ee.
    cbn [with_thread with_sender threads sender].
    destruct (update_nth_counts _ _ _ TFinally E) as (B & W).
    simpl in B, W. split; [lia|]. split; [lia|].
    rewrite Es. intros; apply Hi; lia.
  - destruct (nth_error (threads w) tid) as [t|] eqn:E;
      [|split; [|split]; assumption].
    destruct t; try (split; [|split]; assumption).
    unfold _send_finally, one_at_a_time.
    rewrite perform_sender, perform_threads
      by (intros [X|[]]; discriminate).
    cbn [with_thread with_sender threads sender].
    destruct (update_nth_counts _ _ _ TDone E) as (B & W).
    simpl in B, W. split; [lia|]. split; [lia|]. intros; lia.
  - split; [|split]; assumption.
  - split; [|split]; assumption.
Qed.

Lemma run_prompt_one_at_a_time : forall tr w,
  one_at_a_time w -> one_at_a_time (run_prompt tr w).
Proof.
  induction tr as [|a tr IH]; intros w H; [exact H|].
  apply IH, step_prompt_one_at_a_time, H.
Qed.

(** X5.  When each thread that [_pump] starts reaches its first critical
    section before any other step of the dispatcher, at most one call of
    [requests.get] is in flight at any time, [inflight] is set while it is,
    and no started thread is left waiting; this under any order of the
    other steps.  The overlap of two sends needs a second run of [_pump]
    between the start of a thread and its first critical section. *)
Theorem prompt_threads_send_one_at_a_time : forall tr,
  let w := run_prompt tr initial_world in
  (in_flight (threads w) <= 1)%nat
  /\ (in_flight (threads w) = 1%nat -> inflight (sender w) = true)
  /\ waiting (threads w) = 0%nat.
Proof.
  intros tr w.
  assert (H : one_at_a_time w).
  { apply run_prompt_one_at_a_time. repeat split; simpl; auto; lia. }
  destruct H as (Hw & Hb & Hi).
  pose proof (in_flight_busy (threads w)).
  split; [lia|]. split; [|exact Hw]. intros; apply Hi; lia.
Qed.

End SingleFlight.

(* ------------------------------------------------------------------ *)
(** ** The PWM path: when a request is made *)

Section PwmExtras.

(** X6.  [_send_pwm] makes a request exactly when the connectivity flag is
    set, the clamped value differs by 6 or more from the last acknowledged
    one or 250 ms have passed since that acknowledgement, and the address is
    not blank.  Without a request, or with an answer other than a 200 (an
    exception included), the module's state is left as it was; a 200
    records the clamped value, the time and the speed label. *)
Theorem send_pwm_requests_iff : forall pwm now ip_entry r g,
  let res := _send_pwm pwm now ip_entry r g in
  (snd res <> None
   <-> conectado g = true
       /\ (6 <= Z.abs (clamp_pwm pwm - _last_vel_val g)
           \/ (250 <= now - _last_vel_ts g)%Q)
       /\ truthy (strip ip_entry) = true)
  /\ (snd res = None \/ r <> Status 200 -> fst res = g)
  /\ (snd res <> None -> r = Status 200 ->
      fst res
      = set_last_vel (clamp_pwm pwm) now
          (fmt_2f (inject_Z (clamp_pwm pwm) / 255 * inject_Z V_MAX_KMH)
           ++ " km/h") g).
Proof.
  intros pwm now ip_entry r g res. unfold res, _send_pwm.
  destruct (conectado g); cbn [negb].
  2:{ split; [|split]; cbn; try tauto; try congruence.
      split; [congruence|]. intros (X & _). discriminate. }
  destruct (Z.ltb_spec (Z.abs (clamp_pwm pwm - _last_vel_val g)) 6) as [L|L];
    destruct (Qlt_le_dec (now - _last_vel_ts g) 250) as [T|T]; cbn [andb].
  1:{ split; [|split]; cbn; try tauto; try congruence.
      split; [congruence|]. intros (_ & [X|X] & _); [lia|lra]. }
  all: destruct (truthy (strip ip_entry)); cbn [negb];
    [|split; [|split]; cbn; try tauto; try congruence;
      split; [congruence|]; intros (_ & _ & X); discriminate].
  all: destruct r as [c|]; [destruct (Z.eqb_spec c 200) as [->|Ne]|];
    cbn [fst snd]; (split; [|split]);
    try (split; [intros _; repeat split; auto|intros _; discriminate]);
    try (intros [X|X]; [discriminate|congruence]);
    try (intros _ X; reflexivity || discriminate || congruence);
    try (intros [X|X]; reflexivity).
Qed.

(** X7.  After a PWM request that the endpoint acknowledged at [now], a
    call with a value less than 6 away from the acknowledged one, made
    less than 250 ms later, makes no request and changes nothing, whatever
    the address. *)
Theorem send_pwm_throttled_after_ack :
  forall pwm now ip_entry g pwm' now' ip_entry' r',
  snd (_send_pwm pwm now ip_entry (Status 200) g) <> None ->
  Z.abs (clamp_pwm pwm' - clamp_pwm pwm) < 6 ->
  (now' - now < 250)%Q ->
  let g' := fst (_send_pwm pwm now ip_entry (Status 200) g) in
  _last_vel_val g' = clamp_pwm pwm /\ _last_vel_ts g' = now
  /\ _send_pwm pwm' now' ip_entry' r' g' = (g', None).
Proof.
  intros pwm now ip g pwm' now' ip' r' H L T g'.
  assert (E : g' = set_last_vel (clamp_pwm pwm) now
                     (fmt_2f (inject_Z (clamp_pwm pwm) / 255
                              * inject_Z V_MAX_KMH) ++ " km/h") g).
  { unfold g'. revert H. unfold _send_pwm.
    destruct (negb (conectado g)); [intros X; destruct X; reflexivity|].
    destruct (_ && _); [intros X; destruct X; reflexivity|].
    destruct (negb (truthy (strip ip))); [intros X; destruct X; reflexivity|].
    reflexivity. }
  assert (C : conectado g = true).
  { revert H. unfold _send_pwm. destruct (conectado g); [reflexivity|].
    intros X; destruct X; reflexivity. }
  rewrite E. cbn [_last_vel_val _last_vel_ts set_last_vel].
  split; [reflexivity|]. split; [reflexivity|].
  unfold _send_pwm. cbn [conectado set_last_vel _last_vel_val _last_vel_ts].
  rewrite C. cbn [negb].
  apply Z.ltb_lt in L. rewrite L.
  destruct (Qlt_le_dec (now' - now) 250) as [_|X]; [reflexivity|lra].
Qed.

Lemma send_pwm_throttled_after_ack_witness :
  let g' := fst (_send_pwm 200 1000 "192.168.0.101" (Status 200) g_on) in
  snd (_send_pwm 200 1000 "192.168.0.101" (Status 200) g_on)
  = Some "http://192.168.0.101/velocidad?v=200"%string
  /\ Z.abs (clamp_pwm 203 - clamp_pwm 200) < 6
  /\ (1100 - 1000 < 250)%Q
  /\ _send_pwm 203 1100 "192.168.0.101" Raises g' = (g', None).
Proof.
  intros g'.
  assert (H1 : snd (_send_pwm 200 1000 "192.168.0.101" (Status 200) g_on)
               <> None) by (vm_compute; discriminate).
  assert (H2 : Z.abs (clamp_pwm 203 - clamp_pwm 200) < 6)
    by (vm_compute; reflexivity).
  assert (H3 : (1100 - 1000 < 250)%Q) by (vm_compute; reflexivity).
  split; [vm_compute; reflexivity|]. split; [exact H2|]. split; [exact H3|].
  exact (proj2 (proj2 (send_pwm_throttled_after_ack 200 1000 "192.168.0.101"
                         g_on 203 1100 "192.168.0.101" Raises H1 H2 H3))).
Defined.

End PwmExtras.

(* ------------------------------------------------------------------ *)
(** ** The timers of the two pollers *)

Section Pollers.

Local Open Scope nat_scope.

Lemma ids_of_root_after : forall ms fn fn' t,
  ids_of fn' (fst (root_after ms fn t))
  = ids_of fn' t ++ (if job_fn_eqb fn fn' then [next_job t] else []).
Proof.
  intros ms fn fn' t. unfold ids_of, root_after. cbn [fst jobs].
  rewrite filter_app, map_app. cbn [filter job_run].
  destruct (job_fn_eqb fn fn'); reflexivity.
Qed.

Lemma ids_of_after_cancel : forall fn id t,
  ids_of fn (after_cancel id t)
  = filter (fun i => negb (i =? id)) (ids_of fn t).
Proof.
  intros fn id [js n]. unfold ids_of, after_cancel. cbn [jobs].
  induction js as [|j js IH]; [reflexivity|]. cbn [filter].
  destruct (negb (job_id j =? id)) eqn:E1;
    destruct (job_fn_eqb (job_run j) fn) eqn:E2;
    cbn [filter map]; rewrite ?E1, ?E2; cbn [filter map];
    rewrite ?E1, ?IH; reflexivity.
Qed.

Lemma ids_of_sub : forall fn t id,
  In id (ids_of fn t) -> In id (map job_id (jobs t)).
Proof.
  intros fn t id H. unfold ids_of in H.
  apply in_map_iff in H as (j & E & H). apply filter_In in H as [H _].
  apply in_map_iff. eauto.
Qed.

Lemma NoDup_map_filter : forall {A B} (f : A -> B) (q : A -> bool) l,
  NoDup (map f l) -> NoDup (map f (filter q l)).
Proof.
  intros A B f q l. induction l as [|a l IH]; intros H; [constructor|].
  inversion H as [|? ? Hn Hd]; subst. cbn [filter].
  destruct (q a); [|auto]. cbn [map]. constructor; [|auto].
  intros C. apply Hn. apply in_map_iff in C as (x & E & C).
  apply filter_In in C as [C _]. apply in_map_iff. eauto.
Qed.

Lemma NoDup_all_equal : forall (l : list nat) a,
  NoDup l -> (forall x, In x l -> x = a) -> List.length l <= 1.
Proof.
  intros [|x [|y l]] a Hd Hall; simpl; try lia.
  exfalso. inversion Hd as [|? ? Hn _]; subst. apply Hn.
  rewrite (Hall x), (Hall y); simpl; auto.
Qed.

Lemma timers_ok_one : forall t u j,
  timers_ok t u j ->
  List.length (ids_of JobPollUltra t) <= 1
  /\ List.length (ids_of JobJoyPoll t) <= 1.
Proof.
  intros t u j (Hu & Hj & _ & Hd).
  split.
  - destruct u as [id|].
    + apply NoDup_all_equal with (a := id).
      * apply NoDup_map_filter, Hd.
      * intros x Hx. specialize (Hu x Hx). congruence.
    + destruct (ids_of JobPollUltra t) as [|x l]; [simpl; lia|].
      specialize (Hu x (or_introl eq_refl)). discriminate.
  - destruct j as [id|].
    + apply NoDup_all_equal with (a := id).
      * apply NoDup_map_filter, Hd.
      * intros x Hx. specialize (Hj x Hx). congruence.
    + destruct (ids_of JobJoyPoll t) as [|x l]; [simpl; lia|].
      specialize (Hj x (or_introl eq_refl)). discriminate.
Qed.

Lemma timers_ok_cancel : forall t u j id u' j',
  timers_ok t u j ->
  (u' = u \/ u = Some id) -> (j' = j \/ j = Some id) ->
  timers_ok (after_cancel id t) u' j'.
Proof.
  intros t u j id u' j' (Hu & Hj & Hf & Hd) Eu Ej.
  split; [|split; [|split]].
  - intros x Hx. rewrite ids_of_after_cancel in Hx.
    apply filter_In in Hx as [Hx Hne]. specialize (Hu x Hx).
    destruct Eu as [->|Eu]; [exact Hu|].
    rewrite Eu in Hu. injection Hu as <-.
    rewrite Nat.eqb_refl in Hne. discriminate.
  - intros x Hx. rewrite ids_of_after_cancel in Hx.
    apply filter_In in Hx as [Hx Hne]. specialize (Hj x Hx).
    destruct Ej as [->|Ej]; [exact Hj|].
    rewrite Ej in Hj. injection Hj as <-.
    rewrite Nat.eqb_refl in Hne. discriminate.
  - unfold after_cancel. cbn [jobs next_job].
    rewrite Forall_forall in *. intros x Hx.
    apply filter_In in Hx as [Hx _]. auto.
  - unfold after_cancel. cbn [jobs]. apply NoDup_map_filter, Hd.
Qed.

Lemma timers_ok_after : forall ms fn t u j,
  timers_ok t u j ->
  timers_ok (fst (root_after ms fn t))
    (match fn with JobPollUltra => Some (next_job t) | JobJoyPoll => u end)
    (match fn with JobPollUltra => j | JobJoyPoll => Some (next_job t) end)
  \/ ids_of fn t <> [].
Proof.
  intros ms fn t u j (Hu & Hj & Hf & Hd).
  destruct (ids_of fn t) as [|x l] eqn:E; [left|right; discriminate].
  split; [|split; [|split]].
  - intros id. rewrite ids_of_root_after.
    destruct fn; cbn [job_fn_eqb].
    + rewrite E. intros [<-|[]]. reflexivity.
    + rewrite app_nil_r. apply Hu.
  - intros id. rewrite ids_of_root_after.
    destruct fn; cbn [job_fn_eqb].
    + rewrite app_nil_r. apply Hj.
    + rewrite E. intros [<-|[]]. reflexivity.
  - unfold root_after. cbn [fst jobs next_job].
    apply Forall_app. split.
    + eapply Forall_impl; [|exact Hf]. cbn. intros; lia.
    + constructor; [cbn; lia|constructor].
  - unfold root_after. cbn [fst jobs]. rewrite map_app. cbn [map job_id].
    apply NoDup_app; [exact Hd|constructor; [intros []|constructor]|].
    intros a Ha [<-|[]].
    apply in_map_iff in Ha as (jb & Ejb & Ha).
    rewrite Forall_forall in Hf. specialize (Hf jb Ha). lia.
Qed.

Lemma find_job : forall fn t id,
  NoDup (map job_id (jobs t)) -> In id (ids_of fn t) ->
  exists jb, find (fun j => job_id j =? id) (jobs t) = Some jb
             /\ job_run jb = fn.
Proof.
  intros fn [js n]. unfold ids_of. cbn [jobs].
  induction js as [|j js IH]; intros id Hd H; [destruct H|].
  inversion Hd as [|? ? Hn Hd']; subst. cbn [find filter] in *.
  destruct (job_id j =? id) eqn:E.
  - apply Nat.eqb_eq in E. exists j. split; [reflexivity|].
    destruct (job_fn_eqb (job_run j) fn) eqn:F.
    + destruct (job_run j), fn; try discriminate; reflexivity.
    + exfalso. apply Hn. rewrite E.
      apply in_map_iff in H as (x & Ex & H).
      apply filter_In in H as [H _]. apply in_map_iff. eauto.
  - apply IH; [exact Hd'|].
    destruct (job_fn_eqb (job_run j) fn); [|exact H].
    destruct H as [H|H]; [|exact H].
    apply Nat.eqb_neq in E. contradiction.
Qed.

Lemma found_job : forall t id jb,
  find (fun j => job_id j =? id) (jobs t) = Some jb ->
  In id (ids_of (job_run jb) t).
Proof.
  intros t id jb H. apply find_some in H as [H E].
  apply Nat.eqb_eq in E. unfold ids_of. apply in_map_iff. exists jb.
  split; [exact E|]. apply filter_In. split; [exact H|].
  destruct (job_run jb); reflexivity.
Qed.

Ltac fields :=
  cbn [tk ultra_job joy_job dist_history last_dist objeto_presente polled
       joy_calls set_tk set_ultra_job set_joy_job set_dist_history
       set_last_dist set_objeto_presente add_polled add_joy_calls].

Lemma filter_none : forall {A} (f : A -> bool) l,
  (forall x, In x l -> f x = false) -> filter f l = [].
Proof.
  intros A f l. induction l as [|a l IH]; intros H; [reflexivity|].
  cbn [filter]. rewrite (H a (or_introl eq_refl)).
  apply IH. intros x Hx. apply H. right. exact Hx.
Qed.

Lemma ids_of_cancelled : forall fn t u j id,
  timers_ok t u j -> In id (ids_of fn t) ->
  ids_of fn (after_cancel id t) = [].
Proof.
  intros fn t u j id (Hu & Hj & _) H. rewrite ids_of_after_cancel.
  apply filter_none. intros x Hx.
  assert (E : x = id).
  { destruct fn.
    - pose proof (Hu x Hx). pose proof (Hu id H). congruence.
    - pose proof (Hj x Hx). pose proof (Hj id H). congruence. }
  subst x. rewrite Nat.eqb_refl. reflexivity.
Qed.

Lemma ids_of_cancel_nil : forall fn t id,
  ids_of fn t = [] -> ids_of fn (after_cancel id t) = [].
Proof.
  intros fn t id H. rewrite ids_of_after_cancel, H. reflexivity.
Qed.

(** A run of [_poll_ultrasonico] either returns, its last act the setting
    of the next timer, or raises with the timers as they were. *)
Lemma poll_shape : forall g ip resp dr p,
  let r := _poll_ultrasonico g ip resp dr p in
  joy_job (fst r) = joy_job p /\ joy_calls (fst r) = joy_calls p
  /\ ((snd r = Returned
       /\ tk (fst r) = fst (root_after ULTRA_POLL_MS JobPollUltra (tk p))
       /\ ultra_job (fst r) = Some (next_job (tk p)))
      \/ (snd r = Raised /\ tk (fst r) = tk p
          /\ ultra_job (fst r) = ultra_job p)).
Proof.
  intros g ip resp dr p. unfold _poll_ultrasonico, poll_append, and_then.
  destruct (negb (conectado g)).
  - destruct (dr 0); [destruct (dr 1); [destruct (dr 2)|]|]; cbn; auto 10.
  - destruct resp as [r|]; [destruct (_parse_distance_response r) as [[d|]|]|];
      destruct (dr 0); try destruct (dr 1); cbn; auto 10.
Qed.

(** What a run records when its drawing calls return. *)
Lemma poll_returns : forall e p,
  draws_return e ->
  let r := _poll_ultrasonico (env_globals e) (env_ip e) (env_resp e)
             (env_draws e) p in
  snd r = Returned
  /\ dist_history (fst r) = append_dist (dist_history p) (sample_of e)
  /\ last_dist (fst r)
     = match sample_of e with Some d => Some d | None => last_dist p end
  /\ objeto_presente (fst r)
     = match sample_of e with
       | Some d => float_le_int d 25
       | None => objeto_presente p
       end
  /\ polled (fst r)
     = (polled p
        ++ if conectado (env_globals e)
           then ["http://" ++ strip (env_ip e) ++ "/distancia"]%string
           else [])%list.
Proof.
  intros [g ip resp dr b x y] p H. unfold draws_return in H.
  cbn [env_draws env_globals env_ip env_resp] in *.
  unfold _poll_ultrasonico, poll_append, and_then, sample_of.
  cbn [env_globals env_resp].
  rewrite !H. cbn [andb].
  destruct (conectado g); cbn [negb].
  - destruct resp as [r|].
    + destruct (parse_never_raises r) as (v & ->).
      destruct v as [d|]; cbn; repeat split; auto.
      destruct (float_le_int d 25); reflexivity.
    + cbn; repeat split; auto.
  - cbn. rewrite app_nil_r. repeat split; auto.
Qed.

(** The first drawing call of a run raises: nothing is set again. *)
Lemma poll_raises : forall g ip resp dr p,
  dr 0 = false ->
  let r := _poll_ultrasonico g ip resp dr p in
  snd r = Raised /\ tk (fst r) = tk p /\ ultra_job (fst r) = ultra_job p.
Proof.
  intros g ip resp dr p H. unfold _poll_ultrasonico, poll_append, and_then.
  rewrite H. cbn [andb].
  destruct (negb (conectado g)); [cbn; auto|].
  destruct resp as [r|]; [destruct (_parse_distance_response r) as [[d|]|]|];
    cbn; auto.
Qed.

Lemma ui_step_ok : forall p ev, poll_ok p -> poll_ok (ui_step p ev).
Proof.
  intros [t u j h ld ob pl jc] ev H. unfold poll_ok in *.
  cbn [tk ultra_job joy_job] in H.
  destruct ev as [| | | |id e]; cbn [ui_step].
  - unfold _start_ultra_poll. cbn [ultra_job].
    destruct u as [id|]; [exact H|].
    destruct (timers_ok_after 40 JobPollUltra t None j H) as [K|K];
      [exact K|].
    destruct (ids_of JobPollUltra t) as [|x l] eqn:E; [contradiction|].
    destruct H as (Hu & _). specialize (Hu x). rewrite E in Hu.
    specialize (Hu (or_introl eq_refl)). discriminate.
  - unfold _stop_ultra_poll. cbn [ultra_job].
    destruct u as [id|]; [|exact H].
    cbn. apply (timers_ok_cancel t (Some id) j); auto.
  - unfold start_joy_poll. cbn [joy_job].
    destruct j as [id|]; [exact H|].
    destruct (timers_ok_after 200 JobJoyPoll t u None H) as [K|K];
      [exact K|].
    destruct (ids_of JobJoyPoll t) as [|x l] eqn:E; [contradiction|].
    destruct H as (_ & Hj & _). specialize (Hj x). rewrite E in Hj.
    specialize (Hj (or_introl eq_refl)). discriminate.
  - unfold stop_joy_poll. cbn [joy_job].
    destruct j as [id|]; [|exact H].
    cbn. apply (timers_ok_cancel t u (Some id)); auto.
  - unfold fire. cbn [tk].
    destruct (find _ (jobs t)) as [jb|] eqn:F; [|exact H].
    apply found_job in F.
    pose proof (ids_of_cancelled _ _ _ _ _ H F) as N.
    assert (C : timers_ok (after_cancel id t) u j)
      by (apply (timers_ok_cancel t u j); auto).
    destruct (job_run jb).
    + set (p1 := set_tk _ _).
      destruct (poll_shape (env_globals e) (env_ip e) (env_resp e)
                  (env_draws e) p1) as (Ej & _ & [(_ & Et & Eu)|(_ & Et & Eu)]);
        rewrite Ej, Et, Eu; unfold p1; cbn [tk set_tk ultra_job joy_job].
      * destruct (timers_ok_after ULTRA_POLL_MS JobPollUltra _ u j C)
          as [K|K]; [exact K|contradiction].
      * exact C.
    + unfold _joy_poll, rearm_joy.
      destruct (env_board e); cbn;
        (destruct (timers_ok_after JOY_POLL_MS JobJoyPoll _ u j C)
          as [K|K]; [exact K|contradiction]).
Qed.

Lemma ui_run_ok : forall evs p, poll_ok p -> poll_ok (ui_run evs p).
Proof.
  induction evs as [|ev evs IH]; intros p H; [exact H|].
  apply IH, ui_step_ok, H.
Qed.

(** With no timer of the distance poll set, an event that sets none leaves
    what the poll records as it is. *)
Lemma rearm_ultra_eq : forall ms p,
  rearm_ultra ms p
  = set_ultra_job (Some (next_job (tk p)))
      (set_tk (fst (root_after ms JobPollUltra (tk p))) p).
Proof. reflexivity. Qed.

Lemma rearm_joy_eq : forall ms p,
  rearm_joy ms p
  = set_joy_job (Some (next_job (tk p)))
      (set_tk (fst (root_after ms JobJoyPoll (tk p))) p).
Proof. reflexivity. Qed.

Lemma ui_step_quiet : forall p ev,
  poll_ok p -> ids_of JobPollUltra (tk p) = [] ->
  (ev = UStartUltra -> ultra_job p <> None) ->
  (ev = UStopUltra -> ultra_job p = None) ->
  ids_of JobPollUltra (tk (ui_step p ev)) = []
  /\ ultra_job (ui_step p ev) = ultra_job p
  /\ dist_history (ui_step p ev) = dist_history p
  /\ polled (ui_step p ev) = polled p
  /\ last_dist (ui_step p ev) = last_dist p
  /\ objeto_presente (ui_step p ev) = objeto_presente p.
Proof.
  intros [t u j h ld ob pl jc] ev H N Hstart Hstop.
  cbn [tk ultra_job] in *.
  destruct ev as [| | | |id e]; cbn [ui_step].
  - unfold _start_ultra_poll. cbn [ultra_job].
    destruct u; [auto 10|]. exfalso. apply Hstart; reflexivity.
  - unfold _stop_ultra_poll. cbn [ultra_job].
    rewrite Hstop by reflexivity. auto 10.
  - unfold start_joy_poll. cbn [joy_job].
    destruct j; [auto 10|]. rewrite rearm_joy_eq. fields.
    rewrite ids_of_root_after, N. auto 10.
  - unfold stop_joy_poll. cbn [joy_job].
    destruct j as [id|]; [|auto 10]. fields.
    rewrite ids_of_cancel_nil by exact N. auto 10.
  - unfold fire. cbn [tk].
    destruct (find _ (jobs t)) as [jb|] eqn:F; [|auto 10].
    apply found_job in F.
    destruct (job_run jb); [rewrite N in F; destruct F|].
    unfold _joy_poll. rewrite rearm_joy_eq.
    destruct (env_board e); fields;
      rewrite ids_of_root_after, ids_of_cancel_nil by exact N; auto 10.
Qed.

Lemma fire_ultra : forall p id e,
  poll_ok p -> In id (ids_of JobPollUltra (tk p)) ->
  fire id e p
  = fst (_poll_ultrasonico (env_globals e) (env_ip e) (env_resp e)
           (env_draws e) (set_tk (after_cancel id (tk p)) p))
  /\ ids_of JobPollUltra (after_cancel id (tk p)) = [].
Proof.
  intros p id e H I. split.
  - unfold fire.
    destruct H as (_ & _ & _ & Hd).
    destruct (find_job _ _ _ Hd I) as (jb & -> & ->). reflexivity.
  - exact (ids_of_cancelled _ _ _ _ _ H I).
Qed.

Lemma fire_returns : forall p id e,
  poll_ok p -> In id (ids_of JobPollUltra (tk p)) -> draws_return e ->
  let p' := fire id e p in
  dist_history p' = append_dist (dist_history p) (sample_of e)
  /\ last_dist p'
     = match sample_of e with Some d => Some d | None => last_dist p end
  /\ objeto_presente p'
     = match sample_of e with
       | Some d => float_le_int d 25
       | None => objeto_presente p
       end
  /\ polled p'
     = (polled p
        ++ if conectado (env_globals e)
           then ["http://" ++ strip (env_ip e) ++ "/distancia"]%string
           else [])%list
  /\ ultra_job p' = Some (next_job (tk p))
  /\ ids_of JobPollUltra (tk p') = [next_job (tk p)]
  /\ In (mkJob (next_job (tk p)) ULTRA_POLL_MS JobPollUltra) (jobs (tk p')).
Proof.
  intros p id e H I D p'.
  destruct (fire_ultra p id e H I) as (E & N).
  unfold p'. rewrite E. clear E p'.
  set (p1 := set_tk (after_cancel id (tk p)) p).
  destruct (poll_returns e p1 D) as (R & A & B & C & P).
  destruct (poll_shape (env_globals e) (env_ip e) (env_resp e)
              (env_draws e) p1) as (_ & _ & [(_ & Et & Eu)|(X & _)]);
    [|rewrite R in X; discriminate].
  rewrite A, B, C, P, Et, Eu. unfold p1. fields.
  rewrite ids_of_root_after, N.
  repeat split; try reflexivity.
  unfold root_after, after_cancel. cbn [fst jobs next_job].
  apply in_or_app. right. left. reflexivity.
Qed.

Lemma last_present_app : forall l1 l2 d,
  last_present (l1 ++ l2) d = last_present l2 (last_present l1 d).
Proof.
  induction l1 as [|[x|] l1 IH]; intros l2 d; cbn; auto.
Qed.

Lemma last_present_default : forall l d,
  last_present l d
  = match last_present l None with Some x => Some x | None => d end.
Proof.
  induction l as [|[x|] l IH]; intros d; cbn [last_present]; auto.
  rewrite (IH (Some x)). destruct (last_present l None); reflexivity.
Qed.

Lemma ticks_return : forall es p,
  poll_ok p -> armed p -> Forall draws_return es ->
  let p' := ticks es p in
  poll_ok p' /\ armed p'
  /\ dist_history p' = append_dists (dist_history p) (map sample_of es)
  /\ last_dist p' = last_present (map sample_of es) (last_dist p)
  /\ objeto_presente p'
     = match last_present (map sample_of es) None with
       | Some d => float_le_int d 25
       | None => objeto_presente p
       end.
Proof.
  induction es as [|e es IH]; intros p H A D; [cbn; auto 10|].
  inversion D as [|? ? De Des]; subst.
  destruct A as (id & Eu & I).
  unfold ticks. cbn [fold_left]. fold (ticks es (tick p e)).
  assert (T : tick p e = fire id e p) by (unfold tick; rewrite Eu; auto).
  destruct (fire_returns p id e H I De) as (F1 & F2 & F3 & F4 & F5 & F6 & _).
  rewrite <- T in *.
  assert (H' : poll_ok (tick p e))
    by (rewrite T; apply (ui_step_ok p (UFire id e)), H).
  assert (A' : armed (tick p e)).
  { exists (next_job (tk p)). split; [exact F5|]. rewrite F6. left; auto. }
  destruct (IH (tick p e) H' A' Des) as (G0 & G1 & G2 & G3 & G4).
  split; [exact G0|]. split; [exact G1|].
  rewrite G2, G3, G4, F1, F2, F3. cbn [map].
  split; [reflexivity|].
  destruct (sample_of e) as [d|]; cbn [last_present]; split;
    try reflexivity.
  rewrite (last_present_default (map sample_of es) (Some d)).
  destruct (last_present (map sample_of es) None); reflexivity.
Qed.

Lemma initial_polling_ok : poll_ok initial_polling.
Proof.
  split; [|split; [|split]]; cbn; try (intros id []); constructor.
Qed.

Lemma ui_run_quiet : forall evs p,
  poll_ok p -> ids_of JobPollUltra (tk p) = [] ->
  Forall (fun ev => (ev = UStartUltra -> ultra_job p <> None)
                    /\ (ev = UStopUltra -> ultra_job p = None)) evs ->
  ids_of JobPollUltra (tk (ui_run evs p)) = []
  /\ ultra_job (ui_run evs p) = ultra_job p
  /\ dist_history (ui_run evs p) = dist_history p
  /\ polled (ui_run evs p) = polled p
  /\ last_dist (ui_run evs p) = last_dist p
  /\ objeto_presente (ui_run evs p) = objeto_presente p.
Proof.
  induction evs as [|ev evs IH]; intros p H N F; [cbn; auto 10|].
  inversion F as [|? ? (F1 & F2) Fs]; subst.
  destruct (ui_step_quiet p ev H N F1 F2) as (A & B & C & D & E & G).
  unfold ui_run. cbn [fold_left]. fold (ui_run evs (ui_step p ev)).
  destruct (IH (ui_step p ev)) as (A' & B' & C' & D' & E' & G').
  - apply ui_step_ok, H.
  - exact A.
  - rewrite B. exact Fs.
  - rewrite A', B', C', D', E', G'. auto 10.
Qed.

Lemma p_started_ok : poll_ok p_started.
Proof.
  apply (ui_step_ok initial_polling UStartUltra), initial_polling_ok.
Qed.

(** X8.  Whatever the order of the calls of [_start_ultra_poll],
    [_stop_ultra_poll], [start_joy_poll], [stop_joy_poll] and of the timers
    that fire, and whatever the timers find, each poller has at most one
    timer pending, and a pending timer is the one its variable
    ([ultra_job], [joy_job]) names; starting a poller twice is starting it
    once. *)
Theorem pollers_keep_one_timer : forall evs,
  let p := ui_run evs initial_polling in
  (List.length (ids_of JobPollUltra (tk p)) <= 1)%nat
  /\ (List.length (ids_of JobJoyPoll (tk p)) <= 1)%nat
  /\ (forall id, In id (ids_of JobPollUltra (tk p)) -> ultra_job p = Some id)
  /\ (forall id, In id (ids_of JobJoyPoll (tk p)) -> joy_job p = Some id)
  /\ _start_ultra_poll (_start_ultra_poll p) = _start_ultra_poll p
  /\ start_joy_poll (start_joy_poll p) = start_joy_poll p.
Proof.
  intros evs p.
  assert (H : poll_ok p) by apply ui_run_ok, initial_polling_ok.
  destruct (timers_ok_one _ _ _ H) as (A & B).
  destruct H as (Hu & Hj & _).
  repeat split; auto.
  - unfold _start_ultra_poll. destruct (ultra_job p) eqn:E.
    + rewrite E. reflexivity.
    + reflexivity.
  - unfold start_joy_poll. destruct (joy_job p) eqn:E.
    + rewrite E. reflexivity.
    + reflexivity.
Qed.

(** X9.  A run of [_poll_ultrasonico] whose drawing calls return appends
    exactly one sample to the history (the distance parsed, or [None] when
    not connected, on a request error or on an answer without distance),
    makes one GET of [/distancia] when connected and none otherwise, and
    sets exactly one timer, of 180 ms, which [ultra_job] names. *)
Theorem poll_tick_records_and_rearms : forall p id e,
  poll_ok p -> In id (ids_of JobPollUltra (tk p)) -> draws_return e ->
  let p' := ui_step p (UFire id e) in
  dist_history p' = append_dist (dist_history p) (sample_of e)
  /\ polled p'
     = (polled p
        ++ if conectado (env_globals e)
           then ["http://" ++ strip (env_ip e) ++ "/distancia"]%string
           else [])%list
  /\ ultra_job p' = Some (next_job (tk p))
  /\ ids_of JobPollUltra (tk p') = [next_job (tk p)]
  /\ In (mkJob (next_job (tk p)) ULTRA_POLL_MS JobPollUltra) (jobs (tk p'))
  /\ poll_ok p'.
Proof.
  intros p id e H I D p'.
  destruct (fire_returns p id e H I D) as (A & _ & _ & B & C & E & F).
  repeat split; auto.
  all: apply (ui_step_ok p (UFire id e) H).
Qed.

Lemma poll_tick_records_and_rearms_witness :
  let p' := ui_step p_started (UFire 0 (env_ok cm_body)) in
  dist_history p' = [Some (FFin (25 # 2))]
  /\ polled p' = ["http://192.168.0.101/distancia"%string]
  /\ ultra_job p' = Some 1.
Proof.
  assert (I : In 0 (ids_of JobPollUltra (tk p_started))) by (left; reflexivity).
  assert (D : draws_return (env_ok cm_body)) by (intros k; reflexivity).
  destruct (poll_tick_records_and_rearms p_started 0 (env_ok cm_body)
              p_started_ok I D) as (A & B & C & _).
  split; [rewrite A; vm_compute; reflexivity|].
  split; [rewrite B; vm_compute; reflexivity|].
  rewrite C. reflexivity.
Defined.

(** X10.  After any number of runs of the distance poll whose drawing calls
    return, the history holds the last 120 samples in order, [last_dist] is
    the last sample that was present, and [objeto_presente] tells whether
    that sample was at most 25 cm: absent samples leave both as they were,
    so the flag outlives the loss of the signal. *)
Theorem poll_history_after_ticks : forall es p,
  poll_ok p -> armed p -> Forall draws_return es ->
  (List.length (dist_history p) <= DIST_HISTORY_LEN)%nat ->
  let p' := ticks es p in
  let samples := map sample_of es in
  armed p'
  /\ dist_history p'
     = skipn (List.length (dist_history p ++ samples) - DIST_HISTORY_LEN)
         (dist_history p ++ samples)
  /\ last_dist p' = last_present samples (last_dist p)
  /\ objeto_presente p'
     = match last_present samples None with
       | Some d => float_le_int d 25
       | None => objeto_presente p
       end.
Proof.
  intros es p H A D L p' samples.
  destruct (ticks_return es p H A D) as (_ & A' & B & C & E).
  split; [exact A'|]. split; [|split; [exact C|exact E]].
  unfold p'. rewrite B. unfold append_dists.
  change append_dist with (@deque_append (option pyfloat) DIST_HISTORY_LEN).
  apply fold_deque_append. exact L.
Qed.

Lemma poll_history_after_ticks_witness :
  let es := [env_ok cm_body; env_ok "null"] in
  Forall draws_return es
  /\ dist_history (ticks es p_started) = [Some (FFin (25 # 2)); None]
  /\ last_dist (ticks es p_started) = Some (FFin (25 # 2))
  /\ objeto_presente (ticks es p_started) = true.
Proof.
  intros es.
  assert (A : armed p_started)
    by (exists 0; split; [reflexivity|left; reflexivity]).
  assert (D : Forall draws_return es)
    by (repeat constructor; intros k; reflexivity).
  assert (L : List.length (dist_history p_started) <= DIST_HISTORY_LEN)
    by (vm_compute; lia).
  destruct (poll_history_after_ticks es p_started p_started_ok A D L)
    as (_ & H1 & H2 & H3).
  split; [exact D|]. split; [rewrite H1; vm_compute; reflexivity|].
  split; [rewrite H2; vm_compute; reflexivity|].
  rewrite H3. vm_compute. reflexivity.
Defined.

(** X11.  After [_stop_ultra_poll] no run of the distance poll takes
    place until [_start_ultra_poll] is called: whatever timers fire and
    whatever the joystick poller does, [ultra_job] stays [None], no GET of
    [/distancia] is made and the history, [last_dist] and
    [objeto_presente] stay as they were. *)
Theorem stopped_poll_stays_quiet : forall p evs,
  poll_ok p -> Forall no_start_ultra evs ->
  let p' := ui_run evs (_stop_ultra_poll p) in
  ultra_job p' = None
  /\ ids_of JobPollUltra (tk p') = []
  /\ dist_history p' = dist_history p
  /\ polled p' = polled p
  /\ last_dist p' = last_dist p
  /\ objeto_presente p' = objeto_presente p.
Proof.
  intros p evs H F p'.
  assert (H1 : poll_ok (_stop_ultra_poll p))
    by apply (ui_step_ok p UStopUltra), H.
  assert (U : ultra_job (_stop_ultra_poll p) = None)
    by (unfold _stop_ultra_poll; destruct (ultra_job p) eqn:E; auto).
  assert (N : ids_of JobPollUltra (tk (_stop_ultra_poll p)) = []).
  { destruct (ids_of JobPollUltra (tk (_stop_ultra_poll p))) as [|x l] eqn:E;
      [reflexivity|].
    destruct H1 as (Hu & _). specialize (Hu x). rewrite E, U in Hu.
    specialize (Hu (or_introl eq_refl)). discriminate. }
  destruct (ui_run_quiet evs (_stop_ultra_poll p) H1 N)
    as (A & B & C & D & E & G).
  { eapply Forall_impl; [|exact F]. intros ev Hev. split.
    - intros ->. destruct Hev.
    - intros _. exact U. }
  unfold p'. rewrite A, B, C, D, E, G, U.
  unfold _stop_ultra_poll. destruct (ultra_job p); auto 10.
Qed.

Lemma stopped_poll_stays_quiet_witness :
  let p := ui_run [UStartUltra; UFire 0 (env_ok cm_body)] initial_polling in
  let evs := [UFire 1 (env_ok cm_body); UStartJoy; UFire 2 (env_ok cm_body);
              UStopUltra] in
  Forall no_start_ultra evs
  /\ polled (ui_run evs (_stop_ultra_poll p))
     = ["http://192.168.0.101/distancia"%string]
  /\ dist_history (ui_run evs (_stop_ultra_poll p))
     = [Some (FFin (25 # 2))]
  /\ joy_job (ui_run evs (_stop_ultra_poll p)) = Some 3.
Proof.
  intros p evs.
  assert (H : poll_ok p) by apply ui_run_ok, initial_polling_ok.
  assert (F : Forall no_start_ultra evs) by (repeat constructor).
  destruct (stopped_poll_stays_quiet p evs H F) as (_ & _ & A & B & _).
  split; [exact F|]. split; [rewrite B; vm_compute; reflexivity|].
  split; [rewrite A; vm_compute; reflexivity|]. vm_compute. reflexivity.
Defined.

(** X12.  [_poll_ultrasonico] catches the errors of the request only, and
    sets its timer again by its last statement only.  When the first
    drawing call of a run raises, the run ends without a timer and with
    [ultra_job] still naming the one that fired; [_start_ultra_poll] then
    does nothing, and until [_stop_ultra_poll] is called no further sample
    is taken and no GET made. *)
Theorem drawing_error_stalls_poll : forall p id e evs,
  poll_ok p -> In id (ids_of JobPollUltra (tk p)) ->
  env_draws e 0 = false -> Forall no_stop_ultra evs ->
  let p1 := ui_step p (UFire id e) in
  let p' := ui_run evs p1 in
  stalled p1
  /\ stalled p'
  /\ _start_ultra_poll p' = p'
  /\ dist_history p' = dist_history p1
  /\ polled p' = polled p1
  /\ last_dist p' = last_dist p1
  /\ objeto_presente p' = objeto_presente p1.
Proof.
  intros p id e evs H I D F p1 p'.
  assert (H1 : poll_ok p1) by apply (ui_step_ok p (UFire id e)), H.
  destruct (fire_ultra p id e H I) as (E & N).
  destruct (poll_raises (env_globals e) (env_ip e) (env_resp e) (env_draws e)
              (set_tk (after_cancel id (tk p)) p) D) as (_ & Et & Eu).
  rewrite <- E in Et, Eu. cbn [tk ultra_job set_tk] in Et, Eu.
  change (fire id e p) with p1 in Et, Eu.
  assert (U : ultra_job p1 = Some id).
  { rewrite Eu. destruct H as (Hu & _). exact (Hu id I). }
  assert (N1 : ids_of JobPollUltra (tk p1) = []) by (rewrite Et; exact N).
  destruct (ui_run_quiet evs p1 H1 N1) as (A & B & C & G & K & L).
  { eapply Forall_impl; [|exact F]. intros ev Hev. split.
    - intros _. rewrite U. discriminate.
    - intros ->. destruct Hev. }
  fold p' in A, B, C, G, K, L.
  assert (S1 : stalled p1) by (split; [rewrite U; discriminate|exact N1]).
  assert (S' : stalled p')
    by (split; [rewrite B, U; discriminate|exact A]).
  repeat split; try apply S1; try apply S'; auto.
  unfold _start_ultra_poll. rewrite B, U. reflexivity.
Qed.

Lemma drawing_error_stalls_poll_witness :
  let evs := [UStartUltra; UFire 1 (env_ok cm_body);
              UFire 0 (env_ok cm_body); UStartJoy] in
  let p' := ui_run evs (ui_step p_started (UFire 0 (env_bad cm_body))) in
  env_draws (env_bad cm_body) 0 = false /\ Forall no_stop_ultra evs
  /\ ultra_job p' = Some 0 /\ jobs (tk p') = [mkJob 1 200 JobJoyPoll]
  /\ dist_history p' = [Some (FFin (25 # 2))]
  /\ polled p' = ["http://192.168.0.101/distancia"%string]
  /\ objeto_presente p' = false.
Proof.
  intros evs p'.
  assert (I0 : In 0 (ids_of JobPollUltra (tk p_started)))
    by (left; reflexivity).
  assert (F : Forall no_stop_ultra evs) by (repeat constructor).
  destruct (drawing_error_stalls_poll p_started 0 (env_bad cm_body) evs
              p_started_ok I0 eq_refl F) as (_ & _ & _ & A & B & _ & C).
  split; [reflexivity|]. split; [exact F|].
  split; [vm_compute; reflexivity|]. split; [vm_compute; reflexivity|].
  split; [fold p' in A; rewrite A; vm_compute; reflexivity|].
  split; [fold p' in B; rewrite B; vm_compute; reflexivity|].
  fold p' in C. rewrite C. vm_compute. reflexivity.
Defined.

Lemma step_same_but_globals : forall w w' a,
  sender w' = sender w -> threads w' = threads w -> log w' = log w ->
  sender (step w' a) = sender (step w a)
  /\ threads (step w' a) = threads (step w a)
  /\ log (step w' a) = log (step w a).
Proof.
  intros [s g ths lg] [s' g' ths' lg'] a Hs Ht Hl.
  cbn [sender threads log] in Hs, Ht, Hl. subst s' ths' lg'.
  destruct a as [c|now|tid|tid ip|tid r now|tid| |ip r];
    cbn [step sender threads log globals with_sender with_globals].
  - auto.
  - rewrite !perform_eq. auto.
  - destruct (nth_error ths tid) as [[]|]; auto.
    destruct (_send_take s) as [s1 taken]. auto.
  - destruct (nth_error ths tid) as [[]|]; auto.
    destruct (_send_url ip cmd_local).
    + unfold with_thread. cbn [sender globals threads log].
      rewrite !perform_eq. auto.
    + destruct (_register_fail s) as [s1 es].
      unfold with_thread, with_sender. cbn [sender globals threads log].
      rewrite !perform_eq. auto.
  - destruct (nth_error ths tid) as [[]|]; auto.
    destruct (_send_result r now s) as [s1 es].
    unfold with_thread, with_sender. cbn [sender globals threads log].
    rewrite !perform_eq. auto.
  - destruct (nth_error ths tid) as [[]|]; auto.
  - auto.
  - auto.
Qed.

Lemma run_same_but_globals : forall tr w w',
  sender w' = sender w -> threads w' = threads w -> log w' = log w ->
  sender (run tr w') = sender (run tr w)
  /\ threads (run tr w') = threads (run tr w)
  /\ log (run tr w') = log (run tr w).
Proof.
  induction tr as [|a tr IH]; intros w w' Hs Ht Hl; [auto|].
  destruct (step_same_but_globals w w' a Hs Ht Hl) as (A & B & C).
  exact (IH _ _ A B C).
Qed.

Lemma poll_disconnected : forall g ip resp dr p,
  conectado g = false ->
  polled (fst (_poll_ultrasonico g ip resp dr p)) = polled p.
Proof.
  intros g ip resp dr p H. unfold _poll_ultrasonico, poll_append, and_then.
  rewrite H. cbn [negb].
  destruct (dr 0%nat); [destruct (dr 1%nat && dr 2%nat)|]; reflexivity.
Qed.

(** X13.  The dispatcher does not read the connectivity flag.  After a health
    check that fails the flag is false, [_send_pwm] makes no request and
    the distance poll makes none; yet every run of the dispatcher proceeds
    as without the check: same fields, same threads, same GETs and
    callbacks. *)
Theorem sends_not_gated_by_connectivity : forall tr w ip_entry r,
  truthy (strip ip_entry) = true -> http_alive r = false ->
  let w' := step w (AVerify ip_entry r) in
  conectado (globals w') = false
  /\ (forall pwm now ip r',
        snd (_send_pwm pwm now ip r' (globals w')) = None)
  /\ (forall ip resp draws p,
        polled (fst (_poll_ultrasonico (globals w') ip resp draws p))
        = polled p)
  /\ sender (run tr w') = sender (run tr w)
  /\ threads (run tr w') = threads (run tr w)
  /\ log (run tr w') = log (run tr w).
Proof.
  intros tr w ip_entry r Hip Hr w'.
  assert (C : conectado (globals w') = false).
  { unfold w'. cbn [step globals with_globals]. unfold verificar_conexion.
    rewrite Hip, Hr. reflexivity. }
  destruct (run_same_but_globals tr w w' eq_refl eq_refl eq_refl)
    as (A & B & D).
  split; [exact C|]. split; [|split; [|auto]].
  - intros pwm now ip r'. unfold _send_pwm. rewrite C. reflexivity.
  - intros ip resp draws p. apply poll_disconnected, C.
Qed.

Lemma sends_not_gated_by_connectivity_witness :
  let w' := step initial_world (AVerify "192.168.0.101" Raises) in
  let tr := send_round 0 "adelante" 1000 "192.168.0.101" (Status 200) 1040 in
  truthy (strip "192.168.0.101") = true /\ http_alive Raises = false
  /\ conectado (globals w') = false
  /\ gets (log (run tr w')) = ["http://192.168.0.101/adelante"%string].
Proof.
  intros w' tr.
  destruct (sends_not_gated_by_connectivity tr initial_world "192.168.0.101"
              Raises eq_refl eq_refl) as (A & _ & _ & _ & _ & B).
  split; [reflexivity|]. split; [reflexivity|]. split; [exact A|].
  fold w' in B. rewrite B. vm_compute. reflexivity.
Defined.

End Pollers.

(* ------------------------------------------------------------------ *)
(** ** Rounding to binary64 *)

Section Rounding.

Lemma round_half_even_between : forall (n : Z) (d : positive) (A B : Z),
  A * Zpos d <= n -> n <= B * Zpos d ->
  A <= round_half_even (n # d) <= B.
Proof.
  intros n d A B HA HB. unfold round_half_even. cbn [Qnum Qden].
  pose proof (Z.div_mod n (Zpos d) ltac:(lia)) as E.
  pose proof (Z.mod_pos_bound n (Zpos d) ltac:(lia)) as M.
  assert (L : A <= n / Zpos d) by (apply Z.div_le_lower_bound; lia).
  assert (U : n / Zpos d <= B) by (apply Z.div_le_upper_bound; lia).
  assert (U' : 0 < n mod Zpos d -> n / Zpos d + 1 <= B) by nia.
  destruct (2 * (n mod Zpos d) <? Zpos d) eqn:C1; [lia|].
  apply Z.ltb_ge in C1.
  destruct (Zpos d <? 2 * (n mod Zpos d)) eqn:C2; [lia|].
  destruct (Z.even (n / Zpos d)); lia.
Qed.

Lemma floor_log2_lower : forall n d,
  0 <= floor_log2 n d -> Zpos d * 2 ^ floor_log2 n d <= Zpos n.
Proof.
  intros n d. unfold floor_log2.
  set (k := Z.log2 (Zpos n) - Z.log2 (Zpos d)).
  destruct (Z.leb_spec (Zpos d * 2 ^ Z.max 0 k)
              (Zpos n * 2 ^ Z.max 0 (- k))) as [T|T]; intros H.
  - rewrite Z.max_r in T by lia. rewrite Z.max_l in T by lia.
    rewrite Z.pow_0_r in T. lia.
  - pose proof (Z.log2_spec (Zpos n) ltac:(lia)) as (Ln & _).
    pose proof (Z.log2_spec (Zpos d) ltac:(lia)) as (_ & Ud).
    pose proof (Z.log2_nonneg (Zpos d)) as Nd.
    assert (P : 0 < 2 ^ (k - 1)) by (apply Z.pow_pos_nonneg; lia).
    assert (E : 2 ^ Z.log2 (Zpos n)
                = 2 ^ (Z.log2 (Zpos d) + 1) * 2 ^ (k - 1)).
    { rewrite <- Z.pow_add_r by lia. f_equal. unfold k. lia. }
    nia.
Qed.

Lemma floor_log2_small : forall n d,
  Zpos n < 2 ^ 53 * Zpos d -> floor_log2 n d <= 52.
Proof.
  intros n d H. destruct (Z_le_gt_dec (floor_log2 n d) 52) as [L|G]; [exact L|].
  exfalso. pose proof (floor_log2_lower n d ltac:(lia)) as F.
  assert (2 ^ 53 <= 2 ^ floor_log2 n d) by (apply Z.pow_le_mono_r; lia).
  nia.
Qed.

Lemma binary64_pos_between : forall n d a b,
  0 <= a -> b < 2 ^ 53 ->
  a * Zpos d <= Zpos n -> Zpos n <= b * Zpos d ->
  (inject_Z a <= binary64_pos n d <= inject_Z b)%Q.
Proof.
  intros n d a b Ha Hb La Ub. unfold binary64_pos.
  assert (F : floor_log2 n d <= 52) by (apply floor_log2_small; nia).
  set (e := Z.max (floor_log2 n d - 52) (-1074)).
  assert (He : e <= 0) by (unfold e; lia).
  destruct (Z.leb_spec 0 e) as [E0|E0].
  - assert (e = 0) by lia. replace e with 0 by lia.
    change (Z.to_pos (2 ^ 0)) with 1%positive. rewrite Pos.mul_1_r.
    unfold scale2. cbn [Z.leb Z.compare]. rewrite Z.pow_0_r, Z.mul_1_r.
    pose proof (round_half_even_between (Zpos n) d a b La Ub) as (X & Y).
    rewrite <- !Zle_Qle. split; assumption.
  - unfold scale2.
    destruct (Z.leb_spec 0 e) as [?|_]; [lia|].
    assert (P : 0 < 2 ^ (- e)) by (apply Z.pow_pos_nonneg; lia).
    pose proof (round_half_even_between (Zpos n * 2 ^ (- e)) d
                  (a * 2 ^ (- e)) (b * 2 ^ (- e))
                  ltac:(nia) ltac:(nia)) as (X & Y).
    unfold Qle. cbn [Qnum Qden inject_Z].
    rewrite Z2Pos.id by exact P. lia.
Qed.

(** A rounded result stays between the integers, below 2^53, that bound
    the exact one. *)
Lemma binary64_between : forall (x : Q) a b,
  0 <= a -> b < 2 ^ 53 ->
  (inject_Z a <= x)%Q -> (x <= inject_Z b)%Q ->
  (inject_Z a <= binary64 x <= inject_Z b)%Q.
Proof.
  intros [n d] a b Ha Hb La Ub. unfold Qle in La, Ub.
  cbn [Qnum Qden inject_Z] in La, Ub. unfold binary64. cbn [Qnum Qden].
  destruct n as [|n|n].
  - unfold Qle. cbn. lia.
  - apply binary64_pos_between; lia.
  - lia.
Qed.

End Rounding.

(* ------------------------------------------------------------------ *)
(** ** The joystick: normalisation and the arcade step *)

Section Joystick.

Local Open Scope Q_scope.

Lemma Qabs_cases : forall x,
  (0 <= x /\ Qabs x == x) \/ (x < 0 /\ Qabs x == - x).
Proof.
  intros x. destruct (Qlt_le_dec x 0) as [L|L].
  - right. split; [exact L|]. apply Qabs_neg. lra.
  - left. split; [exact L|]. apply Qabs_pos. exact L.
Qed.

Lemma clamp_cases : forall a b v, a <= b ->
  (v <= a /\ Qmax a (Qmin b v) == a)
  \/ (a <= v <= b /\ Qmax a (Qmin b v) == v)
  \/ (b <= v /\ Qmax a (Qmin b v) == b).
Proof.
  intros a b v H.
  destruct (Q.min_spec b v) as [[L E]|[L E]];
    destruct (Q.max_spec a (Qmin b v)) as [[L' E']|[L' E']];
    rewrite E in *; rewrite E'.
  - right. right. split; [lra|reflexivity].
  - right. right. split; [lra|lra].
  - right. left. split; [lra|reflexivity].
  - left. split; [lra|reflexivity].
Qed.







Lemma py_int_between : forall (q : Q) (a b : Z),
  (0 <= a)%Z -> inject_Z a <= q -> q <= inject_Z b ->
  (a <= py_int q <= b)%Z.
Proof.
  intros [n d] a b Ha L U. unfold Qle in L, U. simpl in L, U.
  unfold py_int. simpl.
  assert (0 <= n)%Z by nia.
  rewrite Z.quot_div_nonneg by lia. split.
  - apply Z.div_le_lower_bound; lia.
  - apply Z.div_le_upper_bound; lia.
Qed.

(** The normalised value, as computed, is between -1 and 1. *)
Lemma norm64_abs_le_1 : forall v, Qabs (_norm01_to_sym64 v DEAD) <= 1.
Proof.
  intros [v|]; [|cbn; lra]. unfold _norm01_to_sym64.
  match goal with
  | |- Qabs (if ?t then _ else ?e) <= 1 =>
      destruct t; [cbn; lra|]; set (r := e)
  end.
  assert (R : -1 <= r <= 1).
  { unfold r.
    match goal with
    | |- _ <= Qmax (-1) (Qmin 1 ?c) <= _ =>
        destruct (clamp_cases (-1) 1 c) as [(L & E)|[(L & E)|(L & E)]];
          try rewrite E; lra
    end. }
  destruct (Qabs_cases r) as [(C & EC)|(C & EC)]; rewrite EC; lra.
Qed.

(** X15.  With both pins set up, a step of the joystick, computed in
    binary64, either makes no call or queues exactly one of the four
    driving commands and then sets and sends one PWM value between 126 and
    255; it never queues "detener", so letting the stick go sends nothing.
    With a pin missing, or no reading yet on either axis, it makes no call.
    The band that counts as the stick at rest ends where the computed
    magnitude reaches the float 0.05: a reading of 0.437 on one axis, the
    other at its centre, is still at rest, where 0.436 steers left at the
    least PWM but one. *)
Theorem joy_step_calls : forall x y,
  let cs := _joy_arcade_step (Some x) (Some y) in
  (cs = []
   \/ exists cmd pwm,
        cs = [JQueue cmd; JSetPwm pwm; JSendPwm pwm]
        /\ In cmd ["adelante"; "atras"; "girar_derecha";
                   "girar_izquierda"]%string
        /\ (126 <= pwm <= 255)%Z)
  /\ (forall p, _joy_arcade_step None p = []
                /\ _joy_arcade_step p None = [])
  /\ _joy_arcade_step (Some None) (Some None) = []
  /\ _joy_arcade_step (Some (Some (437 # 1000))) (Some (Some (1 # 2))) = []
  /\ _joy_arcade_step (Some (Some (436 # 1000))) (Some (Some (1 # 2)))
     = [JQueue "girar_izquierda"; JSetPwm 127; JSendPwm 127].
Proof.
  intros x y cs.
  split; [|split; [|split; [|split]]];
    [| |vm_compute; reflexivity|vm_compute; reflexivity
     |vm_compute; reflexivity].
  - pose proof (norm64_abs_le_1 x) as Bx.
    pose proof (norm64_abs_le_1 y) as By.
    unfold cs, _joy_arcade_step.
    set (nx := _norm01_to_sym64 x DEAD) in *.
    set (ny := _norm01_to_sym64 y DEAD) in *.
    set (mag := Qmax (Qabs nx) (Qabs ny)).
    assert (M : mag <= 1).
    { unfold mag.
      destruct (Q.max_spec (Qabs nx) (Qabs ny)) as [(_ & E)|(_ & E)];
        rewrite E; assumption. }
    clearbody mag.
    destruct (Qlt_le_dec mag (binary64 (1 # 20))) as [L|L];
      [left; reflexivity|right].
    assert (T : 6 # 135 <= binary64 (1 # 20)) by (vm_compute; discriminate).
    set (t := binary64 (1 # 20)) in *. clearbody t.
    assert (P1 : inject_Z 6 <= binary64 (inject_Z (255 - 120) * mag)
                 <= inject_Z 135).
    { apply binary64_between; [lia|reflexivity| |].
      - change (inject_Z 6) with 6. change (inject_Z (255 - 120)) with 135.
        lra.
      - change (inject_Z 135) with 135.
        change (inject_Z (255 - 120)) with 135. lra. }
    assert (P2 : inject_Z 126
                 <= binary64 (120 + binary64 (inject_Z (255 - 120) * mag))
                 <= inject_Z 255).
    { apply binary64_between; [lia|reflexivity| |].
      - change (inject_Z 126) with 126. change (inject_Z 6) with 6 in P1.
        lra.
      - change (inject_Z 255) with 255.
        change (inject_Z 135) with 135 in P1. lra. }
    assert (P : (126 <= py_int (binary64
                   (120 + binary64 (inject_Z (255 - 120) * mag))) <= 255)%Z).
    { apply py_int_between; [lia|apply P2|apply P2]. }
    destruct (Qlt_le_dec (Qabs ny) (Qabs nx));
      [destruct (Qlt_le_dec 0 nx)|destruct (Qlt_le_dec 0 ny)];
      eexists; eexists; (split; [reflexivity|]); (split; [|exact P]);
      cbn; auto.
  - intros p. split; [reflexivity|]. destruct p; reflexivity.
Qed.

End Joystick.

(* ------------------------------------------------------------------ *)
(** ** Bodies that are a bare decimal literal *)

Section Literals.

Local Open Scope string_scope.

Lemma plain_char : forall c,
  plain c = true ->
  is_space c = false /\ is_json_space c = false /\ is_c_space c = false
  /\ to_lower c = c /\ to_ascii_space c = c
  /\ (code c =? 95)%N = false /\ (code c =? 45)%N = false
  /\ (code c =? 43)%N = false /\ (code c =? 34)%N = false
  /\ (code c =? 123)%N = false /\ (code c =? 91)%N = false
  /\ (code c =? 101)%N = false /\ (code c =? 69)%N = false
  /\ Ascii.eqb "n" c = false /\ Ascii.eqb "t" c = false
  /\ Ascii.eqb "f" c = false /\ Ascii.eqb "N" c = false
  /\ Ascii.eqb "I" c = false /\ Ascii.eqb "-" c = false.
Proof.
  intros [[] [] [] [] [] [] [] []] H; try discriminate H;
    vm_compute; repeat split; reflexivity.
Qed.

Lemma digit_char : forall c,
  is_digit c = true ->
  plain c = true /\ (code c =? 46)%N = false /\ (code c =? 44)%N = false
  /\ Ascii.eqb c "," = false
  /\ ((49 <=? code c) && (code c <=? 57))%N = negb (code c =? 48)%N.
Proof.
  intros [[] [] [] [] [] [] [] []] H; try discriminate H;
    vm_compute; repeat split; reflexivity.
Qed.

Lemma all_digits_plain : forall s, all_digits s = true -> all_plain s = true.
Proof.
  induction s as [|c r IH]; [reflexivity|]. cbn [all_digits all_plain].
  intros H. apply andb_prop in H as [H1 H2].
  rewrite (proj1 (digit_char c H1)), IH by exact H2. reflexivity.
Qed.

Lemma all_plain_app : forall a b,
  all_plain (a ++ b) = all_plain a && all_plain b.
Proof.
  induction a as [|c r IH]; intros b; [reflexivity|].
  cbn [append all_plain]. rewrite IH, andb_assoc. reflexivity.
Qed.

Lemma all_digits_app : forall a b,
  all_digits (a ++ b) = all_digits a && all_digits b.
Proof.
  induction a as [|c r IH]; intros b; [reflexivity|].
  cbn [append all_digits]. rewrite IH, andb_assoc. reflexivity.
Qed.

Lemma lstrip_plain : forall s, all_plain s = true -> lstrip s = s.
Proof.
  intros [|c r] H; [reflexivity|]. cbn [all_plain] in H.
  apply andb_prop in H as [H _]. cbn [lstrip].
  rewrite (proj1 (plain_char c H)). reflexivity.
Qed.

Lemma rstrip_plain : forall s, all_plain s = true -> rstrip s = s.
Proof.
  induction s as [|c r IH]; intros H; [reflexivity|]. cbn [all_plain] in H.
  apply andb_prop in H as [H1 H2]. cbn [rstrip]. rewrite IH by exact H2.
  destruct r; [|reflexivity]. rewrite (proj1 (plain_char c H1)). reflexivity.
Qed.

Lemma strip_plain : forall s, all_plain s = true -> strip s = s.
Proof.
  intros s H. unfold strip. rewrite lstrip_plain by exact H.
  apply rstrip_plain, H.
Qed.

Lemma c_lstrip_plain : forall s, all_plain s = true -> c_lstrip s = s.
Proof.
  intros [|c r] H; [reflexivity|]. cbn [all_plain] in H.
  apply andb_prop in H as [H _]. cbn [c_lstrip].
  destruct (plain_char c H) as (_ & _ & -> & _). reflexivity.
Qed.

Lemma c_rstrip_plain : forall s, all_plain s = true -> c_rstrip s = s.
Proof.
  induction s as [|c r IH]; intros H; [reflexivity|]. cbn [all_plain] in H.
  apply andb_prop in H as [H1 H2]. cbn [c_rstrip]. rewrite IH by exact H2.
  destruct r; [|reflexivity].
  destruct (plain_char c H1) as (_ & _ & -> & _). reflexivity.
Qed.

Lemma lower_plain : forall s, all_plain s = true -> lower s = s.
Proof.
  induction s as [|c r IH]; intros H; [reflexivity|]. cbn [all_plain] in H.
  apply andb_prop in H as [H1 H2]. cbn [lower]. rewrite IH by exact H2.
  destruct (plain_char c H1) as (_ & _ & _ & -> & _). reflexivity.
Qed.

Lemma to_ascii_space_plain : forall s,
  all_plain s = true -> map_string to_ascii_space s = s.
Proof.
  induction s as [|c r IH]; intros H; [reflexivity|]. cbn [all_plain] in H.
  apply andb_prop in H as [H1 H2]. cbn [map_string]. rewrite IH by exact H2.
  destruct (plain_char c H1) as (_ & _ & _ & _ & -> & _). reflexivity.
Qed.

Lemma drop_underscores_plain : forall s prev,
  all_plain s = true -> (code prev =? 95)%N = false ->
  drop_underscores prev s = Some s.
Proof.
  induction s as [|c r IH]; intros prev H P; cbn [drop_underscores].
  - rewrite P. reflexivity.
  - cbn [all_plain] in H. apply andb_prop in H as [H1 H2].
    destruct (plain_char c H1) as (_ & _ & _ & _ & _ & U & _).
    rewrite U, P. cbn [andb]. rewrite (IH c H2 U). reflexivity.
Qed.

Lemma map_string_app : forall f a b,
  map_string f (a ++ b) = map_string f a ++ map_string f b.
Proof.
  induction a as [|c r IH]; intros b; [reflexivity|].
  cbn [append map_string]. rewrite IH. reflexivity.
Qed.

Lemma replace_digits : forall s,
  all_digits s = true -> replace "," "." s = s.
Proof.
  unfold replace.
  induction s as [|c r IH]; intros H; [reflexivity|]. cbn [all_digits] in H.
  apply andb_prop in H as [H1 H2]. cbn [map_string]. rewrite IH by exact H2.
  destruct (digit_char c H1) as (_ & _ & _ & -> & _). reflexivity.
Qed.

Lemma replace_comma : forall a b,
  all_digits a = true -> all_digits b = true ->
  replace "," "." (a ++ "," ++ b) = a ++ "." ++ b.
Proof.
  intros a b Ha Hb. pose proof (replace_digits a Ha) as Ea.
  pose proof (replace_digits b Hb) as Eb. unfold replace in *.
  rewrite !map_string_app, Ea, Eb. reflexivity.
Qed.

Lemma span_digits_app : forall a r,
  all_digits a = true -> no_digit_ahead r -> span_digits (a ++ r) = (a, r).
Proof.
  induction a as [|c a IH]; intros r Ha Hr.
  - cbn [append]. destruct r as [|c r]; [reflexivity|].
    cbn [span_digits]. cbn in Hr. rewrite Hr. reflexivity.
  - cbn [all_digits] in Ha. apply andb_prop in Ha as [H1 H2].
    cbn [append span_digits]. rewrite H1, (IH r H2 Hr). reflexivity.
Qed.

Lemma append_empty : forall s, s ++ "" = s.
Proof.
  induction s as [|c r IH]; [reflexivity|]. cbn [append]. rewrite IH.
  reflexivity.
Qed.

Lemma span_digits_all : forall a,
  all_digits a = true -> span_digits a = (a, "").
Proof.
  intros a H. pose proof (span_digits_app a "" H I) as E.
  rewrite append_empty in E. exact E.
Qed.

Lemma float_of_point_literal : forall a b,
  all_digits a = true -> truthy a = true -> all_digits b = true ->
  float_of_str (a ++ "." ++ b) = Ret (literal_value a b).
Proof.
  intros a b Ha Ta Hb.
  assert (P : all_plain (a ++ "." ++ b) = true).
  { rewrite !all_plain_app, (all_digits_plain a Ha), (all_digits_plain b Hb).
    reflexivity. }
  unfold float_of_str.
  rewrite to_ascii_space_plain, drop_underscores_plain by (exact P || reflexivity).
  rewrite c_lstrip_plain, c_rstrip_plain by exact P.
  unfold float_literal.
  assert (S : scan_sign (a ++ "." ++ b) = (false, a ++ "." ++ b)).
  { destruct a as [|c a']; [discriminate|]. cbn [append scan_sign].
    cbn [all_digits] in Ha. apply andb_prop in Ha as [H1 _].
    destruct (plain_char c (proj1 (digit_char c H1)))
      as (_ & _ & _ & _ & _ & _ & -> & -> & _). reflexivity. }
  rewrite S. unfold scan_decimal.
  rewrite (span_digits_app a ("." ++ b) Ha) by reflexivity.
  cbn [append]. change (code "." =? 46)%N with true. cbv iota.
  rewrite (span_digits_all b Hb). rewrite Ta. cbn [negb andb].
  reflexivity.
Qed.

Lemma loads_fuel_S : forall s, exists f, loads_fuel s = S f.
Proof.
  intros s. unfold loads_fuel. rewrite Nat.add_comm. eexists. reflexivity.
Qed.

Lemma scan_once_digit : forall f room c r,
  is_digit c = true ->
  scan_once (S f) room (String c r)
  = match scan_number (String c r) with
    | Some (v, r') => Found v r'
    | None => Invalid
    end.
Proof.
  intros f room c r H.
  destruct (plain_char c (proj1 (digit_char c H)))
    as (_ & _ & _ & _ & _ & _ & _ & _ & Q & B & K & _ & _ & N1 & N2 & N3
        & N4 & N5 & N6).
  cbn [scan_once]. rewrite Q, B, K.
  unfold scan_atom. cbn [after_prefix]. rewrite N1, N2, N3, N4, N5, N6.
  reflexivity.
Qed.

(** A body that begins with a digit is decoded whatever the room: no
    object and no array is entered. *)
Lemma json_loads_digit : forall room c r,
  is_digit c = true ->
  json_loads room (String c r)
  = match scan_number (String c r) with
    | Some (v, r') =>
        match skip_ws r' with
        | EmptyString => Ret v
        | String _ _ => Exc
        end
    | None => Exc
    end.
Proof.
  intros room c r H. unfold json_loads.
  destruct (loads_fuel_S (String c r)) as (f & ->).
  cbn [skip_ws].
  destruct (plain_char c (proj1 (digit_char c H))) as (_ & -> & _).
  rewrite scan_once_digit by exact H.
  destruct (scan_number (String c r)) as [[v r']|]; reflexivity.
Qed.

(** The integer part that [scan_number] reads of a literal. *)
Lemma int_part_literal : forall c a' rest,
  int_literal (String c a') = true -> no_digit_ahead rest ->
  (if ((49 <=? code c) && (code c <=? 57))%N then
     let '(d, r') := span_digits (a' ++ rest) in Some (String c d, r')
   else if (code c =? 48)%N then Some (String c EmptyString, a' ++ rest)
   else None)
  = Some (String c a', rest).
Proof.
  intros c a' rest H Hr. unfold int_literal in H.
  apply andb_prop in H as [Hd Hz]. cbn [all_digits] in Hd.
  apply andb_prop in Hd as [Hc Ha].
  destruct (digit_char c Hc) as (_ & _ & _ & _ & ->).
  destruct (code c =? 48)%N; cbn [negb] in *.
  - destruct a'; [reflexivity|discriminate].
  - rewrite (span_digits_app a' rest Ha Hr). reflexivity.
Qed.

Lemma int_part_zero : forall c a' rest,
  all_digits (String c a') = true ->
  int_literal (String c a') = false ->
  (if ((49 <=? code c) && (code c <=? 57))%N then
     let '(d, r') := span_digits (a' ++ rest) in Some (String c d, r')
   else if (code c =? 48)%N then Some (String c EmptyString, a' ++ rest)
   else None)
  = Some (String c EmptyString, a' ++ rest)
  /\ exists d r, a' = String d r /\ is_digit d = true.
Proof.
  intros c a' rest Hd H. unfold int_literal in H. rewrite Hd in H.
  cbn [andb] in H. cbn [all_digits] in Hd.
  apply andb_prop in Hd as [Hc Ha].
  destruct (digit_char c Hc) as (_ & _ & _ & _ & ->).
  destruct (code c =? 48)%N; cbn [negb orb] in *; [|discriminate].
  split; [reflexivity|].
  destruct a' as [|d r]; [discriminate|]. cbn [all_digits] in Ha.
  apply andb_prop in Ha as [Hd' _]. eauto.
Qed.

Lemma not_minus : forall c, is_digit c = true -> (code c =? 45)%N = false.
Proof.
  intros c H.
  destruct (plain_char c (proj1 (digit_char c H)))
    as (_ & _ & _ & _ & _ & _ & -> & _). reflexivity.
Qed.

Lemma first_digit : forall c r,
  all_digits (String c r) = true -> is_digit c = true.
Proof.
  intros c r H. cbn [all_digits] in H. apply andb_prop in H as [H _]. exact H.
Qed.

Lemma int_literal_digits : forall a,
  int_literal a = true -> all_digits a = true /\ truthy a = true.
Proof.
  intros [|c a'] H; [discriminate|]. unfold int_literal in H.
  apply andb_prop in H as [H _]. split; [exact H|reflexivity].
Qed.

(** An integer literal alone: the [int], if it has 4300 digits at most. *)
Lemma scan_number_int : forall a,
  int_literal a = true ->
  scan_number a
  = if (INT_MAX_STR_DIGITS <? String.length a)%nat then None
    else Some (VInt (digits_value 0 a), "").
Proof.
  intros [|c a'] H; [discriminate|].
  pose proof (first_digit _ _ (proj1 (int_literal_digits _ H))) as Hc.
  pose proof (int_part_literal c a' "" H I) as E.
  rewrite append_empty in E.
  unfold scan_number. rewrite (not_minus c Hc), E. cbn [truthy].
  rewrite Z.mul_1_l. reflexivity.
Qed.

Lemma scan_number_point : forall a b,
  int_literal a = true -> all_digits b = true -> truthy b = true ->
  scan_number (a ++ "." ++ b) = Some (VFloat (literal_value a b), "").
Proof.
  intros [|c a'] b H Hb Tb; [discriminate|].
  pose proof (first_digit _ _ (proj1 (int_literal_digits _ H))) as Hc.
  pose proof (int_part_literal c a' (String "." b) H eq_refl) as E.
  unfold scan_number. cbn [append] in *. rewrite (not_minus c Hc), E.
  change (code "." =? 46)%N with true. cbv iota.
  rewrite (span_digits_all b Hb). cbv beta iota. rewrite Tb.
  cbv beta iota. rewrite ?Tb. cbv beta iota.
  rewrite Z.mul_1_l. reflexivity.
Qed.

(** After the integer part a digit or a comma ends the number, and the
    rest of the body is left unread. *)
Lemma scan_number_stops : forall c a' ip d r,
  is_digit c = true ->
  (if ((49 <=? code c) && (code c <=? 57))%N then
     let '(d, r') := span_digits a' in Some (String c d, r')
   else if (code c =? 48)%N then Some (String c EmptyString, a')
   else None)
  = Some (ip, String d r) ->
  plain d = true -> (code d =? 46)%N = false ->
  scan_number (String c a')
  = if (INT_MAX_STR_DIGITS <? String.length ip)%nat then None
    else Some (VInt (digits_value 0 ip), String d r).
Proof.
  intros c a' ip d r Hc E Hd Hp.
  unfold scan_number. rewrite (not_minus c Hc), E.
  destruct (plain_char d Hd)
    as (_ & _ & _ & _ & _ & _ & _ & _ & _ & _ & _ & E1 & E2 & _).
  rewrite Hp, E1, E2. cbn [orb truthy]. rewrite Z.mul_1_l. reflexivity.
Qed.

Lemma json_loads_int : forall room a,
  int_literal a = true ->
  json_loads room a
  = if (INT_MAX_STR_DIGITS <? String.length a)%nat then Exc
    else Ret (VInt (digits_value 0 a)).
Proof.
  intros room a H. pose proof (scan_number_int a H) as E.
  pose proof (proj1 (int_literal_digits _ H)) as Ha.
  destruct a as [|c a']; [discriminate|].
  rewrite json_loads_digit, E by exact (first_digit _ _ Ha).
  destruct (_ <? _)%nat; reflexivity.
Qed.

Lemma json_loads_point : forall room a b,
  int_literal a = true -> all_digits b = true -> truthy b = true ->
  json_loads room (a ++ "." ++ b) = Ret (VFloat (literal_value a b)).
Proof.
  intros room a b H Hb Tb. pose proof (scan_number_point a b H Hb Tb) as E.
  pose proof (proj1 (int_literal_digits _ H)) as Ha.
  destruct a as [|c a']; [discriminate|]. cbn [append] in *.
  rewrite json_loads_digit, E by exact (first_digit _ _ Ha). reflexivity.
Qed.

Lemma json_loads_comma : forall room a b,
  all_digits a = true -> truthy a = true ->
  json_loads room (a ++ "," ++ b) = Exc.
Proof.
  intros room [|c a'] b Ha Ta; [discriminate|].
  pose proof (first_digit _ _ Ha) as Hc.
  cbn [append]. rewrite json_loads_digit by exact Hc.
  destruct (int_literal (String c a')) eqn:L.
  - pose proof (int_part_literal c a' (String "," b) L eq_refl) as E.
    rewrite (scan_number_stops c _ _ _ _ Hc E) by reflexivity.
    destruct (_ <? _)%nat; reflexivity.
  - destruct (int_part_zero c a' (String "," b) Ha L)
      as (E & d & r & -> & Hd).
    cbn [append] in *.
    destruct (digit_char d Hd) as (Pd & Nd & _).
    rewrite (scan_number_stops c _ _ _ _ Hc E Pd Nd).
    destruct (_ <? _)%nat; [reflexivity|].
    cbn [skip_ws]. destruct (plain_char d Pd) as (_ & -> & _). reflexivity.
Qed.

Lemma json_loads_leading_zero : forall room a b,
  all_digits a = true -> truthy a = true -> int_literal a = false ->
  json_loads room (a ++ "." ++ b) = Exc.
Proof.
  intros room [|c a'] b Ha Ta L; [discriminate|].
  pose proof (first_digit _ _ Ha) as Hc.
  cbn [append]. rewrite json_loads_digit by exact Hc.
  destruct (int_part_zero c a' (String "." b) Ha L)
    as (E & d & r & -> & Hd).
  cbn [append] in *.
  destruct (digit_char d Hd) as (Pd & Nd & _).
  rewrite (scan_number_stops c _ _ _ _ Hc E Pd Nd).
  destruct (_ <? _)%nat; [reflexivity|].
  cbn [skip_ws]. destruct (plain_char d Pd) as (_ & -> & _). reflexivity.
Qed.

Lemma float_of_digits : forall a,
  all_digits a = true -> truthy a = true ->
  float_of_str a = Ret (literal_value a "").
Proof.
  intros a Ha Ta.
  pose proof (all_digits_plain a Ha) as P.
  unfold float_of_str.
  rewrite to_ascii_space_plain, drop_underscores_plain by (exact P || reflexivity).
  rewrite c_lstrip_plain, c_rstrip_plain by exact P.
  unfold float_literal.
  assert (S : scan_sign a = (false, a)).
  { destruct a as [|c a']; [discriminate|]. cbn [scan_sign].
    destruct (plain_char c (proj1 (digit_char c (first_digit _ _ Ha))))
      as (_ & _ & _ & _ & _ & _ & -> & -> & _). reflexivity. }
  rewrite S. unfold scan_decimal.
  rewrite (span_digits_all a Ha). cbv beta iota. rewrite Ta.
  reflexivity.
Qed.

Lemma json_loads_zeros : forall room a,
  all_digits a = true -> truthy a = true -> int_literal a = false ->
  json_loads room a = Exc.
Proof.
  intros room [|c a'] Ha Ta L; [discriminate|].
  pose proof (first_digit _ _ Ha) as Hc.
  rewrite json_loads_digit by exact Hc.
  destruct (int_part_zero c a' "" Ha L) as (E & d & r & -> & Hd).
  rewrite append_empty in E.
  destruct (digit_char d Hd) as (Pd & Nd & _).
  rewrite (scan_number_stops c _ _ _ _ Hc E Pd Nd).
  destruct (_ <? _)%nat; [reflexivity|].
  cbn [skip_ws]. destruct (plain_char d Pd) as (_ & -> & _). reflexivity.
Qed.

(** The text branch of the parser on a body of digits, points and commas
    that begins with a digit. *)
Lemma parse_plain_text : forall r,
  json r = Exc -> all_plain (text r) = true ->
  (exists c s, text r = String c s /\ is_digit c = true) ->
  _parse_distance_response r
  = match float_of_str (replace "," "." (text r)) with
    | Ret x => Ret (Some x)
    | Exc => Ret None
    end.
Proof.
  intros r J P (c & s & E & Hc).
  rewrite (parse_text_fallback r J). cbv zeta.
  rewrite (strip_plain _ P), (lower_plain _ P), E. cbn [truthy andb].
  destruct (String.eqb_spec (String c s) "null") as [X|_]; [|reflexivity].
  injection X as -> _. discriminate.
Qed.

Lemma replace_point : forall a b,
  all_digits a = true -> all_digits b = true ->
  replace "," "." (a ++ "." ++ b) = a ++ "." ++ b.
Proof.
  intros a b Ha Hb. pose proof (replace_digits a Ha) as Ea.
  pose proof (replace_digits b Hb) as Eb. unfold replace in *.
  rewrite !map_string_app, Ea, Eb. reflexivity.
Qed.

(** X16.  For digits [a] and [b], none of them empty, and whatever the room
    the recursion limit leaves: the body [a,b] yields the number a.b; the
    body [a.b] yields absent when [a] is an integer as JSON writes it (no
    leading zero), since [r.json()] then decodes the body and the text
    branch is not entered, and yields the number when [a] has a leading
    zero, which JSON rejects; the body [a] alone yields absent when it is
    such an integer of 4300 digits at most, and the number, as [float]
    reads it, when it has a leading zero or more digits than [int]
    accepts. *)
Theorem literal_bodies : forall room a b,
  all_digits a = true -> truthy a = true ->
  all_digits b = true -> truthy b = true ->
  _parse_distance_response (response_within room (a ++ "," ++ b))
  = Ret (Some (literal_value a b))
  /\ _parse_distance_response (response_within room (a ++ "." ++ b))
     = (if int_literal a then Ret None else Ret (Some (literal_value a b)))
  /\ _parse_distance_response (response_within room a)
     = (if int_literal a
           && (String.length a <=? INT_MAX_STR_DIGITS)%nat
        then Ret None
        else Ret (Some (literal_value a ""))).
Proof.
  intros room a b Ha Ta Hb Tb.
  assert (Pa : all_plain a = true) by apply all_digits_plain, Ha.
  assert (Pb : all_plain b = true) by apply all_digits_plain, Hb.
  assert (F : exists c s, a = String c s /\ is_digit c = true).
  { destruct a as [|c s]; [discriminate|]. exists c, s.
    split; [reflexivity|]. apply (first_digit _ _ Ha). }
  split; [|split].
  - rewrite parse_plain_text.
    + cbn [text response_within]. rewrite (replace_comma a b Ha Hb).
      rewrite (float_of_point_literal a b Ha Ta Hb). reflexivity.
    + apply json_loads_comma; assumption.
    + cbn [text response_within]. rewrite !all_plain_app, Pa, Pb.
      reflexivity.
    + destruct F as (c & s & -> & Hc). cbn [text response_within append].
      eauto.
  - destruct (int_literal a) eqn:L.
    + apply parse_json_scalar_absent with (j := VFloat (literal_value a b)).
      * apply json_loads_point; assumption.
      * discriminate.
    + rewrite parse_plain_text.
      * cbn [text response_within]. rewrite (replace_point a b Ha Hb).
        rewrite (float_of_point_literal a b Ha Ta Hb). reflexivity.
      * apply json_loads_leading_zero; assumption.
      * cbn [text response_within]. rewrite !all_plain_app, Pa, Pb.
        reflexivity.
      * destruct F as (c & s & -> & Hc).
        cbn [text response_within append]. eauto.
  - assert (T : forall J : json (response_within room a) = Exc,
              _parse_distance_response (response_within room a)
              = Ret (Some (literal_value a ""))).
    { intros J. rewrite parse_plain_text; [|exact J|exact Pa|exact F].
      cbn [text response_within]. rewrite (replace_digits a Ha).
      rewrite (float_of_digits a Ha Ta). reflexivity. }
    destruct (int_literal a) eqn:L; cbn [andb].
    + pose proof (json_loads_int room a L) as J.
      rewrite Nat.leb_antisym.
      destruct (INT_MAX_STR_DIGITS <? String.length a)%nat; cbn [negb].
      * apply T, J.
      * apply parse_json_scalar_absent with (j := VInt (digits_value 0 a));
          [exact J|discriminate].
    + apply T. apply json_loads_zeros; assumption.
Qed.

Lemma literal_bodies_witness :
  all_digits "007" = true /\ int_literal "007" = false
  /\ _parse_distance_response (response_within 0 "007,50")
     = Ret (Some (FFin (15 # 2)))
  /\ _parse_distance_response (response_within 0 "007.50")
     = Ret (Some (FFin (15 # 2)))
  /\ _parse_distance_response (response_within 0 "007") = Ret (Some (FFin 7)).
Proof.
  destruct (literal_bodies 0 "007" "50" eq_refl eq_refl eq_refl eq_refl)
    as (A & B & C).
  split; [reflexivity|]. split; [reflexivity|].
  split; [exact A|]. split; [exact B|exact C].
Defined.

End Literals.

(* ------------------------------------------------------------------ *)
(** ** Bodies that are an object *)

Section ObjectBodies.

Local Open Scope string_scope.

Lemma scan_number_no_dict : forall s v r items,
  scan_number s = Some (v, r) -> v <> VDict items.
Proof.
  intros s v r items H. unfold scan_number in H.
  repeat match type of H with
  | context [match ?x with _ => _ end] =>
      lazymatch x with
      | context [match _ with _ => _ end] => fail
      | _ => destruct x eqn:?
      end
  end; try discriminate; injection H as <- _; discriminate.
Qed.

Lemma scan_atom_no_dict : forall s v r items,
  scan_atom s = Some (v, r) -> v <> VDict items.
Proof.
  intros s v r items H. unfold scan_atom in H.
  repeat match type of H with
  | context [match after_prefix ?p ?x with _ => _ end] =>
      destruct (after_prefix p x)
  end;
  try (injection H as <- _; discriminate).
  exact (scan_number_no_dict _ _ _ _ H).
Qed.

Lemma parse_array_no_dict : forall f room s acc v r items,
  parse_array f room s acc = Found v r -> v <> VDict items.
Proof.
  induction f as [|f IH]; intros room s acc v r items H; [discriminate|].
  cbn [parse_array] in H.
  destruct (scan_once f room s) as [val r1| | |]; try discriminate.
  destruct (skip_ws r1) as [|d r2]; [discriminate|].
  destruct (code d =? 93)%N; [injection H as <- _; discriminate|].
  destruct (code d =? 44)%N; [|discriminate].
  exact (IH _ _ _ _ _ _ H).
Qed.

Lemma code_brace : forall c, (code c =? 123)%N = true -> c = "{"%char.
Proof.
  intros [[] [] [] [] [] [] [] []] H; try discriminate H; reflexivity.
Qed.

Lemma scan_once_dict : forall f room s items r,
  scan_once f room s = Found (VDict items) r ->
  exists s', s = String "{" s'.
Proof.
  intros [|f] room s items r H; [discriminate|]. cbn [scan_once] in H.
  destruct s as [|c s']; [discriminate|].
  destruct (code c =? 34)%N.
  { destruct (scan_string s' []) as [[str r']|]; discriminate. }
  destruct (code c =? 123)%N eqn:B.
  { apply code_brace in B. subst c. eauto. }
  destruct (code c =? 91)%N.
  { destruct room as [|room]; [discriminate|].
    destruct (skip_ws s') as [|c' r'] eqn:W.
    - exfalso. exact (parse_array_no_dict _ _ _ _ _ _ items H eq_refl).
    - destruct (code c' =? 93)%N; [discriminate|].
      exfalso. exact (parse_array_no_dict _ _ _ _ _ _ items H eq_refl). }
  destruct (scan_atom (String c s')) as [[v r']|] eqn:A; [|discriminate].
  injection H as -> _.
  exfalso. exact (scan_atom_no_dict _ _ _ items A eq_refl).
Qed.

Lemma json_space_is_space : forall c, is_json_space c = true -> is_space c = true.
Proof.
  intros [[] [] [] [] [] [] [] []] H; try discriminate H; reflexivity.
Qed.

Lemma lstrip_after_ws : forall s r,
  skip_ws s = String "{" r -> lstrip s = String "{" r.
Proof.
  induction s as [|a s IH]; intros r H; [discriminate|].
  cbn [skip_ws lstrip] in *.
  destruct (is_json_space a) eqn:J.
  - rewrite (json_space_is_space a J). apply IH, H.
  - injection H as -> ->. reflexivity.
Qed.

Lemma rstrip_brace : forall r, exists r', rstrip (String "{" r) = String "{" r'.
Proof.
  intros r. cbn [rstrip]. change (is_space "{") with false.
  destruct (rstrip r); eauto.
Qed.

Lemma c_rstrip_brace : forall r,
  exists r', c_rstrip (String "{" r) = String "{" r'.
Proof.
  intros r. cbn [c_rstrip]. change (is_c_space "{") with false.
  destruct (c_rstrip r); eauto.
Qed.

(** No text that begins with a brace is a float. *)
Lemma float_of_brace : forall r,
  float_of_str (replace "," "." (String "{" r)) = Exc.
Proof.
  intros r. unfold float_of_str, replace. cbn [map_string].
  change (if Ascii.eqb "{" "," then "."%char else "{"%char) with "{"%char.
  change (to_ascii_space "{") with "{"%char.
  cbn [drop_underscores].
  change (code "{" =? 95)%N with false. cbv iota.
  change ((code "000" =? 95)%N && negb (is_digit "{")) with false. cbv iota.
  destruct (drop_underscores "{" _) as [r'|]; [|reflexivity].
  change (c_lstrip (String "{" r')) with (String "{" r').
  destruct (c_rstrip_brace r') as (r'' & ->).
  reflexivity.
Qed.

(** X17.  For a body that [r.json()] decodes as an object, with the room
    the recursion limit leaves, the parser yields [float] of the [cm] field
    when the object has one that [float] accepts, and absent otherwise: the
    [TypeError] or [ValueError] of [float(j["cm"])] is caught, and the text
    of an object, which begins with a brace, is no float.  So a [cm] field
    of [null], or the string 12,5 with its comma, yields absent, where the
    string 12.5, also written in the digits of another script, yields the
    number. *)
Theorem object_bodies : forall room body items,
  json_loads room body = Ret (VDict items) ->
  _parse_distance_response (response_within room body)
  = match dict_get (codes "cm") items with
    | Some v =>
        match py_float v with
        | Ret x => Ret (Some x)
        | Exc => Ret None
        end
    | None => Ret None
    end.
Proof.
  intros room body items J.
  unfold _parse_distance_response. cbn [json text response_within].
  rewrite J. cbn [bind].
  destruct (dict_get (codes "cm") items) as [v|]; [|reflexivity].
  destruct (py_float v) as [x|]; [reflexivity|]. cbn [bind try_except].
  assert (B : exists r, strip body = String "{" r).
  { unfold json_loads in J.
    destruct (scan_once (loads_fuel body) room (skip_ws body))
      as [j r| | |] eqn:S; try discriminate.
    destruct (skip_ws r); [|discriminate]. injection J as ->.
    destruct (scan_once_dict _ _ _ _ _ S) as (s' & E).
    unfold strip. rewrite (lstrip_after_ws _ _ E). apply rstrip_brace. }
  destruct B as (r & ->).
  destruct (truthy _ && _); [|reflexivity].
  rewrite float_of_brace. reflexivity.
Qed.

Lemma object_bodies_witness :
  json_loads 1 (cm_field_body "null") = Ret (VDict [(codes "cm", VNone)])
  /\ _parse_distance_response (response_within 1 (cm_field_body "null"))
     = Ret None
  /\ _parse_distance_response
       (response_within 1 (cm_field_body (quoted "12,5")))
     = Ret None
  /\ _parse_distance_response
       (response_within 1 (cm_field_body (quoted "12.5")))
     = Ret (Some (FFin (25 # 2)))
  /\ _parse_distance_response
       (response_within 1 (cm_field_body (quoted "\u0661\u0662")))
     = Ret (Some (FFin 12))
  /\ _parse_distance_response
       (response_within 0 (cm_field_body "5"))
     = Ret None.
Proof.
  assert (J : json_loads 1 (cm_field_body "null")
              = Ret (VDict [(codes "cm", VNone)])) by (vm_compute; reflexivity).
  split; [exact J|].
  split; [exact (object_bodies _ _ _ J)|].
  repeat split; vm_compute; reflexivity.
Defined.

End ObjectBodies.
